(** * narr: capture-and-download pipeline (main.go and its earlier variant)

    A shallow embedding of the Go program: the URL classifier and
    transformer, the download job naming, the downloader, the connector's
    retry loop and the response loop, together with the parts of the Go
    standard library they call (strings, strconv, net/url). *)

From Stdlib Require Import Ascii String ZArith Lia List Bool.
From stdpp Require Import gmap strings list.

Open Scope string_scope.
Open Scope list_scope.

(** Go strings are byte sequences; a literal is read as its bytes. *)
Coercion list_ascii_of_string : string >-> list.

(* ------------------------------------------------------------------ *)
(** ** Package strings *)

Module Strings.

Definition byte_eqb (a b : ascii) : bool := Ascii.eqb a b.

Fixpoint HasPrefix (s prefix : list ascii) : bool :=
  match prefix, s with
  | [], _ => true
  | p :: prefix', c :: s' => byte_eqb p c && HasPrefix s' prefix'
  | _ :: _, [] => false
  end.

Definition HasSuffix (s suffix : list ascii) : bool :=
  HasPrefix (rev s) (rev suffix).

(** [Index s substr]: position of the first instance of [substr]. *)
Fixpoint Index (s substr : list ascii) : option nat :=
  if HasPrefix s substr then Some 0%nat
  else match s with
       | [] => None
       | _ :: s' => S <$> Index s' substr
       end.

(** [LastIndex s substr]: position of the last instance of [substr]. *)
Fixpoint LastIndex (s substr : list ascii) : option nat :=
  match s with
  | [] => if HasPrefix s substr then Some 0%nat else None
  | _ :: s' =>
      match LastIndex s' substr with
      | Some i => Some (S i)
      | None => if HasPrefix s substr then Some 0%nat else None
      end
  end.

Definition Contains (s substr : list ascii) : bool :=
  match Index s substr with Some _ => true | None => false end.

(** [Cut s sep] slices [s] around the first instance of [sep]. *)
Definition Cut (s sep : list ascii) : list ascii * list ascii * bool :=
  match Index s sep with
  | Some i => (take i s, drop (i + length sep) s, true)
  | None => (s, [], false)
  end.

(** [Count s substr] for a one-byte [substr] (the only use here): the
    number of bytes of [s] equal to it. *)
Fixpoint CountByte (s : list ascii) (c : ascii) : nat :=
  match s with
  | [] => 0%nat
  | x :: s' => if byte_eqb x c then S (CountByte s' c) else CountByte s' c
  end.

Definition lowerByte (c : ascii) : ascii :=
  if (("A" <=? c) && (c <=? "Z"))%char
  then ascii_of_N (N_of_ascii c + 32) else c.

(** [ToLower] on ASCII input. *)
Definition ToLower (s : list ascii) : list ascii := map lowerByte s.

End Strings.

(* ------------------------------------------------------------------ *)
(** ** Package net/url

    The program calls [url.Parse] and the [String] method of [URL]; both
    belong to the Go standard library.  They are transcribed here function
    by function from net/url as of Go 1.19, the first release with
    [OmitHost] (Parse, parse, getScheme, parseAuthority, parseHost, setPath,
    setFragment, unescape, escape, shouldEscape, validEncoded, EscapedPath,
    EscapedFragment, String). *)

Module url.
Import Strings.

Inductive encoding : Type :=
| encodePath | encodePathSegment | encodeHost | encodeZone
| encodeUserPassword | encodeQueryComponent | encodeFragment.

Definition encoding_eqb (a b : encoding) : bool :=
  match a, b with
  | encodePath, encodePath | encodePathSegment, encodePathSegment
  | encodeHost, encodeHost | encodeZone, encodeZone
  | encodeUserPassword, encodeUserPassword
  | encodeQueryComponent, encodeQueryComponent
  | encodeFragment, encodeFragment => true
  | _, _ => false
  end.

(** The errors [Parse] reports. *)
Inductive Error : Type :=
| EscapeError (s : list ascii)
| InvalidHostError (s : list ascii)
| InvalidPortError (colonPort : list ascii)   (* invalid port %q after host *)
| ErrorString (msg : string).

Inductive result (A : Type) : Type :=
| Ok (a : A)
| Err (e : Error).
Arguments Ok {A} a.
Arguments Err {A} e.

#[global] Instance result_ret : MRet result := @Ok.
#[global] Instance result_bind : MBind result := fun A B k r =>
  match r with
  | Ok a => k a
  | Err e => Err e
  end.

Definition inRange (lo hi c : ascii) : bool := ((lo <=? c) && (c <=? hi))%char.

Definition isAlnum (c : ascii) : bool :=
  inRange "a" "z" c || inRange "A" "Z" c || inRange "0" "9" c.

Definition oneOf (c : ascii) (set : list ascii) : bool :=
  existsb (byte_eqb c) set.

(** The byte 0x22, the double quote. *)
Definition dquote : ascii := ascii_of_N 34.

Definition ishex (c : ascii) : bool :=
  inRange "0" "9" c || inRange "a" "f" c || inRange "A" "F" c.

Definition unhex (c : ascii) : N :=
  if inRange "0" "9" c then N_of_ascii c - N_of_ascii "0"
  else if inRange "a" "f" c then N_of_ascii c - N_of_ascii "a" + 10
  else if inRange "A" "F" c then N_of_ascii c - N_of_ascii "A" + 10
  else 0.

Definition upperhex : list ascii := "0123456789ABCDEF".

Definition hexDigit (n : N) : ascii := nth (N.to_nat n) upperhex "0"%char.

(** [unhex(a)<<4 | unhex(b)] *)
Definition hexByte (a b : ascii) : ascii :=
  ascii_of_N (N.lor (N.shiftl (unhex a) 4) (unhex b)).

(** Reports whether the byte must be escaped in the given part of a URL. *)
Definition shouldEscape (c : ascii) (mode : encoding) : bool :=
  if isAlnum c then false
  else if (encoding_eqb mode encodeHost || encoding_eqb mode encodeZone)
          && oneOf c ("!$&'()*+,;=:[]<>" ++ [dquote])
  then false
  else if oneOf c "-_.~" then false
  else if oneOf c "$&+,/:;=?@" then
    match mode with
    | encodePath => byte_eqb c "?"
    | encodePathSegment => oneOf c "/;,?"
    | encodeUserPassword => oneOf c "@/?:"
    | encodeQueryComponent => true
    | encodeFragment => false
    | encodeHost | encodeZone => true
    end
  else if encoding_eqb mode encodeFragment && oneOf c "!()*" then false
  else true.

(** [unescape]: Go checks the whole string first and decodes it in a
    second pass; a single pass reports the same first error and the same
    decoded bytes. *)
Fixpoint unescape (s : list ascii) (mode : encoding) : result (list ascii) :=
  match s with
  | [] => Ok []
  | c :: rest =>
      if byte_eqb c "%" then
        match rest with
        | h1 :: h2 :: rest' =>
            if negb (ishex h1) || negb (ishex h2) then Err (EscapeError (take 3 s))
            else if encoding_eqb mode encodeHost && (unhex h1 <? 8)%N
                    && negb (byte_eqb h1 "2" && byte_eqb h2 "5")
            then Err (EscapeError (take 3 s))
            else if encoding_eqb mode encodeZone
                    && negb (byte_eqb h1 "2" && byte_eqb h2 "5")
                    && negb (byte_eqb (hexByte h1 h2) " ")
                    && shouldEscape (hexByte h1 h2) encodeHost
            then Err (EscapeError (take 3 s))
            else t ← unescape rest' mode; Ok (hexByte h1 h2 :: t)
        | _ => Err (EscapeError (take 3 s))
        end
      else if byte_eqb c "+" then
        t ← unescape rest mode;
        Ok ((if encoding_eqb mode encodeQueryComponent then " "%char else "+"%char) :: t)
      else if (encoding_eqb mode encodeHost || encoding_eqb mode encodeZone)
              && (N_of_ascii c <? 128)%N && shouldEscape c encodeHost
      then Err (InvalidHostError [c])
      else t ← unescape rest mode; Ok (c :: t)
  end.

Definition escapeByte (mode : encoding) (c : ascii) : list ascii :=
  if byte_eqb c " " && encoding_eqb mode encodeQueryComponent then ["+"%char]
  else if shouldEscape c mode
  then ["%"%char; hexDigit (N.shiftr (N_of_ascii c) 4); hexDigit (N.land (N_of_ascii c) 15)]
  else [c].

Definition escape (s : list ascii) (mode : encoding) : list ascii :=
  flat_map (escapeByte mode) s.

(** [validEncoded] reports whether [s] is a valid encoded path or fragment. *)
Definition validEncoded (s : list ascii) (mode : encoding) : bool :=
  forallb (fun c =>
    if oneOf c "!$&'()*+,;=:@" then true
    else if oneOf c "[]" then true
    else if byte_eqb c "%" then true
    else negb (shouldEscape c mode)) s.

Definition stringContainsCTLByte (s : list ascii) : bool :=
  existsb (fun b => (N_of_ascii b <? 32)%N || (N_of_ascii b =? 127)%N) s.

Record Userinfo : Type := mkUserinfo {
  username : list ascii;
  password : list ascii;
  passwordSet : bool
}.

Record URL : Type := mkURL {
  Scheme : list ascii;
  Opaque : list ascii;
  User : option Userinfo;
  Host : list ascii;
  Path : list ascii;
  RawPath : list ascii;
  OmitHost : bool;
  ForceQuery : bool;
  RawQuery : list ascii;
  Fragment : list ascii;
  RawFragment : list ascii
}.

(** [new(URL)] *)
Definition newURL : URL := mkURL [] [] None [] [] [] false false [] [] [].

Definition isEmpty (s : list ascii) : bool :=
  match s with [] => true | _ => false end.

Definition bytes_eqb (a b : list ascii) : bool :=
  bool_decide (a = b).

(** Field updates, one per assignment the library and the program make. *)
Definition setScheme (u : URL) (v : list ascii) : URL :=
  mkURL v (Opaque u) (User u) (Host u) (Path u) (RawPath u) (OmitHost u)
        (ForceQuery u) (RawQuery u) (Fragment u) (RawFragment u).
Definition setOpaque (u : URL) (v : list ascii) : URL :=
  mkURL (Scheme u) v (User u) (Host u) (Path u) (RawPath u) (OmitHost u)
        (ForceQuery u) (RawQuery u) (Fragment u) (RawFragment u).
Definition setUserHost (u : URL) (usr : option Userinfo) (h : list ascii) : URL :=
  mkURL (Scheme u) (Opaque u) usr h (Path u) (RawPath u) (OmitHost u)
        (ForceQuery u) (RawQuery u) (Fragment u) (RawFragment u).
Definition setPathField (u : URL) (v : list ascii) : URL :=
  mkURL (Scheme u) (Opaque u) (User u) (Host u) v (RawPath u) (OmitHost u)
        (ForceQuery u) (RawQuery u) (Fragment u) (RawFragment u).
Definition setRawPath (u : URL) (v : list ascii) : URL :=
  mkURL (Scheme u) (Opaque u) (User u) (Host u) (Path u) v (OmitHost u)
        (ForceQuery u) (RawQuery u) (Fragment u) (RawFragment u).
Definition setOmitHost (u : URL) (v : bool) : URL :=
  mkURL (Scheme u) (Opaque u) (User u) (Host u) (Path u) (RawPath u) v
        (ForceQuery u) (RawQuery u) (Fragment u) (RawFragment u).
Definition setForceQuery (u : URL) (v : bool) : URL :=
  mkURL (Scheme u) (Opaque u) (User u) (Host u) (Path u) (RawPath u) (OmitHost u)
        v (RawQuery u) (Fragment u) (RawFragment u).
Definition setRawQuery (u : URL) (v : list ascii) : URL :=
  mkURL (Scheme u) (Opaque u) (User u) (Host u) (Path u) (RawPath u) (OmitHost u)
        (ForceQuery u) v (Fragment u) (RawFragment u).
Definition setFragmentFields (u : URL) (f raw : list ascii) : URL :=
  mkURL (Scheme u) (Opaque u) (User u) (Host u) (Path u) (RawPath u) (OmitHost u)
        (ForceQuery u) (RawQuery u) f raw.

(** [getScheme]: the loop over [rawURL], [s] being [rawURL[i:]]. *)
Fixpoint getSchemeLoop (rawURL : list ascii) (i : nat) (s : list ascii)
  : result (list ascii * list ascii) :=
  match s with
  | [] => Ok ([], rawURL)
  | c :: s' =>
      if inRange "a" "z" c || inRange "A" "Z" c then getSchemeLoop rawURL (S i) s'
      else if inRange "0" "9" c || oneOf c "+-." then
        if (i =? 0)%nat then Ok ([], rawURL) else getSchemeLoop rawURL (S i) s'
      else if byte_eqb c ":" then
        if (i =? 0)%nat then Err (ErrorString "missing protocol scheme")
        else Ok (take i rawURL, drop (S i) rawURL)
      else Ok ([], rawURL)
  end.

Definition getScheme (rawURL : list ascii) : result (list ascii * list ascii) :=
  getSchemeLoop rawURL 0 rawURL.

Definition validOptionalPort (port : list ascii) : bool :=
  match port with
  | [] => true
  | c :: digits => byte_eqb c ":" && forallb (inRange "0" "9") digits
  end.

(** [validUserinfo] ranges over runes; every rune outside ASCII, and so
    every byte from 0x80 on, is refused. *)
Definition validUserinfo (s : list ascii) : bool :=
  forallb (fun r => isAlnum r || oneOf r "-._:~!$&'()*+,;=%@") s.

Definition parseHost (host : list ascii) : result (list ascii) :=
  let plain := unescape host encodeHost in
  if HasPrefix host "[" then
    match LastIndex host "]" with
    | None => Err (ErrorString "missing ']' in host")
    | Some i =>
        let colonPort := drop (S i) host in
        if negb (validOptionalPort colonPort)
        then Err (InvalidPortError colonPort)
        else match Index (take i host) "%25" with
             | Some zone =>
                 host1 ← unescape (take zone host) encodeHost;
                 host2 ← unescape (drop zone (take i host)) encodeZone;
                 host3 ← unescape (drop i host) encodeHost;
                 Ok (host1 ++ host2 ++ host3)
             | None => plain
             end
    end
  else
    match LastIndex host ":" with
    | Some i =>
        let colonPort := drop i host in
        if negb (validOptionalPort colonPort)
        then Err (InvalidPortError colonPort)
        else plain
    | None => plain
    end.

Definition parseAuthority (authority : list ascii)
  : result (option Userinfo * list ascii) :=
  match LastIndex authority "@" with
  | None => host ← parseHost authority; Ok (None, host)
  | Some i =>
      host ← parseHost (drop (S i) authority);
      let userinfo := take i authority in
      if negb (validUserinfo userinfo)
      then Err (ErrorString "net/url: invalid userinfo")
      else if negb (Contains userinfo ":") then
        userinfo ← unescape userinfo encodeUserPassword;
        Ok (Some (mkUserinfo userinfo [] false), host)
      else
        let '(uname, pass, _) := Cut userinfo ":" in
        uname ← unescape uname encodeUserPassword;
        pass ← unescape pass encodeUserPassword;
        Ok (Some (mkUserinfo uname pass true), host)
  end.

Definition setPath (u : URL) (p : list ascii) : result URL :=
  path ← unescape p encodePath;
  let u := setPathField u path in
  if bytes_eqb p (escape path encodePath)
  then Ok (setRawPath u [])
  else Ok (setRawPath u p).

Definition setFragment (u : URL) (f : list ascii) : result URL :=
  frag ← unescape f encodeFragment;
  if bytes_eqb f (escape frag encodeFragment)
  then Ok (setFragmentFields u frag [])
  else Ok (setFragmentFields u frag f).

(** The end of [parse]: the authority, when the rest starts with two
    slashes, then the path. *)
Definition parseAuthorityPath (url : URL) (rest : list ascii) (viaRequest : bool)
  : result URL :=
  '(url, rest) ←
    (if (negb (isEmpty (Scheme url)) || negb viaRequest && negb (HasPrefix rest "///"))
        && HasPrefix rest "//"
     then
       let authority := drop 2 rest in
       let '(authority, rest) :=
         match Index authority "/" with
         | Some i => (take i authority, drop i authority)
         | None => (authority, [])
         end in
       '(usr, host) ← parseAuthority authority;
       Ok (setUserHost url usr host, rest)
     else if negb (isEmpty (Scheme url)) && HasPrefix rest "/"
     then Ok (setOmitHost url true, rest)
     else Ok (url, rest));
  setPath url rest.

(** The part of [parse] after the scheme and the query are split off: a
    rootless rest after a scheme is opaque. *)
Definition parseRest (url : URL) (rest : list ascii) (viaRequest : bool) : result URL :=
  if negb (HasPrefix rest "/") then
    if negb (isEmpty (Scheme url)) then Ok (setOpaque url rest)
    else if viaRequest then Err (ErrorString "invalid URI for request")
    else if Contains (Cut rest "/").1.1 ":"
    then Err (ErrorString "first path segment in URL cannot contain colon")
    else parseAuthorityPath url rest viaRequest
  else parseAuthorityPath url rest viaRequest.

Definition parse (rawURL : list ascii) (viaRequest : bool) : result URL :=
  if stringContainsCTLByte rawURL
  then Err (ErrorString "net/url: invalid control character in URL")
  else if isEmpty rawURL && viaRequest then Err (ErrorString "empty url")
  else if bytes_eqb rawURL "*" then Ok (setPathField newURL "*")
  else
    '(scheme, rest) ← getScheme rawURL;
    let url := setScheme newURL (ToLower scheme) in
    if HasSuffix rest "?" && (CountByte rest "?" =? 1)%nat
    then parseRest (setForceQuery url true) (take (length rest - 1) rest) viaRequest
    else let '(rest, query, _) := Cut rest "?" in
         parseRest (setRawQuery url query) rest viaRequest.

Definition Parse (rawURL : list ascii) : result URL :=
  let '(u, frag, _) := Cut rawURL "#" in
  url ← parse u false;
  if isEmpty frag then Ok url else setFragment url frag.

Definition EscapedPath (u : URL) : list ascii :=
  let viaRaw :=
    if negb (isEmpty (RawPath u)) && validEncoded (RawPath u) encodePath then
      match unescape (RawPath u) encodePath with
      | Ok p => if bytes_eqb p (Path u) then Some (RawPath u) else None
      | Err _ => None
      end
    else None in
  match viaRaw with
  | Some raw => raw
  | None => if bytes_eqb (Path u) "*" then "*" else escape (Path u) encodePath
  end.

Definition EscapedFragment (u : URL) : list ascii :=
  let viaRaw :=
    if negb (isEmpty (RawFragment u)) && validEncoded (RawFragment u) encodeFragment then
      match unescape (RawFragment u) encodeFragment with
      | Ok f => if bytes_eqb f (Fragment u) then Some (RawFragment u) else None
      | Err _ => None
      end
    else None in
  match viaRaw with
  | Some raw => raw
  | None => escape (Fragment u) encodeFragment
  end.

Definition UserinfoString (ui : Userinfo) : list ascii :=
  let s := escape (username ui) encodeUserPassword in
  if passwordSet ui then s ++ ":" ++ escape (password ui) encodeUserPassword else s.

Definition isSome {A} (o : option A) : bool :=
  match o with Some _ => true | None => false end.

(** [String] reassembles the URL; [buf] is the [strings.Builder]. *)
Definition String (u : URL) : list ascii :=
  let buf : list ascii := if negb (isEmpty (Scheme u)) then Scheme u ++ ":" else [] in
  let buf :=
    if negb (isEmpty (Opaque u)) then buf ++ Opaque u
    else
      let buf :=
        if negb (isEmpty (Scheme u)) || negb (isEmpty (Host u)) || isSome (User u) then
          if OmitHost u && isEmpty (Host u) && negb (isSome (User u)) then buf
          else
            let buf :=
              if negb (isEmpty (Host u)) || negb (isEmpty (Path u)) || isSome (User u)
              then buf ++ "//" else buf in
            let buf :=
              match User u with
              | Some ui => buf ++ UserinfoString ui ++ "@"
              | None => buf
              end in
            if negb (isEmpty (Host u)) then buf ++ escape (Host u) encodeHost else buf
        else buf in
      let path := EscapedPath u in
      let buf :=
        if negb (isEmpty path) && negb (HasPrefix path "/") && negb (isEmpty (Host u))
        then buf ++ "/" else buf in
      let buf :=
        if isEmpty buf && Contains (Cut path "/").1.1 ":" then buf ++ "./" else buf in
      buf ++ path in
  let buf :=
    if ForceQuery u || negb (isEmpty (RawQuery u)) then buf ++ "?" ++ RawQuery u else buf in
  if negb (isEmpty (Fragment u)) then buf ++ "#" ++ EscapedFragment u else buf.

End url.

(* ------------------------------------------------------------------ *)
(** ** Package strconv *)

Module strconv.

Definition digit (d : Z) : ascii := ascii_of_N (48 + Z.to_N d).

(** The digit loop of [formatBits] in base 10: the least significant
    digit is produced first and written in front of the later ones. *)
Fixpoint formatBits (fuel : nat) (u : Z) (a : list ascii) : list ascii :=
  match fuel with
  | O => a
  | S fuel' =>
      if (u <? 10)%Z then digit u :: a
      else formatBits fuel' (u / 10) (digit (u mod 10) :: a)
  end.

Definition FormatUint (u : Z) : list ascii :=
  formatBits (S (Z.to_nat (Z.log2 u))) u [].

Definition Itoa (i : Z) : list ascii :=
  if (i <? 0)%Z then "-" ++ FormatUint (- i) else FormatUint i.

End strconv.

(* ------------------------------------------------------------------ *)
(** ** The program *)

Module narr.
Import Strings.

(** What lies outside the process: the remote browser, the network, the
    disk, the random source and the worker pool's admission. *)

Inductive error : Type :=
| ErrURL (e : url.Error)              (* url.Parse *)
| ErrCreate (path : list ascii)       (* os.Create *)
| ErrGet (u : list ascii)             (* http.Get: no response obtained *)
| ErrRead                             (* io.Copy: reading the body *)
| ErrWrite                            (* io.Copy: writing the file *)
| ErrDevtool                          (* devtool.Get and devtool.Create *)
| ErrDial                             (* rpcc.DialContext *)
| ErrRecv                             (* ResponseReceivedClient.Recv *)
| ErrQueue                            (* Queue.QueueTask *)
| ErrWrap (msg : string) (e : error). (* fmt.Errorf with %w *)

(** A response body: the bytes it delivers and whether the stream then
    breaks instead of ending. *)
Record Body : Type := mkBody {
  delivered : list ascii;
  broken : bool
}.

Inductive GetResult : Type :=
| GetFails
| Response (status : Z) (body : Body).

(** One run of the connect sequence meets these answers. *)
Record Debugger : Type := mkDebugger {
  getPage : option (list ascii);      (* devt.Get: the target's socket URL *)
  createPage : option (list ascii);   (* devt.Create *)
  dial : list ascii -> option nat     (* rpcc.DialContext: a connection *)
}.

Record Env : Type := mkEnv {
  httpGet : list ascii -> GetResult;
  createFails : list ascii -> bool;
  writeLimit : list ascii -> option nat;
  randInt : nat -> Z;
  debuggerAt : nat -> Debugger;
  queueTaskFails : nat -> bool
}.

(** What the process writes: the log package's lines (messages and
    errors) and standard output. *)
Inductive logEntry : Type :=
| LogLine (msg : list ascii)
| LogError (e : error)
| Stdout (msg : list ascii).

(** A task handed to the pool is a closure: it holds the two variables it
    captured, not their values. *)
Record Task : Type := mkTask {
  capFromURL : nat;
  capToPath : nat
}.

(** A started goroutine.  The one of [enqueueDownload] has its own
    arguments [s] and [t] and submits the task literal of the enclosing
    call; the one of the earlier variant builds its task from its
    arguments when it runs. *)
Inductive Goroutine : Type :=
| GoSubmit (s t : list ascii) (task : Task)
| GoSubmitNew (srcUrl tgtPath : list ascii).

Record World : Type := mkWorld {
  files : gmap (list ascii) (list ascii);
  logs : list logEntry;
  requests : list (list ascii);       (* URLs fetched so far *)
  vars : list (list ascii);           (* string variables that outlive their call *)
  goroutines : list Goroutine;        (* started, not yet run *)
  queued : list Task;                 (* admitted by the pool *)
  submissions : nat;                  (* calls of QueueTask so far *)
  randCalls : nat;                    (* calls of rand.Int so far *)
  attempts : nat;                     (* connect sequences run so far *)
  slept : list Z;                     (* durations slept, newest first *)
  chrome : option nat                 (* the variable chrome of main *)
}.

Definition emptyWorld : World :=
  mkWorld ∅ [] [] [] [] [] 0 0 0 [] None.

Definition setFiles (w : World) (v : gmap (list ascii) (list ascii)) : World :=
  mkWorld v (logs w) (requests w) (vars w) (goroutines w) (queued w)
          (submissions w) (randCalls w) (attempts w) (slept w) (chrome w).
Definition setLogs (w : World) (v : list logEntry) : World :=
  mkWorld (files w) v (requests w) (vars w) (goroutines w) (queued w)
          (submissions w) (randCalls w) (attempts w) (slept w) (chrome w).
Definition setRequests (w : World) (v : list (list ascii)) : World :=
  mkWorld (files w) (logs w) v (vars w) (goroutines w) (queued w)
          (submissions w) (randCalls w) (attempts w) (slept w) (chrome w).
Definition setVars (w : World) (v : list (list ascii)) : World :=
  mkWorld (files w) (logs w) (requests w) v (goroutines w) (queued w)
          (submissions w) (randCalls w) (attempts w) (slept w) (chrome w).
Definition setGoroutines (w : World) (v : list Goroutine) : World :=
  mkWorld (files w) (logs w) (requests w) (vars w) v (queued w)
          (submissions w) (randCalls w) (attempts w) (slept w) (chrome w).
Definition setQueued (w : World) (v : list Task) : World :=
  mkWorld (files w) (logs w) (requests w) (vars w) (goroutines w) v
          (submissions w) (randCalls w) (attempts w) (slept w) (chrome w).
Definition setSubmissions (w : World) (v : nat) : World :=
  mkWorld (files w) (logs w) (requests w) (vars w) (goroutines w) (queued w)
          v (randCalls w) (attempts w) (slept w) (chrome w).
Definition setRandCalls (w : World) (v : nat) : World :=
  mkWorld (files w) (logs w) (requests w) (vars w) (goroutines w) (queued w)
          (submissions w) v (attempts w) (slept w) (chrome w).
Definition setAttempts (w : World) (v : nat) : World :=
  mkWorld (files w) (logs w) (requests w) (vars w) (goroutines w) (queued w)
          (submissions w) (randCalls w) v (slept w) (chrome w).
Definition setSlept (w : World) (v : list Z) : World :=
  mkWorld (files w) (logs w) (requests w) (vars w) (goroutines w) (queued w)
          (submissions w) (randCalls w) (attempts w) v (chrome w).
Definition setChrome (w : World) (v : option nat) : World :=
  mkWorld (files w) (logs w) (requests w) (vars w) (goroutines w) (queued w)
          (submissions w) (randCalls w) (attempts w) (slept w) v.

(** A computation either returns or ends the process ([os.Exit], as
    [log.Fatal] does, or a panic nobody recovers). *)
Inductive outcome (A : Type) : Type :=
| Ret (a : A)
| Exit (code : Z).
Arguments Ret {A} a.
Arguments Exit {A} code.

Definition M (A : Type) : Type := World -> outcome A * World.

Definition ret {A} (a : A) : M A := fun w => (Ret a, w).

Definition bind {A B} (m : M A) (k : A -> M B) : M B := fun w =>
  match m w with
  | (Ret a, w') => k a w'
  | (Exit c, w') => (Exit c, w')
  end.

Notation "'do' x <- m ; k" := (bind m (fun x => k))
  (at level 10, x name, m at level 100, k at level 200).
Notation "'do' ' p <- m ; k" := (bind m (fun x => let 'p := x in k))
  (at level 10, p pattern, m at level 100, k at level 200).
Notation "'exec' m ; k" := (bind m (fun _ => k))
  (at level 10, m at level 100, k at level 200).

Definition modify (f : World -> World) : M unit := fun w => (Ret tt, f w).
Definition exit {A} (code : Z) : M A := fun w => (Exit code, w).

(** *** System calls and library calls, as the program sees them *)

Definition logPrintln (msg : list ascii) : M unit :=
  modify (fun w => setLogs w (logs w ++ [LogLine msg])).

Definition logPrint (e : error) : M unit :=
  modify (fun w => setLogs w (logs w ++ [LogError e])).

Definition fmtPrintln (msg : list ascii) : M unit :=
  modify (fun w => setLogs w (logs w ++ [Stdout msg])).

(** [log.Fatal]: print, then [os.Exit(1)]. *)
Definition logFatal {A} (e : error) : M A :=
  exec logPrint e; exit 1.

(** [panic] in a goroutine without [recover]: the process dies, status 2. *)
Definition panic {A} (e : error) : M A :=
  exec logPrint e; exit 2.

(** [os.Create]: the file is created, or truncated when it exists. *)
Definition osCreate (E : Env) (path : list ascii) : M (option error) :=
  if createFails E path then ret (Some (ErrCreate path))
  else exec modify (fun w => setFiles w (<[path := []]> (files w))); ret None.

Definition httpGetCall (E : Env) (u : list ascii) : M (error + Z * Body) :=
  exec modify (fun w => setRequests w (requests w ++ [u]));
  match httpGet E u with
  | GetFails => ret (inl (ErrGet u))
  | Response status body => ret (inr (status, body))
  end.

Definition fileWrite (path data : list ascii) : M unit :=
  modify (fun w => setFiles w (<[path := default [] (files w !! path) ++ data]> (files w))).

(** [io.Copy(out, resp.Body)]: the bytes written and the first error. *)
Definition ioCopy (E : Env) (path : list ascii) (body : Body) : M (Z * option error) :=
  let data := delivered body in
  let whole :=
    exec fileWrite path data;
    ret (Z.of_nat (length data), if broken body then Some ErrRead else None) in
  match writeLimit E path with
  | Some k =>
      if (k <? length data)%nat
      then exec fileWrite path (take k data); ret (Z.of_nat k, Some ErrWrite)
      else whole
  | None => whole
  end.

(** [rand.Int()] *)
Definition randIntCall (E : Env) : M Z := fun w =>
  (Ret (randInt E (randCalls w)), setRandCalls w (S (randCalls w))).

Definition timeSleep (d : Z) : M unit :=
  modify (fun w => setSlept w (d :: slept w)).

(** A variable that outlives the call declaring it. *)
Definition newVar (v : list ascii) : M nat := fun w =>
  (Ret (length (vars w)), setVars w (vars w ++ [v])).

Definition readVar (a : nat) : M (list ascii) := fun w =>
  (Ret (default [] (vars w !! a)), w).

(** [q.QueueTask(task)] *)
Definition QueueTask (E : Env) (task : Task) : M (option error) := fun w =>
  let w' := setSubmissions w (S (submissions w)) in
  if queueTaskFails E (submissions w) then (Ret (Some ErrQueue), w')
  else (Ret None, setQueued w' (queued w' ++ [task])).

(** *** main.go *)

(** Audio resources have the path format /range/0-nnnn... *)
Definition isAudioURL (u : list ascii) : bool :=
  Contains u "/range/0-".

Definition toDownloadableURL (audioURL : list ascii) : M (list ascii) :=
  match url.Parse audioURL with
  | url.Err e => logFatal (ErrURL e)
  | url.Ok u =>
      let u := url.setPathField u [] in
      ret (url.String u)
  end.

Definition download (E : Env) (fromUrl toPath : list ascii) : M (option error) :=
  exec logPrintln ("Downloading " ++ fromUrl);
  do err <- osCreate E toPath;
  match err with
  | Some e => ret (Some e)
  | None =>
      do resp <- httpGetCall E fromUrl;
      match resp with
      | inl e => ret (Some e)
      | inr (_, body) =>
          do '(n, err) <- ioCopy E toPath body;
          match err with
          | Some e => ret (Some e)
          | None =>
              exec logPrintln ("Done, got " ++ strconv.Itoa n ++ " bytes");
              ret None
          end
      end
  end.

(** The task literal of [enqueueDownload], run by a worker: it reads the
    variables it captured. *)
Definition runTask (E : Env) (task : Task) : M (option error) :=
  do fromURL <- readVar (capFromURL task);
  do toPath <- readVar (capToPath task);
  download E fromURL toPath.

Definition enqueueDownload (fromURL toPath : list ascii) : M (option error) :=
  do fromURL_var <- newVar fromURL;
  do toPath_var <- newVar toPath;
  do s <- readVar fromURL_var;
  do t <- readVar toPath_var;
  exec modify (fun w =>
    setGoroutines w (goroutines w ++ [GoSubmit s t (mkTask fromURL_var toPath_var)]));
  ret None.

(** The body of the goroutine of [enqueueDownload]. *)
Definition submitTask (E : Env) (task : Task) : M unit :=
  do err <- QueueTask E task;
  match err with
  | Some _ => ret tt
  | None => ret tt
  end.

(** The connect sequence against one state of the debugger: look up a
    page target, create one when the lookup fails, dial its socket. *)
Definition connectSequence (d : Debugger) : option nat * option error :=
  let pt :=
    match getPage d with
    | Some pt => Some pt
    | None => createPage d
    end in
  match pt with
  | None => (None, Some ErrDevtool)
  | Some socket =>
      match dial d socket with
      | None => (None, Some ErrDial)
      | Some conn => (Some conn, None)
      end
  end.

Definition connectToChromeDebugger (E : Env) : M (option nat * option error) := fun w =>
  (Ret (connectSequence (debuggerAt E (attempts w))), setAttempts w (S (attempts w))).

Definition retryFunc (E : Env) : M (option error) :=
  do '(client, err) <- connectToChromeDebugger E;
  exec modify (fun w => setChrome w client);
  match err with
  | Some e =>
      exec logPrint (ErrWrap "can't connect to http://127.0.0.1:9222. Chrome must be started in debug mode." e);
      ret err
  | None => ret err
  end.

(** Package backoff: the constant policy and [Retry].  No error of the
    connect sequence is a [PermanentError], and the background context is
    never done.  [fuel] bounds the iterations followed here; [None]
    means the loop is still running. *)
Definition Stop : Z := -1.
Definition Second : Z := 1000000000.

Record ConstantBackOff : Type := NewConstantBackOff { Interval : Z }.

Definition NextBackOff (b : ConstantBackOff) : Z := Interval b.

Fixpoint Retry (fuel : nat) (operation : M (option error)) (b : ConstantBackOff)
  : M (option (option error)) :=
  match fuel with
  | O => ret None
  | S fuel' =>
      do err <- operation;
      match err with
      | None => ret (Some None)
      | Some e =>
          let next := NextBackOff b in
          if (next =? Stop)%Z then ret (Some (Some e))
          else exec timeSleep next; Retry fuel' operation b
      end
  end.

(** Lines 28 to 40 of [main]. *)
Definition connect (E : Env) (fuel : nat) : M (option unit) :=
  do r <- Retry fuel (retryFunc E) (NewConstantBackOff (5 * Second));
  match r with
  | None => ret None
  | Some (Some e) => logFatal e
  | Some None => ret (Some tt)
  end.

(** What [Recv] yields for one response of the tab. *)
Inductive RecvResult : Type :=
| RecvURL (u : list ascii)
| RecvFails.

(** The loop of [main] over the channel of [listen]; a failed [Recv] is
    fatal inside [listen]. *)
Fixpoint responseLoop (E : Env) (events : list RecvResult) : M unit :=
  match events with
  | [] => ret tt
  | RecvFails :: _ => logFatal ErrRecv
  | RecvURL u :: events' =>
      if negb (isAudioURL u) then responseLoop E events'
      else
        do from <- toDownloadableURL u;
        do n <- randIntCall E;
        do err <- enqueueDownload from ("DL-" ++ strconv.Itoa n);
        exec match err with
             | Some e => logPrint e
             | None => ret tt
             end;
        responseLoop E events'
  end.

(** *** Goroutines and workers

    What happens besides the loop of [main]: a started goroutine runs its
    body, a worker of the pool runs an admitted task.  A schedule lists
    these events in the order they take place. *)
Inductive event : Type :=
| CallEnqueue (fromURL toPath : list ascii)   (* main calls enqueueDownload *)
| RunGoroutine (i : nat)                      (* the i-th started goroutine runs *)
| RunQueued (i : nat).                        (* a worker takes the i-th admitted task *)

(** A worker running one task; the pool logs the error a task returns
    and goes on with the next task. *)
Definition work (E : Env) (task : Task) : M unit :=
  do err <- runTask E task;
  match err with
  | Some e => logPrint e
  | None => ret tt
  end.

(** One event.  An index that names no goroutine of [enqueueDownload], or
    no admitted task, makes no step. *)
Definition perform (E : Env) (ev : event) : M unit :=
  match ev with
  | CallEnqueue fromURL toPath =>
      exec enqueueDownload fromURL toPath; ret tt
  | RunGoroutine i => fun w =>
      match goroutines w !! i with
      | Some (GoSubmit _ _ task) =>
          submitTask E task (setGoroutines w (delete i (goroutines w)))
      | _ => (Ret tt, w)
      end
  | RunQueued i => fun w =>
      match queued w !! i with
      | Some task => work E task (setQueued w (delete i (queued w)))
      | None => (Ret tt, w)
      end
  end.

Fixpoint schedule (E : Env) (evs : list event) : M unit :=
  match evs with
  | [] => ret tt
  | ev :: evs' => exec perform E ev; schedule E evs'
  end.

(** The target paths of the goroutines started so far. *)
Definition targetPaths (w : World) : list (list ascii) :=
  map (fun g => match g with GoSubmit _ t _ => t | GoSubmitNew _ t => t end)
      (goroutines w).

End narr.

(** ** The earlier variant of the program (the second source file) *)

Module narr0.
Import Strings narr.

Definition isAudioURL (u : list ascii) : bool :=
  Contains u "/range/0-".

Definition downloadAudio (E : Env) (fromUrl toPath : list ascii) : M unit :=
  exec fmtPrintln ("Downloading " ++ fromUrl);
  match url.Parse fromUrl with
  | url.Err e => logFatal (ErrURL e)
  | url.Ok u =>
      let u := url.setPathField u [] in
      do err <- osCreate E toPath;
      match err with
      | Some e => logFatal e
      | None =>
          do resp <- httpGetCall E (url.String u);
          match resp with
          | inl e => logFatal e
          | inr (_, body) =>
              do '(n, err) <- ioCopy E toPath body;
              match err with
              | Some e => logFatal e
              | None => logPrintln ("Done, got " ++ strconv.Itoa n ++ " bytes")
              end
          end
      end
  end.

(** The closure [newDownloadTask] returns, run by a worker. *)
Definition runTask (E : Env) (task : Task) : M (option error) :=
  do srcUrl <- readVar (capFromURL task);
  do tgtPath <- readVar (capToPath task);
  exec downloadAudio E srcUrl tgtPath;
  ret None.

Definition newDownloadTask (srcUrl tgtPath : list ascii) : M Task :=
  do srcUrl_var <- newVar srcUrl;
  do tgtPath_var <- newVar tgtPath;
  ret (mkTask srcUrl_var tgtPath_var).

(** The body of the goroutine started in the response loop. *)
Definition submitTask (E : Env) (srcUrl tgtPath : list ascii) : M unit :=
  do task <- newDownloadTask srcUrl tgtPath;
  do err <- QueueTask E task;
  match err with
  | Some e => panic e
  | None => ret tt
  end.

Fixpoint responseLoop (E : Env) (events : list RecvResult) : M unit :=
  match events with
  | [] => ret tt
  | RecvFails :: _ => logFatal ErrRecv
  | RecvURL u :: events' =>
      if negb (isAudioURL u) then responseLoop E events'
      else
        do n <- randIntCall E;
        exec modify (fun w =>
          setGoroutines w (goroutines w ++ [GoSubmitNew u ("DL-" ++ strconv.Itoa n)]));
        responseLoop E events'
  end.

End narr0.

(* ------------------------------------------------------------------ *)
(** ** Notions the statements below use *)

(** The classifier as the specification words it: the path component of
    the URL contains the marker. *)
Definition isSegmentURL_spec (u : list ascii) : bool :=
  match url.Parse u with
  | url.Ok p => Strings.Contains (url.Path p) "/range/0-"
  | url.Err _ => false
  end.

(** Percent-decoding without any check: every well-formed triple becomes
    its byte, all else stays. *)
Fixpoint rawDecode (s : list ascii) : list ascii :=
  match s with
  | [] => []
  | c :: rest =>
      if Strings.byte_eqb c "%" then
        match rest with
        | h1 :: h2 :: rest' => url.hexByte h1 h2 :: rawDecode rest'
        | _ => c :: rawDecode rest
        end
      else c :: rawDecode rest
  end.

(** Reading a decimal numeral back. *)
Definition digitValue (c : ascii) : Z := Z.of_N (N_of_ascii c) - 48.

Definition readDecimal (s : list ascii) : Z :=
  fold_left (fun acc c => 10 * acc + digitValue c)%Z s 0%Z.

(** Reading a numeral with its sign, the way [strconv.Atoi] reads what
    [Itoa] writes. *)
Definition parseInt (s : list ascii) : Z :=
  match s with
  | c :: rest => if Strings.byte_eqb c "-" then (- readDecimal rest)%Z else readDecimal s
  | [] => 0%Z
  end.

(** The identifiers [rand.Int] hands out between two states. *)
Definition drawn (E : narr.Env) (w w' : narr.World) : list Z :=
  map (narr.randInt E) (seq (narr.randCalls w) (narr.randCalls w' - narr.randCalls w)).

Definition targetPath (n : Z) : list ascii := "DL-" ++ strconv.Itoa n.

(** A URL whose query string alone carries the marker. *)
Definition c1_url : list ascii := "https://media.example/video/manifest.mpd?next=/range/0-1023".

(** The state [enqueueDownload] leaves: two fresh variables holding the
    arguments of this call, and one more goroutine. *)
Definition afterEnqueue (fromURL toPath : list ascii) (w : narr.World) : narr.World :=
  narr.setGoroutines (narr.setVars w (narr.vars w ++ [fromURL; toPath]))
    (narr.goroutines w ++
     [narr.GoSubmit fromURL toPath
        (narr.mkTask (length (narr.vars w)) (S (length (narr.vars w))))]).

(** *** Concrete surroundings for the examples *)

(** Nothing works: no debugger, no network, no disk. *)
Definition deadDebugger : narr.Debugger :=
  narr.mkDebugger None None (fun _ => None).

(** A debugger with one page target that accepts connections. *)
Definition liveDebugger : narr.Debugger :=
  narr.mkDebugger (Some ("ws://127.0.0.1:9222/devtools/page/1" : list ascii)) None (fun _ => Some 1%nat).

(** Every request is answered by [r]; the disk takes every file;
    [rand.Int] yields [ids]; the debugger is reachable from attempt
    [up] on; the pool admits every task. *)
Definition envWith (r : narr.GetResult) (ids : nat -> Z) (up : nat) : narr.Env :=
  narr.mkEnv (fun _ => r) (fun _ => false) (fun _ => None) ids
             (fun i => if (i <? up)%nat then deadDebugger else liveDebugger)
             (fun _ => false).

(** The server answers 500 with an error page. *)
Definition env500 : narr.Env :=
  envWith (narr.Response 500 (narr.mkBody "Internal Server Error" false)) (fun _ => 0%Z) 0.

(** The network is down. *)
Definition envDown : narr.Env :=
  envWith narr.GetFails (fun _ => 0%Z) 0.

(** [rand.Int] yields 7 twice in a row. *)
Definition envRepeat : narr.Env :=
  envWith (narr.Response 200 (narr.mkBody "audio" false)) (fun _ => 7%Z) 0.

(** The debugger refuses three times, then answers. *)
Definition envLate : narr.Env :=
  envWith (narr.Response 200 (narr.mkBody "audio" false)) (fun _ => 0%Z) 3.

(** The pool refuses every task. *)
Definition envFull : narr.Env :=
  narr.mkEnv (fun _ => narr.GetFails) (fun _ => false) (fun _ => None) (fun _ => 0%Z)
             (fun _ => liveDebugger) (fun _ => true).

Definition twoSegments : list narr.RecvResult :=
  [narr.RecvURL "https://media.example/a/range/0-1023?id=5";
   narr.RecvURL "https://media.example/b/range/0-2047?id=6"].

(** A URL of the classifier's kind that [url.Parse] refuses: the port is
    not a number. *)
Definition badPortURL : list ascii := "https://media.example:port/range/0-1023".

(** A failure of the transfer as [download] can meet it: the file cannot
    be created, the request yields no response, the body breaks off, or
    the disk refuses part of it. *)
Definition transferFails (E : narr.Env) (fromUrl toPath : list ascii) : Prop :=
  narr.createFails E toPath = true
  \/ narr.httpGet E fromUrl = narr.GetFails
  \/ exists status body,
       narr.httpGet E fromUrl = narr.Response status body
       /\ (narr.broken body = true
           \/ exists k, narr.writeLimit E toPath = Some k
                        /\ (k < length (narr.delivered body))%nat).

(** What a run of [download] leaves alone. *)
Definition downloadFrame (fromUrl toPath : list ascii) (w w' : narr.World) : Prop :=
  (forall p, p <> toPath -> narr.files w' !! p = narr.files w !! p)
  /\ (narr.requests w' = narr.requests w \/ narr.requests w' = narr.requests w ++ [fromUrl])
  /\ narr.vars w' = narr.vars w /\ narr.goroutines w' = narr.goroutines w
  /\ narr.queued w' = narr.queued w
  /\ narr.submissions w' = narr.submissions w /\ narr.randCalls w' = narr.randCalls w
  /\ narr.attempts w' = narr.attempts w /\ narr.slept w' = narr.slept w
  /\ narr.chrome w' = narr.chrome w.

(** All 256 bytes, for checks by enumeration. *)
Definition allBytes : list ascii := map ascii_of_nat (seq 0 256).

(** The bytes of a scheme as [getScheme] accepts them, and as they are
    after [ToLower]. *)
Definition letterByte (c : ascii) : bool :=
  url.inRange "a" "z" c || url.inRange "A" "Z" c.

Definition schemeByte (c : ascii) : bool :=
  letterByte c || (url.inRange "0" "9" c || url.oneOf c "+-.").

Definition lowerSchemeByte (c : ascii) : bool :=
  url.inRange "a" "z" c || (url.inRange "0" "9" c || url.oneOf c "+-.").

(** A scheme as [Parse] stores it: empty, or a lower-case letter followed
    by lower-case letters, digits, plus, minus and dot. *)
Definition storedScheme (sc : list ascii) : bool :=
  match sc with
  | [] => true
  | c :: r => url.inRange "a" "z" c && forallb lowerSchemeByte r
  end.

(** The text [String] writes for a URL without a path, part by part. *)
Definition schemeText (u : url.URL) : list ascii :=
  if negb (url.isEmpty (url.Scheme u)) then url.Scheme u ++ ":" else [].

Definition userText (u : url.URL) : list ascii :=
  match url.User u with
  | Some ui => url.UserinfoString ui ++ "@"
  | None => []
  end.

Definition authorityText (u : url.URL) : list ascii :=
  if url.isEmpty (url.Host u) && negb (url.isSome (url.User u)) then []
  else "//" ++ userText u ++ url.escape (url.Host u) url.encodeHost.

Definition hierText (u : url.URL) : list ascii :=
  if negb (url.isEmpty (url.Opaque u)) then url.Opaque u else authorityText u.

Definition queryText (u : url.URL) : list ascii :=
  if url.ForceQuery u || negb (url.isEmpty (url.RawQuery u)) then "?" ++ url.RawQuery u else [].

Definition fragmentText (u : url.URL) : list ascii :=
  if negb (url.isEmpty (url.Fragment u)) then "#" ++ url.EscapedFragment u else [].

Definition pathlessText (u : url.URL) : list ascii :=
  schemeText u ++ hierText u ++ queryText u ++ fragmentText u.

(** What every URL returned by [Parse] satisfies. *)
Definition parsedShape (u : url.URL) : Prop :=
  storedScheme (url.Scheme u) = true
  /\ ~ In "?"%char (url.Opaque u) /\ ~ In "#"%char (url.Opaque u)
  /\ Strings.HasPrefix (url.Opaque u) "/" = false
  /\ (url.Opaque u <> [] -> url.Scheme u <> [] /\ url.Host u = [] /\ url.User u = None)
  /\ ~ In "#"%char (url.RawQuery u)
  /\ (url.ForceQuery u = true -> url.RawQuery u = []).

(** Two URLs with the same scheme, opaque part and query. *)
Definition sameOuter (u v : url.URL) : Prop :=
  url.Scheme v = url.Scheme u /\ url.Opaque v = url.Opaque u
  /\ url.RawQuery v = url.RawQuery u /\ url.ForceQuery v = url.ForceQuery u.

(** A host without a byte from 0x80 on. *)
Definition asciiHost (h : list ascii) : bool :=
  forallb (fun c => (N_of_ascii c <? 128)%N) h.

(** A byte [escape] leaves alone in a host, the percent sign, or the
    space: what a decoded zone identifier holds below 0x80. *)
Definition zoneByte (c : ascii) : bool :=
  negb (url.shouldEscape c url.encodeHost) || (Strings.byte_eqb c "%" || Strings.byte_eqb c " ").

Definition ctlByte (b : ascii) : bool :=
  (N_of_ascii b <? 32)%N || (N_of_ascii b =? 127)%N.

(** What else every URL returned by [Parse] satisfies: no control byte in
    the parts copied from the input, and a host that [parseHost] returned. *)
Definition parsedClean (u : url.URL) : Prop :=
  url.stringContainsCTLByte (url.Opaque u) = false
  /\ url.stringContainsCTLByte (url.RawQuery u) = false
  /\ exists raw, url.parseHost raw = url.Ok (url.Host u).

(** The example of the specification and what [url.Parse] makes of it. *)
Definition c2_url : list ascii := "https://media.example/foo/range/0-1023?id=5".

Definition c2_parsed : url.URL :=
  url.mkURL "https" [] None "media.example" "/foo/range/0-1023" [] false false "id=5" [] [].

(** *** Notions of the further properties *)

(** The URLs of the classifier's kind among the responses received, in
    the order of their arrival. *)
Definition audioURLs (events : list narr.RecvResult) : list (list ascii) :=
  flat_map (fun ev =>
              match ev with
              | narr.RecvURL u => if narr.isAudioURL u then [u] else []
              | narr.RecvFails => []
              end) events.

Definition parses (u : list ascii) : bool :=
  match url.Parse u with
  | url.Ok _ => true
  | url.Err _ => false
  end.

(** Every [Recv] yields a response, and every URL of the classifier's
    kind is one [url.Parse] accepts. *)
Definition allParse (events : list narr.RecvResult) : bool :=
  forallb (fun ev =>
             match ev with
             | narr.RecvURL u => negb (narr.isAudioURL u) || parses u
             | narr.RecvFails => false
             end) events.

(** Every [Recv] yields a response. *)
Definition allReceived (events : list narr.RecvResult) : bool :=
  forallb (fun ev =>
             match ev with
             | narr.RecvURL _ => true
             | narr.RecvFails => false
             end) events.

(** What [toDownloadableURL] returns for a URL that parses. *)
Definition transformed (u : list ascii) : list ascii :=
  match url.Parse u with
  | url.Ok p => url.String (url.setPathField p [])
  | url.Err _ => []
  end.

(** Source and target of the goroutines started so far. *)
Definition started (w : narr.World) : list (list ascii * list ascii) :=
  map (fun g =>
         match g with
         | narr.GoSubmit s t _ => (s, t)
         | narr.GoSubmitNew s t => (s, t)
         end) (narr.goroutines w).

(** The disk takes no new file. *)
Definition envNoDisk : narr.Env :=
  narr.mkEnv (fun _ => narr.Response 200 (narr.mkBody "audio" false)) (fun _ => true)
             (fun _ => None) (fun _ => 7%Z) (fun _ => liveDebugger) (fun _ => false).

(** The disk takes three bytes of each file. *)
Definition envSmallDisk : narr.Env :=
  narr.mkEnv (fun _ => narr.Response 200 (narr.mkBody "audio" false)) (fun _ => false)
             (fun _ => Some 3%nat) (fun _ => 7%Z) (fun _ => liveDebugger) (fun _ => false).

(** A state in which an earlier run left a file at DL-7. *)
Definition worldWithFile : narr.World :=
  narr.setFiles narr.emptyWorld {[ ("DL-7" : list ascii) := ("earlier" : list ascii) ]}.

(** The text [retryFunc] puts before the error of a failed attempt. *)
Definition connectHint : string :=
  "can't connect to http://127.0.0.1:9222. Chrome must be started in debug mode.".

(** What attempt number [i] of the connect sequence makes [retryFunc]
    log: its error, wrapped, when it fails. *)
Definition attemptLog (E : narr.Env) (i : nat) : list narr.logEntry :=
  match (narr.connectSequence (narr.debuggerAt E i)).2 with
  | Some e => [narr.LogError (narr.ErrWrap connectHint e)]
  | None => []
  end.

(** The debugger never answers. *)
Definition envNoChrome : narr.Env :=
  narr.mkEnv (fun _ => narr.GetFails) (fun _ => false) (fun _ => None) (fun _ => 0%Z)
             (fun _ => deadDebugger) (fun _ => false).

(** A URL with user information, a port, an escaped slash in its path
    and a fragment, and what [url.Parse] makes of it. *)
Definition fullURL : list ascii :=
  "HTTPS://user:pw@Media.Example:8443/a%2Fb/range/0-1023?id=5#t=1 2".

Definition fullParsed : url.URL :=
  url.mkURL "https" [] (Some (url.mkUserinfo "user" "pw" true)) "Media.Example:8443"
            "/a/b/range/0-1023" "/a%2Fb/range/0-1023" false false "id=5" "t=1 2" "t=1 2".

(** The bytes of the part of a URL before its query, and those of the
    query: no control byte, no hash, and before the query no question
    mark. *)
Definition hierByte (c : ascii) : bool :=
  negb (ctlByte c) && negb (Strings.byte_eqb c "?") && negb (Strings.byte_eqb c "#").

Definition queryByte (c : ascii) : bool :=
  negb (ctlByte c) && negb (Strings.byte_eqb c "#").

(** The query as it stands in a URL: nothing, or a question mark and the
    query. *)
Definition queryPart (q : list ascii) : list ascii :=
  if url.isEmpty q then [] else "?" ++ q.

(** A URL of a scheme and a rest that does not start with a slash. *)
Definition rootlessURL (sc rest q : list ascii) : list ascii :=
  sc ++ ":" ++ rest ++ queryPart q.

(** A URL of a scheme, a host and a path. *)
Definition hierURL (sc host path q : list ascii) : list ascii :=
  sc ++ "://" ++ host ++ path ++ queryPart q.

(** The bytes of a decimal numeral with its sign. *)
Definition decimalByte (c : ascii) : bool :=
  (48 <=? N_of_ascii c)%N && (N_of_ascii c <=? 57)%N.

Definition numeralByte (c : ascii) : bool :=
  decimalByte c || Strings.byte_eqb c "-".




(** The error that belongs to a failure of the transfer: that of
    [os.Create], else that of [http.Get], else that of [io.Copy], which
    is the error of the write when the disk takes less than the body
    delivers and the error of the read otherwise. *)
Definition failureReported (E : narr.Env) (fromUrl toPath : list ascii) (e : narr.error)
  : Prop :=
  (narr.createFails E toPath = true -> e = narr.ErrCreate toPath)
  /\ (narr.createFails E toPath = false -> narr.httpGet E fromUrl = narr.GetFails ->
      e = narr.ErrGet fromUrl)
  /\ (narr.createFails E toPath = false ->
      forall status body, narr.httpGet E fromUrl = narr.Response status body ->
        ((exists k, narr.writeLimit E toPath = Some k /\ (k < length (narr.delivered body))%nat) ->
         e = narr.ErrWrite)
        /\ ((forall k, narr.writeLimit E toPath = Some k ->
               (length (narr.delivered body) <= k)%nat) ->
            e = narr.ErrRead)).

(** A schedule in which no goroutine runs: later calls of
    [enqueueDownload] and workers only. *)
Definition noGoroutineRuns (evs : list narr.event) : bool :=
  forallb (fun ev =>
             match ev with
             | narr.RunGoroutine _ => false
             | _ => true
             end) evs.



(* ------------------------------------------------------------------ *)
(** * Properties *)

(** ** Package strings *)

Import Strings narr.

Lemma byte_eqb_eq (a b : ascii) : byte_eqb a b = true <-> a = b.
Proof. apply Ascii.eqb_eq. Qed.

Lemma byte_eqb_refl (a : ascii) : byte_eqb a a = true.
Proof. apply Ascii.eqb_refl. Qed.

Lemma byte_eqb_neq (a b : ascii) : byte_eqb a b = false <-> a <> b.
Proof. apply Ascii.eqb_neq. Qed.

Lemma HasPrefix_spec (s p : list ascii) :
  HasPrefix s p = true <-> exists post, s = p ++ post.
Proof.
  revert s. induction p as [|c p IH]; intros s; simpl.
  - destruct s; split; eauto.
  - destruct s as [|d s]; simpl.
    + split; [discriminate | intros [post H]; discriminate].
    + rewrite andb_true_iff, byte_eqb_eq, IH. split.
      * intros [-> [post ->]]. eauto.
      * intros [post H]. injection H as -> ->. eauto.
Qed.

Lemma Index_unfold (s sub : list ascii) :
  Index s sub =
  if HasPrefix s sub then Some 0%nat
  else match s with [] => None | _ :: s' => S <$> Index s' sub end.
Proof. destruct s; reflexivity. Qed.

Lemma Index_Some (s sub : list ascii) (i : nat) :
  Index s sub = Some i -> exists post, s = take i s ++ sub ++ post.
Proof.
  revert i. induction s as [|c s IH]; intros i; rewrite Index_unfold;
    match goal with |- context [HasPrefix ?x sub] => destruct (HasPrefix x sub) eqn:Hp end;
    try discriminate.
  - intros [= <-]. apply HasPrefix_spec in Hp. exact Hp.
  - intros [= <-]. apply HasPrefix_spec in Hp. exact Hp.
  - destruct (Index s sub) as [j|] eqn:Hj; simpl; [|discriminate].
    intros [= <-]. destruct (IH j eq_refl) as [post Hpost].
    exists post. simpl. f_equal. exact Hpost.
Qed.

Lemma Index_None (s sub pre post : list ascii) :
  Index s sub = None -> s <> pre ++ sub ++ post.
Proof.
  revert pre. induction s as [|c s IH]; intros pre; rewrite Index_unfold;
    match goal with |- context [HasPrefix ?x sub] => destruct (HasPrefix x sub) eqn:Hp end;
    try discriminate.
  - intros _ H. destruct pre; [|discriminate]. simpl in H.
    assert (HasPrefix [] sub = true) by (apply HasPrefix_spec; eauto). congruence.
  - destruct (Index s sub) eqn:Hi; [discriminate|]. intros _ H.
    destruct pre as [|d pre]; simpl in H.
    + assert (HasPrefix (c :: s) sub = true) by (apply HasPrefix_spec; eauto). congruence.
    + injection H as -> H. exact (IH pre eq_refl H).
Qed.

Lemma Contains_spec (s sub : list ascii) :
  Contains s sub = true <-> exists pre post, s = pre ++ sub ++ post.
Proof.
  unfold Contains. destruct (Index s sub) as [i|] eqn:Hi.
  - split; [intros _|reflexivity]. destruct (Index_Some _ _ _ Hi) as [post H]. eauto.
  - split; [discriminate|]. intros (pre & post & H). exfalso. exact (Index_None _ _ _ _ Hi H).
Qed.


(** C1 (as amended): the classifier accepts a URL exactly when the whole URL
    string, not only its path, contains the bytes /range/0-; the earlier
    variant has the same classifier. *)
Theorem C1_isAudioURL_whole_string (u : list ascii) :
  (isAudioURL u = true <-> exists pre post, u = pre ++ "/range/0-" ++ post)
  /\ narr0.isAudioURL u = isAudioURL u.
Proof. split; [apply Contains_spec | reflexivity]. Qed.

(** C1 as stated fails: a URL carrying the marker only in its query string
    is accepted although its path does not contain it. *)
Lemma C1_counterexample :
  isAudioURL c1_url = true
  /\ (exists p, url.Parse c1_url = url.Ok p
        /\ url.Path p = "/video/manifest.mpd"
        /\ Contains (url.Path p) "/range/0-" = false)
  /\ ~ (forall u, isAudioURL u = true <-> isSegmentURL_spec u = true).
Proof.
  assert (H1 : isAudioURL c1_url = true) by (vm_compute; reflexivity).
  assert (H2 : isSegmentURL_spec c1_url = false) by (vm_compute; reflexivity).
  split; [exact H1|]. split.
  - eexists. split; [vm_compute; reflexivity|]. split; vm_compute; reflexivity.
  - intros H. apply H in H1. congruence.
Qed.

(** ** Package strconv *)

Lemma digitValue_digit (d : Z) : (0 <= d < 10)%Z -> digitValue (strconv.digit d) = d.
Proof.
  intros H. unfold digitValue, strconv.digit.
  rewrite N_ascii_embedding by lia. lia.
Qed.

Lemma digit_not_minus (d : Z) : (0 <= d < 10)%Z -> byte_eqb (strconv.digit d) "-" = false.
Proof.
  intros H. apply byte_eqb_neq. intros Heq.
  apply (f_equal digitValue) in Heq. rewrite digitValue_digit in Heq by exact H.
  vm_compute in Heq. lia.
Qed.

Lemma readDecimal_snoc (ds : list ascii) (c : ascii) :
  readDecimal (ds ++ [c]) = (10 * readDecimal ds + digitValue c)%Z.
Proof. unfold readDecimal. rewrite fold_left_app. reflexivity. Qed.

Lemma formatBits_S (fuel : nat) (u : Z) (a : list ascii) :
  strconv.formatBits (S fuel) u a =
  if (u <? 10)%Z then strconv.digit u :: a
  else strconv.formatBits fuel (u / 10) (strconv.digit (u mod 10) :: a).
Proof. reflexivity. Qed.

(** The digit loop writes a numeral that reads back as [u] and starts with
    a digit. *)
Lemma formatBits_read (fuel : nat) :
  forall (u : Z) (a : list ascii), (0 <= u < 2 ^ Z.of_nat (S fuel))%Z ->
  exists ds, strconv.formatBits (S fuel) u a = ds ++ a
    /\ readDecimal ds = u
    /\ exists d r, ds = strconv.digit d :: r /\ (0 <= d < 10)%Z.
Proof.
  induction fuel as [|fuel IH]; intros u a Hu.
  - assert (Hlt : (u <? 10)%Z = true)
      by (apply Z.ltb_lt; change (2 ^ Z.of_nat 1)%Z with 2%Z in Hu; lia).
    rewrite formatBits_S, Hlt. exists [strconv.digit u]. split; [reflexivity|]. split.
    + unfold readDecimal. simpl. rewrite digitValue_digit; lia.
    + exists u, []. split; [reflexivity|]. apply Z.ltb_lt in Hlt. lia.
  - rewrite formatBits_S. destruct (u <? 10)%Z eqn:Hlt.
    + apply Z.ltb_lt in Hlt. exists [strconv.digit u]. split; [reflexivity|]. split.
      * unfold readDecimal. simpl. rewrite digitValue_digit; lia.
      * exists u, []. split; [reflexivity|]. lia.
    + apply Z.ltb_ge in Hlt.
      assert (Hq : (0 <= u / 10 < 2 ^ Z.of_nat (S fuel))%Z).
      { split; [apply Z.div_pos; lia|].
        apply Z.div_lt_upper_bound; [lia|].
        replace (Z.of_nat (S (S fuel))) with (Z.succ (Z.of_nat (S fuel))) in Hu by lia.
        rewrite Z.pow_succ_r in Hu by lia. lia. }
      destruct (IH (u / 10)%Z (strconv.digit (u mod 10) :: a) Hq)
        as (ds & Heq & Hread & d & r & Hds & Hd).
      exists (ds ++ [strconv.digit (u mod 10)]). split; [|split].
      * rewrite Heq, <- app_assoc. reflexivity.
      * rewrite readDecimal_snoc, Hread, digitValue_digit.
        -- pose proof (Z.div_mod u 10). lia.
        -- apply Z.mod_pos_bound. lia.
      * exists d, (r ++ [strconv.digit (u mod 10)]). rewrite Hds. split; [reflexivity|exact Hd].
Qed.

Lemma FormatUint_read (u : Z) :
  (0 <= u)%Z ->
  exists d r, strconv.FormatUint u = strconv.digit d :: r /\ (0 <= d < 10)%Z
    /\ readDecimal (strconv.FormatUint u) = u.
Proof.
  intros Hu. unfold strconv.FormatUint.
  assert (Hb : (0 <= u < 2 ^ Z.of_nat (S (Z.to_nat (Z.log2 u))))%Z).
  { split; [exact Hu|].
    replace (Z.of_nat (S (Z.to_nat (Z.log2 u)))) with (Z.succ (Z.log2 u))
      by (pose proof (Z.log2_nonneg u); lia).
    destruct (Z.eq_dec u 0%Z) as [->|Hne]; [reflexivity|].
    apply Z.log2_spec. lia. }
  destruct (formatBits_read _ u [] Hb) as (ds & Heq & Hread & d & r & Hds & Hd).
  rewrite app_nil_r in Heq. rewrite Heq. exists d, r. subst ds. auto.
Qed.

Lemma parseInt_Itoa (i : Z) : parseInt (strconv.Itoa i) = i.
Proof.
  unfold strconv.Itoa. destruct (i <? 0)%Z eqn:Hneg.
  - apply Z.ltb_lt in Hneg.
    destruct (FormatUint_read (- i)%Z ltac:(lia)) as (d & r & Heq & Hd & Hread).
    change (parseInt ("-"%char :: strconv.FormatUint (- i)) = i).
    unfold parseInt. rewrite byte_eqb_refl, Hread. lia.
  - apply Z.ltb_ge in Hneg.
    destruct (FormatUint_read i Hneg) as (d & r & Heq & Hd & Hread).
    unfold parseInt. rewrite Heq, digit_not_minus by exact Hd. rewrite <- Heq. exact Hread.
Qed.

Lemma Itoa_inj (a b : Z) : strconv.Itoa a = strconv.Itoa b -> a = b.
Proof.
  intros H. rewrite <- (parseInt_Itoa a), <- (parseInt_Itoa b), H. reflexivity.
Qed.

Lemma targetPath_inj (a b : Z) : targetPath a = targetPath b -> a = b.
Proof.
  unfold targetPath. intros H. apply app_inv_head in H. exact (Itoa_inj _ _ H).
Qed.

(** ** The program: single steps *)

Lemma bind_Ret {A B} (m : M A) (k : A -> M B) (w w' : World) (a : A) :
  m w = (Ret a, w') -> bind m k w = k a w'.
Proof. unfold bind. intros ->. reflexivity. Qed.

Lemma bind_Exit {A B} (m : M A) (k : A -> M B) (w w' : World) (c : Z) :
  m w = (Exit c, w') -> bind m k w = (Exit c, w').
Proof. unfold bind. intros ->. reflexivity. Qed.

Lemma lookup_snoc2_fst (l : list (list ascii)) (a b : list ascii) :
  (l ++ [a; b]) !! length l = Some a.
Proof. rewrite lookup_app_r by lia. rewrite Nat.sub_diag. reflexivity. Qed.

Lemma lookup_snoc2_snd (l : list (list ascii)) (a b : list ascii) :
  (l ++ [a; b]) !! S (length l) = Some b.
Proof.
  rewrite lookup_app_r by lia.
  replace (S (length l) - length l)%nat with 1%nat by lia. reflexivity.
Qed.

Lemma enqueueDownload_eq (fromURL toPath : list ascii) (w : World) :
  enqueueDownload fromURL toPath w = (Ret None, afterEnqueue fromURL toPath w).
Proof.
  unfold enqueueDownload, afterEnqueue, bind, newVar, readVar, modify, ret, setVars, setGoroutines.
  cbn [vars goroutines files logs requests queued submissions randCalls attempts slept chrome].
  rewrite length_app. cbn [length].
  rewrite <- app_assoc. cbn [app].
  replace (length (vars w) + 1)%nat with (S (length (vars w))) by lia.
  rewrite lookup_snoc2_fst, lookup_snoc2_snd. reflexivity.
Qed.

Lemma toDownloadableURL_Err (s : list ascii) (e : url.Error) (w : World) :
  url.Parse s = url.Err e ->
  toDownloadableURL s w = (Exit 1, setLogs w (logs w ++ [LogError (ErrURL e)])).
Proof. unfold toDownloadableURL. intros ->. reflexivity. Qed.

Lemma toDownloadableURL_Ok (s : list ascii) (u : url.URL) (w : World) :
  url.Parse s = url.Ok u ->
  toDownloadableURL s w = (Ret (url.String (url.setPathField u [])), w).
Proof. unfold toDownloadableURL. intros ->. reflexivity. Qed.

(** ** Names of the output files *)

Lemma drawn_step (E : Env) (w w1 w' : World) :
  randCalls w1 = S (randCalls w) -> (randCalls w1 <= randCalls w')%nat ->
  drawn E w w' = randInt E (randCalls w) :: drawn E w1 w'.
Proof.
  intros H1 Hle. unfold drawn. rewrite H1.
  replace (randCalls w' - randCalls w)%nat with (S (randCalls w' - S (randCalls w))) by lia.
  reflexivity.
Qed.

Lemma drawn_same (E : Env) (w w' : World) :
  randCalls w' = randCalls w -> drawn E w w' = [].
Proof. intros H. unfold drawn. rewrite H, Nat.sub_diag. reflexivity. Qed.

(** One turn of the loop of main.go on a URL of the classifier's kind
    that parses. *)
Lemma responseLoop_step (E : Env) (u : list ascii) (events : list RecvResult)
      (p : url.URL) (w : World) :
  isAudioURL u = true -> url.Parse u = url.Ok p ->
  responseLoop E (RecvURL u :: events) w
  = responseLoop E events
      (afterEnqueue (url.String (url.setPathField p []))
                    (targetPath (randInt E (randCalls w)))
                    (setRandCalls w (S (randCalls w)))).
Proof.
  intros Ha Hp. cbn [responseLoop]. rewrite Ha. cbn [negb].
  rewrite (bind_Ret _ _ _ _ _ (toDownloadableURL_Ok _ _ w Hp)).
  rewrite (bind_Ret (randIntCall E) _ w (setRandCalls w (S (randCalls w)))
             (randInt E (randCalls w)) eq_refl).
  rewrite (bind_Ret _ _ _ _ _ (enqueueDownload_eq _ _ _)).
  reflexivity.
Qed.

Lemma responseLoop_fatal (E : Env) (u : list ascii) (events : list RecvResult)
      (e : url.Error) (w : World) :
  isAudioURL u = true -> url.Parse u = url.Err e ->
  responseLoop E (RecvURL u :: events) w
  = (Exit 1, setLogs w (logs w ++ [LogError (ErrURL e)])).
Proof.
  intros Ha Hp. cbn [responseLoop]. rewrite Ha. cbn [negb].
  rewrite (bind_Exit _ _ _ _ _ (toDownloadableURL_Err _ _ w Hp)). reflexivity.
Qed.

Lemma responseLoop_skip (E : Env) (u : list ascii) (events : list RecvResult) (w : World) :
  isAudioURL u = false ->
  responseLoop E (RecvURL u :: events) w = responseLoop E events w.
Proof. intros Ha. cbn [responseLoop]. rewrite Ha. reflexivity. Qed.

(** The loop of main.go names its jobs after the successive values of
    [rand.Int]. *)
Lemma responseLoop_targets (E : Env) (events : list RecvResult) :
  forall w : World,
    (randCalls w <= randCalls (responseLoop E events w).2)%nat
    /\ targetPaths (responseLoop E events w).2
       = targetPaths w ++ map targetPath (drawn E w (responseLoop E events w).2).
Proof.
  induction events as [|[u|] events IH]; intros w.
  - simpl. split; [lia|]. rewrite drawn_same by reflexivity. simpl. rewrite app_nil_r. reflexivity.
  - destruct (isAudioURL u) eqn:Ha; [|rewrite responseLoop_skip by exact Ha; apply IH].
    destruct (url.Parse u) as [p|e] eqn:Hp.
    + rewrite (responseLoop_step E u events p w Ha Hp).
      set (w2 := afterEnqueue _ _ _).
      destruct (IH w2) as [Hle Heq].
      assert (Hrc : randCalls w2 = S (randCalls w)) by reflexivity.
      split; [lia|]. rewrite Heq.
      rewrite (drawn_step E w w2) by (auto; lia).
      unfold w2 at 1, afterEnqueue, targetPaths.
      cbn [goroutines setGoroutines setVars]. rewrite map_app. cbn [map].
      rewrite <- app_assoc. reflexivity.
    + rewrite (responseLoop_fatal E u events e w Ha Hp).
      cbn [snd]. split; [simpl; lia|]. rewrite drawn_same by reflexivity.
      simpl. rewrite app_nil_r. reflexivity.
  - simpl. split; [lia|]. rewrite drawn_same by reflexivity. simpl. rewrite app_nil_r. reflexivity.
Qed.

Lemma responseLoop0_step (E : Env) (u : list ascii) (events : list RecvResult) (w : World) :
  narr0.isAudioURL u = true ->
  narr0.responseLoop E (RecvURL u :: events) w
  = narr0.responseLoop E events
      (setGoroutines (setRandCalls w (S (randCalls w)))
         (goroutines w ++ [GoSubmitNew u (targetPath (randInt E (randCalls w)))])).
Proof.
  intros Ha. cbn [narr0.responseLoop]. rewrite Ha. cbn [negb].
  rewrite (bind_Ret (randIntCall E) _ w (setRandCalls w (S (randCalls w)))
             (randInt E (randCalls w)) eq_refl).
  reflexivity.
Qed.

(** So does the loop of the earlier variant. *)
Lemma responseLoop0_targets (E : Env) (events : list RecvResult) :
  forall w : World,
    (randCalls w <= randCalls (narr0.responseLoop E events w).2)%nat
    /\ targetPaths (narr0.responseLoop E events w).2
       = targetPaths w ++ map targetPath (drawn E w (narr0.responseLoop E events w).2).
Proof.
  induction events as [|[u|] events IH]; intros w.
  - simpl. split; [lia|]. rewrite drawn_same by reflexivity. simpl. rewrite app_nil_r. reflexivity.
  - destruct (narr0.isAudioURL u) eqn:Ha.
    + rewrite (responseLoop0_step E u events w Ha).
      set (w2 := setGoroutines _ _).
      destruct (IH w2) as [Hle Heq].
      assert (Hrc : randCalls w2 = S (randCalls w)) by reflexivity.
      split; [lia|]. rewrite Heq.
      rewrite (drawn_step E w w2) by (auto; lia).
      unfold w2 at 1, targetPaths.
      cbn [goroutines setGoroutines setRandCalls]. rewrite map_app. cbn [map].
      rewrite <- app_assoc. reflexivity.
    + cbn [narr0.responseLoop]. rewrite Ha. apply IH.
  - simpl. split; [lia|]. rewrite drawn_same by reflexivity. simpl. rewrite app_nil_r. reflexivity.
Qed.

Lemma NoDup_targetPath (ids : list Z) : NoDup (map targetPath ids) <-> NoDup ids.
Proof.
  split.
  - apply NoDup_fmap_1.
  - apply NoDup_fmap_2. intros a b. apply targetPath_inj.
Qed.

(** C4 (as amended): the target paths of the jobs of a run are DL- followed
    by the decimal numerals of the successive values of rand.Int, in both
    variants of the loop; two of them differ exactly when the two values
    differ, so the paths of a run are pairwise distinct exactly when the
    values drawn are. *)
Theorem C4_targetPath_distinct_iff_ids_distinct :
  (forall a b : Z, targetPath a = targetPath b <-> a = b)
  /\ (forall (E : Env) (events : list RecvResult) (w : World),
        targetPaths (responseLoop E events w).2
        = targetPaths w ++ map targetPath (drawn E w (responseLoop E events w).2))
  /\ (forall (E : Env) (events : list RecvResult) (w : World),
        targetPaths (narr0.responseLoop E events w).2
        = targetPaths w ++ map targetPath (drawn E w (narr0.responseLoop E events w).2))
  /\ (forall ids : list Z, NoDup (map targetPath ids) <-> NoDup ids).
Proof.
  split; [|split; [|split]].
  - intros a b. split; [apply targetPath_inj | intros ->; reflexivity].
  - intros E events w. apply responseLoop_targets.
  - intros E events w. apply responseLoop0_targets.
  - apply NoDup_targetPath.
Qed.

(** C4 as stated fails: when rand.Int yields 7 twice, two jobs of one run
    get the same target path. *)
Lemma C4_counterexample :
  targetPaths (responseLoop envRepeat twoSegments emptyWorld).2 = ["DL-7" : list ascii; "DL-7" : list ascii]
  /\ ~ (forall (E : Env) (events : list RecvResult),
          NoDup (targetPaths (responseLoop E events emptyWorld).2)).
Proof.
  assert (H : targetPaths (responseLoop envRepeat twoSegments emptyWorld).2
              = ["DL-7" : list ascii; "DL-7" : list ascii]) by (vm_compute; reflexivity).
  split; [exact H|].
  intros Hall. specialize (Hall envRepeat twoSegments). rewrite H in Hall.
  apply NoDup_cons_1_1 in Hall. apply Hall. left.
Qed.

(** ** The downloader *)

Ltac run_download :=
  unfold download, narr0.downloadAudio, logPrintln, fmtPrintln, logFatal, logPrint,
    osCreate, httpGetCall, ioCopy, fileWrite;
  unfold bind, modify, ret, exit; cbv beta iota.

Ltac world_fields :=
  cbn [files logs requests vars goroutines queued submissions randCalls attempts slept chrome
       setFiles setLogs setRequests fst snd].

Section Downloader.
Variable E : Env.
Variables fromUrl toPath : list ascii.

Lemma download_returns (w : World) :
  exists r w', download E fromUrl toPath w = (Ret r, w') /\ downloadFrame fromUrl toPath w w'.
Proof.
  unfold downloadFrame. run_download.
  destruct (createFails E toPath); cbv beta iota.
  { do 2 eexists. split; [reflexivity|]. world_fields. tauto. }
  destruct (httpGet E fromUrl) as [|st body]; cbv beta iota.
  { do 2 eexists. split; [reflexivity|]. world_fields.
    split; [intros p Hp; apply lookup_insert_ne; congruence|]. tauto. }
  destruct (writeLimit E toPath) as [k|]; [destruct (k <? length (delivered body))%nat|];
    try destruct (broken body); cbv beta iota;
    do 2 eexists; (split; [reflexivity|]); world_fields;
    (split; [intros p Hp; rewrite !lookup_insert_ne by congruence; reflexivity|]); tauto.
Qed.

(** A transfer that goes through, whatever the status of the response. *)
Lemma download_success (w : World)
      (status : Z) (payload : list ascii) :
  createFails E toPath = false ->
  httpGet E fromUrl = Response status (mkBody payload false) ->
  (forall k, writeLimit E toPath = Some k -> (length payload <= k)%nat) ->
  exists w', download E fromUrl toPath w = (Ret None, w')
    /\ files w' !! toPath = Some payload
    /\ logs w' = logs w ++ [LogLine ("Downloading " ++ fromUrl);
                            LogLine ("Done, got " ++ strconv.Itoa (Z.of_nat (length payload))
                                     ++ " bytes")].
Proof.
  intros Hc Hg Hl. run_download. rewrite Hc, Hg. cbv beta iota.
  cbn [delivered broken].
  assert (Hfile : forall m : gmap (list ascii) (list ascii),
            <[toPath := default [] (<[toPath := []]> m !! toPath) ++ payload]>
              (<[toPath := []]> m) !! toPath = Some payload).
  { intros m. rewrite !lookup_insert_eq. reflexivity. }
  destruct (writeLimit E toPath) as [k|] eqn:Hk.
  - specialize (Hl k eq_refl).
    assert (Hlt : (k <? length payload)%nat = false) by (apply Nat.ltb_ge; lia).
    rewrite Hlt. cbv beta iota. eexists. split; [reflexivity|]. world_fields.
    split; [apply Hfile|]. rewrite <- app_assoc. reflexivity.
  - cbv beta iota. eexists. split; [reflexivity|]. world_fields.
    split; [apply Hfile|]. rewrite <- app_assoc. reflexivity.
Qed.

End Downloader.

(** C8: when the file can be created, the request is answered with a
    payload of B bytes, the stream ends properly and the disk takes the B
    bytes, download leaves exactly the payload in the file at toPath,
    returns no error and logs the count B ("Done, got B bytes"). *)
Theorem C8_download_roundtrip (E : Env) (fromUrl toPath : list ascii) (w : World)
        (status : Z) (payload : list ascii) :
  createFails E toPath = false ->
  httpGet E fromUrl = Response status (mkBody payload false) ->
  (forall k, writeLimit E toPath = Some k -> (length payload <= k)%nat) ->
  exists w', download E fromUrl toPath w = (Ret None, w')
    /\ files w' !! toPath = Some payload
    /\ length <$> (files w' !! toPath) = Some (length payload)
    /\ logs w' = logs w ++ [LogLine ("Downloading " ++ fromUrl);
                            LogLine ("Done, got " ++ strconv.Itoa (Z.of_nat (length payload))
                                     ++ " bytes")].
Proof.
  intros Hc Hg Hl.
  destruct (download_success E fromUrl toPath w status payload Hc Hg Hl) as (w' & Hd & Hf & Hlog).
  exists w'. rewrite Hf. auto.
Qed.

Lemma C8_download_roundtrip_witness :
  exists w', download envRepeat "https://media.example?id=5" "DL-7" emptyWorld = (Ret None, w')
    /\ files w' !! ("DL-7" : list ascii) = Some ("audio" : list ascii)
    /\ length <$> (files w' !! ("DL-7" : list ascii)) = Some 5%nat
    /\ logs w' = [LogLine "Downloading https://media.example?id=5"; LogLine "Done, got 5 bytes"].
Proof.
  apply (C8_download_roundtrip envRepeat "https://media.example?id=5" "DL-7" emptyWorld
           200 "audio").
  - reflexivity.
  - reflexivity.
  - intros k Hk. discriminate Hk.
Defined.

(** The same failures inside the earlier variant end the process. *)
Lemma downloadAudio_fails (E : Env) (fromUrl toPath : list ascii) (w : World) (u : url.URL) :
  url.Parse fromUrl = url.Ok u ->
  transferFails E (url.String (url.setPathField u [])) toPath ->
  exists w', narr0.downloadAudio E fromUrl toPath w = (Exit 1, w').
Proof.
  intros Hp Hf. run_download. rewrite Hp. cbv beta iota.
  destruct (createFails E toPath) eqn:Hc; cbv beta iota.
  { eexists. reflexivity. }
  destruct (httpGet E (url.String (url.setPathField u []))) as [|status body] eqn:Hg;
    cbv beta iota.
  { eexists. reflexivity. }
  destruct Hf as [Hf|[Hf|(st & b & Hr & Hf)]]; try congruence.
  rewrite Hg in Hr. injection Hr as <- <-.
  destruct (writeLimit E toPath) as [k|] eqn:Hk.
  - destruct (k <? length (delivered body))%nat eqn:Hlt; cbv beta iota.
    + eexists. reflexivity.
    + destruct Hf as [Hb|(k' & Hk' & Hlt')].
      * rewrite Hb. eexists. reflexivity.
      * assert (k' = k) by congruence. subst k'. apply Nat.ltb_ge in Hlt. lia.
  - destruct Hf as [Hb|(k' & Hk' & Hlt')]; [|congruence].
    rewrite Hb. cbv beta iota. eexists. reflexivity.
Qed.

(** ** Goroutines and workers *)

Section Workers.
Variable E : Env.

Lemma runTask_eq (task : Task) (w : World) :
  runTask E task w
  = download E (default [] (vars w !! capFromURL task))
               (default [] (vars w !! capToPath task)) w.
Proof. reflexivity. Qed.

Lemma work_returns (task : Task) (w : World) :
  exists w', work E task w = (Ret tt, w') /\ vars w' = vars w.
Proof.
  unfold work.
  destruct (download_returns E (default [] (vars w !! capFromURL task))
              (default [] (vars w !! capToPath task)) w) as (r & w' & Hd & Hfr).
  rewrite <- runTask_eq in Hd. rewrite (bind_Ret _ _ _ _ _ Hd).
  destruct Hfr as (_ & _ & Hv & _).
  destruct r as [e|]; eexists; (split; [reflexivity|]); exact Hv.
Qed.

Lemma submitTask_returns (task : Task) (w : World) :
  exists w', submitTask E task w = (Ret tt, w') /\ vars w' = vars w.
Proof.
  unfold submitTask, bind, QueueTask, ret.
  destruct (queueTaskFails E (submissions w)); eexists; (split; [reflexivity|]); reflexivity.
Qed.

Lemma perform_returns (ev : event) (w : World) :
  exists w', perform E ev w = (Ret tt, w') /\ exists ext, vars w' = vars w ++ ext.
Proof.
  destruct ev as [fromURL toPath|i|i]; cbn [perform].
  - rewrite (bind_Ret _ _ _ _ _ (enqueueDownload_eq fromURL toPath w)).
    eexists. split; [reflexivity|]. eexists. reflexivity.
  - destruct (goroutines w !! i) as [[s t task|src tgt]|].
    + destruct (submitTask_returns task (setGoroutines w (delete i (goroutines w))))
        as (w' & Hs & Hv).
      exists w'. split; [exact Hs|]. exists []. rewrite Hv, app_nil_r. reflexivity.
    + exists w. split; [reflexivity|]. exists []. rewrite app_nil_r. reflexivity.
    + exists w. split; [reflexivity|]. exists []. rewrite app_nil_r. reflexivity.
  - destruct (queued w !! i) as [task|].
    + destruct (work_returns task (setQueued w (delete i (queued w)))) as (w' & Hs & Hv).
      exists w'. split; [exact Hs|]. exists []. rewrite Hv, app_nil_r. reflexivity.
    + exists w. split; [reflexivity|]. exists []. rewrite app_nil_r. reflexivity.
Qed.

(** No schedule of goroutines and workers ends the process of main.go,
    and the variables of earlier calls keep their values. *)
Lemma schedule_returns (evs : list event) :
  forall w, exists w', schedule E evs w = (Ret tt, w') /\ exists ext, vars w' = vars w ++ ext.
Proof.
  induction evs as [|ev evs IH]; intros w.
  - exists w. split; [reflexivity|]. exists []. rewrite app_nil_r. reflexivity.
  - cbn [schedule]. destruct (perform_returns ev w) as (w1 & Hp & ext1 & Hv1).
    rewrite (bind_Ret _ _ _ _ _ Hp).
    destruct (IH w1) as (w' & Hs & ext & Hv).
    exists w'. split; [exact Hs|]. exists (ext1 ++ ext). rewrite Hv, Hv1, app_assoc. reflexivity.
Qed.

End Workers.

(** Which error a failed transfer returns, and what download logs. *)
Lemma download_failure (E : Env) (fromUrl toPath : list ascii) (w : World) :
  transferFails E fromUrl toPath ->
  exists e w', download E fromUrl toPath w = (Ret (Some e), w')
    /\ failureReported E fromUrl toPath e
    /\ logs w' = logs w ++ [LogLine ("Downloading " ++ fromUrl)].
Proof.
  intros Hf. unfold failureReported. run_download.
  destruct (createFails E toPath) eqn:Hc; cbv beta iota.
  { do 2 eexists. split; [reflexivity|]. world_fields.
    split; [|reflexivity]. repeat split; intros; congruence. }
  destruct (httpGet E fromUrl) as [|st body] eqn:Hg; cbv beta iota.
  { do 2 eexists. split; [reflexivity|]. world_fields.
    split; [|reflexivity]. repeat split; intros; congruence. }
  destruct Hf as [Hf|[Hf|(st' & b' & Hr & Hf)]]; try congruence.
  rewrite Hg in Hr. injection Hr as <- <-.
  destruct (writeLimit E toPath) as [k|] eqn:Hk.
  - destruct (k <? length (delivered body))%nat eqn:Hlt; cbv beta iota.
    + apply Nat.ltb_lt in Hlt.
      do 2 eexists. split; [reflexivity|]. world_fields. split; [|reflexivity].
      split; [congruence|]. split; [congruence|].
      intros _ status b [= <- <-]. split; [reflexivity|].
      intros Hall. specialize (Hall k eq_refl). lia.
    + apply Nat.ltb_ge in Hlt.
      destruct Hf as [Hb|(k' & Hk' & Hlt')];
        [|assert (k' = k) by congruence; subst k'; lia].
      rewrite Hb. cbv beta iota.
      do 2 eexists. split; [reflexivity|]. world_fields. split; [|reflexivity].
      split; [congruence|]. split; [congruence|].
      intros _ status b [= <- <-]. split; [|reflexivity].
      intros (k' & Hk' & Hlt'). assert (k' = k) by congruence. subst k'. lia.
  - destruct Hf as [Hb|(k' & Hk' & Hlt')]; [|congruence].
    rewrite Hb. cbv beta iota.
    do 2 eexists. split; [reflexivity|]. world_fields. split; [|reflexivity].
    split; [congruence|]. split; [congruence|].
    intros _ status b [= <- <-]. split; [|reflexivity].
    intros (k' & Hk' & _). congruence.
Qed.

(** C5 (as amended): when the file cannot be created, the request yields no
    response, the body breaks off or the disk refuses part of it, download
    of main.go returns the error of that very step (of os.Create, of
    http.Get, or of io.Copy: the write error for a short write, the read
    error otherwise), having logged its first line only; it touches no
    other file, issues at most the one request and leaves the other jobs as
    they are.  The worker of the pool that runs the job logs this error and
    returns, so the failure is logged, the job is not run again, and no
    schedule of goroutines and workers ends the process.  In the earlier
    variant the same failures end the process with status 1. *)
Theorem C5_transfer_failure_returned (E : Env) (fromUrl toPath : list ascii) (w : World) :
  transferFails E fromUrl toPath ->
  (exists e w', download E fromUrl toPath w = (Ret (Some e), w')
                /\ failureReported E fromUrl toPath e
                /\ logs w' = logs w ++ [LogLine ("Downloading " ++ fromUrl)]
                /\ downloadFrame fromUrl toPath w w'
                /\ (forall task : Task,
                      vars w !! capFromURL task = Some fromUrl ->
                      vars w !! capToPath task = Some toPath ->
                      work E task w = (Ret tt, setLogs w' (logs w' ++ [LogError e]))))
  /\ (forall (evs : list event) (w0 : World), exists w', schedule E evs w0 = (Ret tt, w'))
  /\ (forall (src : list ascii) (u : url.URL),
        url.Parse src = url.Ok u -> url.String (url.setPathField u []) = fromUrl ->
        exists w', narr0.downloadAudio E src toPath w = (Exit 1, w')).
Proof.
  intros Hf. split; [|split].
  - destruct (download_failure E fromUrl toPath w Hf) as (e & w' & Hd & He & Hlog).
    destruct (download_returns E fromUrl toPath w) as (r & w'' & Hd' & Hfr).
    rewrite Hd in Hd'. injection Hd' as <- <-.
    exists e, w'. split; [exact Hd|]. split; [exact He|]. split; [exact Hlog|].
    split; [exact Hfr|].
    intros task Hfrom Hto. unfold work, bind. rewrite runTask_eq, Hfrom, Hto.
    cbn [default]. unfold id. rewrite Hd. reflexivity.
  - intros evs w0. destruct (schedule_returns E evs w0) as (w' & Hs & _). eauto.
  - intros src u Hp Hu. subst fromUrl. exact (downloadAudio_fails E src toPath w u Hp Hf).
Qed.

Lemma C5_transfer_failure_returned_witness :
  (exists e w', download envDown "https://media.example?id=5" "DL-7" emptyWorld
                = (Ret (Some e), w')
                /\ e = ErrGet "https://media.example?id=5"
                /\ logs w' = [LogLine "Downloading https://media.example?id=5"]
                /\ downloadFrame "https://media.example?id=5" "DL-7" emptyWorld w')
  /\ (forall (evs : list event) (w0 : World), exists w', schedule envDown evs w0 = (Ret tt, w'))
  /\ (forall (src : list ascii) (u : url.URL),
        url.Parse src = url.Ok u ->
        url.String (url.setPathField u []) = ("https://media.example?id=5" : list ascii) ->
        exists w', narr0.downloadAudio envDown src "DL-7" emptyWorld = (Exit 1, w')).
Proof.
  destruct (C5_transfer_failure_returned envDown "https://media.example?id=5" "DL-7" emptyWorld)
    as ((e & w' & Hd & (_ & He & _) & Hlog & Hfr & _) & Hs & Hv).
  - right. left. reflexivity.
  - split; [|split; [exact Hs | exact Hv]].
    exists e, w'. split; [exact Hd|]. split; [apply He; reflexivity|].
    split; [exact Hlog | exact Hfr].
Defined.

(** C5 as stated fails: a response with status 500 is no error to download;
    its body is stored and the job ends without an error. *)
Lemma C5_counterexample :
  httpGet env500 "https://media.example?id=5"
    = Response 500 (mkBody "Internal Server Error" false)
  /\ (exists w', download env500 "https://media.example?id=5" "DL-7" emptyWorld = (Ret None, w')
       /\ files w' !! ("DL-7" : list ascii) = Some ("Internal Server Error" : list ascii)
       /\ logs w' = [LogLine "Downloading https://media.example?id=5";
                     LogLine "Done, got 21 bytes"])
  /\ ~ (forall (E : Env) (fromUrl toPath : list ascii) (w : World) (status : Z) (body : Body),
          httpGet E fromUrl = Response status body -> (500 <= status)%Z ->
          exists e w', download E fromUrl toPath w = (Ret (Some e), w')).
Proof.
  assert (Hrun : exists w', download env500 "https://media.example?id=5" "DL-7" emptyWorld
                            = (Ret None, w')
                 /\ files w' !! ("DL-7" : list ascii) = Some ("Internal Server Error" : list ascii)
                 /\ logs w' = [LogLine "Downloading https://media.example?id=5";
                               LogLine "Done, got 21 bytes"]).
  { eexists. split; [vm_compute; reflexivity|]. split; vm_compute; reflexivity. }
  split; [reflexivity|]. split; [exact Hrun|].
  intros Hall. destruct Hrun as (w' & Hd & _).
  destruct (Hall env500 "https://media.example?id=5" "DL-7" emptyWorld 500%Z
              (mkBody "Internal Server Error" false) eq_refl ltac:(lia)) as (e & w'' & Hd').
  rewrite Hd in Hd'. discriminate.
Qed.

(** ** The connector *)

Section Connector.
Variable E : Env.

Lemma retryFunc_fails (w : World) (e : error) :
  connectSequence (debuggerAt E (attempts w)) = (None, Some e) ->
  exists w', retryFunc E w = (Ret (Some e), w')
    /\ attempts w' = S (attempts w) /\ slept w' = slept w /\ chrome w' = None.
Proof.
  intros H. unfold retryFunc, bind, connectToChromeDebugger, modify, logPrint, ret.
  rewrite H. cbv beta iota. eexists. split; [reflexivity|]. auto.
Qed.

Lemma retryFunc_succeeds (w : World) (c : nat) :
  connectSequence (debuggerAt E (attempts w)) = (Some c, None) ->
  retryFunc E w = (Ret None, setChrome (setAttempts w (S (attempts w))) (Some c)).
Proof.
  intros H. unfold retryFunc, bind, connectToChromeDebugger, modify, logPrint, ret.
  rewrite H. reflexivity.
Qed.

(** A connect sequence that reports an error hands back no client. *)
Lemma connectSequence_error (d : Debugger) :
  (connectSequence d).2 <> None -> exists e, connectSequence d = (None, Some e).
Proof.
  unfold connectSequence.
  destruct (getPage d) as [pt|]; [|destruct (createPage d) as [pt|]];
    try destruct (dial d pt); cbn; intros H; try congruence; eauto.
Qed.

Lemma Retry_after_failures (k : nat) :
  forall (w : World) (fuel : nat) (c : nat),
    (forall i, (i < k)%nat -> (connectSequence (debuggerAt E (attempts w + i))).2 <> None) ->
    connectSequence (debuggerAt E (attempts w + k)) = (Some c, None) ->
    (k < fuel)%nat ->
    exists w', Retry fuel (retryFunc E) (NewConstantBackOff (5 * Second)) w = (Ret (Some None), w')
      /\ chrome w' = Some c
      /\ slept w' = repeat (5 * Second)%Z k ++ slept w
      /\ attempts w' = (attempts w + S k)%nat.
Proof.
  induction k as [|k IH]; intros w fuel c Hfail Hok Hfuel.
  - destruct fuel as [|fuel]; [lia|]. cbn [Retry].
    rewrite Nat.add_0_r in Hok.
    rewrite (bind_Ret _ _ _ _ _ (retryFunc_succeeds w c Hok)).
    eexists. split; [reflexivity|]. cbn. split; [reflexivity|]. split; [reflexivity|]. lia.
  - destruct fuel as [|fuel]; [lia|]. cbn [Retry].
    destruct (connectSequence_error (debuggerAt E (attempts w))) as [e He].
    { specialize (Hfail 0%nat ltac:(lia)). rewrite Nat.add_0_r in Hfail. exact Hfail. }
    destruct (retryFunc_fails w e He) as (w1 & Hr & Ha & Hs & Hc).
    rewrite (bind_Ret _ _ _ _ _ Hr).
    change (NextBackOff (NewConstantBackOff (5 * Second)) =? Stop)%Z with false.
    cbv beta iota.
    unfold bind at 1, timeSleep at 1, modify at 1.
    set (w2 := setSlept w1 (5 * Second :: slept w1)%Z).
    destruct (IH w2 fuel c) as (w' & Hret & Hch & Hsl & Hat).
    + intros i Hi. replace (attempts w2 + i)%nat with (attempts w + S i)%nat
        by (unfold w2; cbn; lia).
      apply Hfail. lia.
    + replace (attempts w2 + k)%nat with (attempts w + S k)%nat by (unfold w2; cbn; lia).
      exact Hok.
    + lia.
    + exists w'. split; [exact Hret|]. split; [exact Hch|]. split.
      * rewrite Hsl. unfold w2. cbn [slept setSlept]. rewrite Hs.
        change (repeat (5 * Second)%Z (S k)) with ((5 * Second)%Z :: repeat (5 * Second)%Z k).
        rewrite repeat_cons, <- app_assoc. reflexivity.
      * rewrite Hat. unfold w2. cbn. lia.
Qed.

End Connector.

(** C6: when the connect sequence fails on the first k attempts and succeeds
    on attempt k+1, the retry loop of main sleeps 5 seconds after each
    failure, k times in all, runs k+1 attempts whatever k is, and leaves the
    client of the successful attempt in the variable chrome. *)
Theorem C6_connector_retries_until_success (E : Env) (k : nat) (w : World) (fuel c : nat) :
  (forall i, (i < k)%nat -> (connectSequence (debuggerAt E (attempts w + i))).2 <> None) ->
  connectSequence (debuggerAt E (attempts w + k)) = (Some c, None) ->
  (k < fuel)%nat ->
  exists w', connect E fuel w = (Ret (Some tt), w')
    /\ chrome w' = Some c
    /\ slept w' = repeat 5000000000%Z k ++ slept w
    /\ attempts w' = (attempts w + S k)%nat.
Proof.
  intros Hfail Hok Hfuel.
  destruct (Retry_after_failures E k w fuel c Hfail Hok Hfuel) as (w' & Hr & Hc & Hs & Ha).
  exists w'. unfold connect. rewrite (bind_Ret _ _ _ _ _ Hr). auto.
Qed.

Lemma C6_connector_retries_until_success_witness :
  exists w', connect envLate 4 emptyWorld = (Ret (Some tt), w')
    /\ chrome w' = Some 1%nat
    /\ slept w' = repeat 5000000000%Z 3 ++ slept emptyWorld
    /\ attempts w' = (attempts emptyWorld + 4)%nat.
Proof.
  apply (C6_connector_retries_until_success envLate 3 emptyWorld 4 1).
  - intros i Hi. destruct i as [|[|[|i]]]; [cbn; congruence..|lia].
  - reflexivity.
  - lia.
Defined.

(** ** Submission of jobs *)

Lemma lookup_vars_fst (l ext : list (list ascii)) (a b : list ascii) :
  ((l ++ [a; b]) ++ ext) !! length l = Some a.
Proof. rewrite lookup_app_l by (rewrite length_app; cbn; lia). apply lookup_snoc2_fst. Qed.

Lemma lookup_vars_snd (l ext : list (list ascii)) (a b : list ascii) :
  ((l ++ [a; b]) ++ ext) !! S (length l) = Some b.
Proof. rewrite lookup_app_l by (rewrite length_app; cbn; lia). apply lookup_snoc2_snd. Qed.

Lemma newDownloadTask_eq (srcUrl tgtPath : list ascii) (w : World) :
  narr0.newDownloadTask srcUrl tgtPath w
  = (Ret (mkTask (length (vars w)) (S (length (vars w)))),
     setVars w (vars w ++ [srcUrl; tgtPath])).
Proof.
  unfold narr0.newDownloadTask, bind, newVar, ret, setVars.
  cbn [vars files logs requests goroutines queued submissions randCalls attempts slept chrome].
  rewrite length_app, <- app_assoc. cbn [length app].
  replace (length (vars w) + 1)%nat with (S (length (vars w))) by lia. reflexivity.
Qed.

Lemma submitTask0_vars (E : Env) (srcUrl tgtPath : list ascii) (w : World) :
  vars (narr0.submitTask E srcUrl tgtPath w).2 = vars w ++ [srcUrl; tgtPath].
Proof.
  unfold narr0.submitTask.
  rewrite (bind_Ret _ _ _ _ _ (newDownloadTask_eq srcUrl tgtPath w)).
  unfold bind, QueueTask, panic, logPrint, modify, exit, ret.
  cbn [submissions setVars].
  destruct (queueTaskFails E (submissions w)); reflexivity.
Qed.

Lemma runTask0_eq (E : Env) (task : Task) (w : World) :
  narr0.runTask E task w
  = bind (narr0.downloadAudio E (default [] (vars w !! capFromURL task))
                                (default [] (vars w !! capToPath task)))
         (fun _ => ret None) w.
Proof. reflexivity. Qed.

Lemma work_keeps (E : Env) (task : Task) (w : World) :
  exists w', work E task w = (Ret tt, w')
    /\ vars w' = vars w /\ goroutines w' = goroutines w.
Proof.
  unfold work.
  destruct (download_returns E (default [] (vars w !! capFromURL task))
              (default [] (vars w !! capToPath task)) w) as (r & w' & Hd & Hfr).
  rewrite <- runTask_eq in Hd. rewrite (bind_Ret _ _ _ _ _ Hd).
  destruct Hfr as (_ & _ & Hv & Hg & _).
  destruct r as [e|]; eexists; (split; [reflexivity|]); split; assumption.
Qed.

(** While no goroutine runs, the goroutines started and the variables of
    earlier calls stay where they are. *)
Lemma schedule_quiet (E : Env) (evs : list event) :
  noGoroutineRuns evs = true ->
  forall w, exists w',
    schedule E evs w = (Ret tt, w')
    /\ (exists ext, vars w' = vars w ++ ext)
    /\ (exists ext, goroutines w' = goroutines w ++ ext).
Proof.
  induction evs as [|ev evs IH]; intros Hq w.
  - exists w. split; [reflexivity|]. split; exists []; rewrite app_nil_r; reflexivity.
  - unfold noGoroutineRuns in Hq. cbn [forallb] in Hq.
    apply andb_true_iff in Hq. destruct Hq as [Hev Hq].
    assert (Hstep : exists w1, perform E ev w = (Ret tt, w1)
                      /\ (exists ext, vars w1 = vars w ++ ext)
                      /\ (exists ext, goroutines w1 = goroutines w ++ ext)).
    { destruct ev as [fromURL toPath|i|i]; [|discriminate|]; cbn [perform].
      - rewrite (bind_Ret _ _ _ _ _ (enqueueDownload_eq fromURL toPath w)).
        eexists. split; [reflexivity|]. split; eexists; reflexivity.
      - destruct (queued w !! i) as [task|].
        + destruct (work_keeps E task (setQueued w (delete i (queued w))))
            as (w1 & Hw & Hv & Hg).
          exists w1. split; [exact Hw|].
          split; exists []; rewrite app_nil_r; assumption.
        + exists w. split; [reflexivity|].
          split; exists []; rewrite app_nil_r; reflexivity. }
    destruct Hstep as (w1 & Hp & [e1 Hv1] & [g1 Hg1]).
    cbn [schedule]. rewrite (bind_Ret _ _ _ _ _ Hp).
    destruct (IH Hq w1) as (w' & Hs & [e2 Hv2] & [g2 Hg2]).
    exists w'. split; [exact Hs|]. split.
    + exists (e1 ++ e2). rewrite Hv2, Hv1, app_assoc. reflexivity.
    + exists (g1 ++ g2). rewrite Hg2, Hg1, app_assoc. reflexivity.
Qed.

Lemma submitTask0_admitted (E : Env) (srcUrl tgtPath : list ascii) (w : World) :
  queueTaskFails E (submissions w) = false ->
  queued (narr0.submitTask E srcUrl tgtPath w).2
  = queued w ++ [mkTask (length (vars w)) (S (length (vars w)))].
Proof.
  intros Hq. unfold narr0.submitTask.
  rewrite (bind_Ret _ _ _ _ _ (newDownloadTask_eq srcUrl tgtPath w)).
  unfold bind, QueueTask, ret. cbn [submissions setVars]. rewrite Hq. reflexivity.
Qed.

(** C7: the task enqueueDownload hands over holds the two variables of that
    very call.  The goroutine the call starts stays in place while later
    calls and workers go on, and when it runs and the pool admits the
    task, the task it puts on the queue is this one.  Whatever goroutines,
    workers and later calls do before or after, running the task downloads
    from this call's fromURL to this call's toPath, and a later call gets
    variables of its own.  The goroutine of the earlier variant likewise
    builds its task from its own arguments and puts that task on the
    queue. *)
Theorem C7_task_runs_with_own_arguments
        (E : Env) (fromURL toPath : list ascii) (w : World) (evs : list event) :
  let task := mkTask (length (vars w)) (S (length (vars w))) in
  let w1 := (enqueueDownload fromURL toPath w).2 in
  let w2 := (schedule E evs w1).2 in
  goroutines w1 = goroutines w ++ [GoSubmit fromURL toPath task]
  /\ (forall later after : list event,
        noGoroutineRuns later = true ->
        let wA := (schedule E later w1).2 in
        goroutines wA !! length (goroutines w) = Some (GoSubmit fromURL toPath task)
        /\ (queueTaskFails E (submissions wA) = false ->
            exists wB,
              perform E (RunGoroutine (length (goroutines w))) wA = (Ret tt, wB)
              /\ queued wB = queued wA ++ [task]
              /\ runTask E task (schedule E after wB).2
                 = download E fromURL toPath (schedule E after wB).2))
  /\ runTask E task w2 = download E fromURL toPath w2
  /\ (forall fromURL' toPath' : list ascii,
        exists task',
          goroutines (enqueueDownload fromURL' toPath' w2).2
          = goroutines w2 ++ [GoSubmit fromURL' toPath' task']
          /\ NoDup [capFromURL task; capToPath task; capFromURL task'; capToPath task'])
  /\ (queueTaskFails E (submissions w) = false ->
      queued (narr0.submitTask E fromURL toPath w).2 = queued w ++ [task])
  /\ narr0.runTask E task (narr0.submitTask E fromURL toPath w).2
     = bind (narr0.downloadAudio E fromURL toPath) (fun _ => ret None)
            (narr0.submitTask E fromURL toPath w).2.
Proof.
  intros task w1 w2. subst w1 w2.
  rewrite (enqueueDownload_eq fromURL toPath w). cbn [snd].
  destruct (schedule_returns E evs (afterEnqueue fromURL toPath w)) as (w2 & Hs & ext & Hv).
  rewrite Hs. cbn [snd].
  assert (Hv' : vars w2 = (vars w ++ [fromURL; toPath]) ++ ext) by exact Hv.
  split; [reflexivity|]. split; [|split; [|split; [|split]]].
  - intros later after Hquiet. cbv zeta.
    destruct (schedule_quiet E later Hquiet (afterEnqueue fromURL toPath w))
      as (wA & HA & [extV HvA] & [extG HgA]).
    rewrite HA. cbn [snd].
    assert (HgA' : goroutines wA
                   = (goroutines w ++ [GoSubmit fromURL toPath task]) ++ extG) by exact HgA.
    assert (HvA' : vars wA = (vars w ++ [fromURL; toPath]) ++ extV) by exact HvA.
    assert (Hlook : goroutines wA !! length (goroutines w)
                    = Some (GoSubmit fromURL toPath task)).
    { rewrite HgA', lookup_app_l by (rewrite length_app; cbn; lia).
      apply list_lookup_middle. reflexivity. }
    split; [exact Hlook|]. intros Hq.
    eexists. split; [|split].
    + cbn [perform]. rewrite Hlook.
      unfold submitTask, bind, QueueTask, ret. cbn [submissions setGoroutines].
      rewrite Hq. reflexivity.
    + reflexivity.
    + match goal with |- context [schedule E after ?w0] =>
        destruct (schedule_returns E after w0) as (wC & HC & ext' & HvC)
      end.
      rewrite HC. cbn [snd].
      assert (HvC' : vars wC = (vars w ++ [fromURL; toPath]) ++ (extV ++ ext')).
      { rewrite HvC. cbn [vars setQueued setSubmissions setGoroutines].
        rewrite HvA', <- app_assoc. reflexivity. }
      rewrite runTask_eq. subst task. cbn [capFromURL capToPath].
      rewrite HvC', lookup_vars_fst, lookup_vars_snd. reflexivity.
  - rewrite runTask_eq. subst task. cbn [capFromURL capToPath].
    rewrite Hv', lookup_vars_fst, lookup_vars_snd. reflexivity.
  - intros fromURL' toPath'. rewrite (enqueueDownload_eq fromURL' toPath' w2).
    eexists. split; [reflexivity|]. subst task. cbn [capFromURL capToPath].
    rewrite Hv', !length_app. cbn [length].
    repeat (apply NoDup_cons; split; [rewrite ?list_elem_of_In; cbn; lia|]).
    apply NoDup_nil_2.
  - apply submitTask0_admitted.
  - rewrite runTask0_eq, submitTask0_vars. subst task. cbn [capFromURL capToPath].
    rewrite lookup_snoc2_fst, lookup_snoc2_snd. reflexivity.
Qed.

Lemma C7_task_runs_with_own_arguments_witness :
  let w1 := (enqueueDownload "https://media.example?id=5" "DL-7" emptyWorld).2 in
  let wA := (schedule envRepeat [CallEnqueue "https://media.example?id=6" "DL-8"] w1).2 in
  exists wB,
    perform envRepeat (RunGoroutine 0) wA = (Ret tt, wB)
    /\ queued wB = [mkTask 0 1]
    /\ runTask envRepeat (mkTask 0 1) wB
       = download envRepeat "https://media.example?id=5" "DL-7" wB.
Proof.
  cbv zeta.
  destruct (C7_task_runs_with_own_arguments envRepeat "https://media.example?id=5" "DL-7"
              emptyWorld []) as (_ & Hsub & _).
  destruct (Hsub [CallEnqueue "https://media.example?id=6" "DL-8"] [] eq_refl)
    as (_ & Hrun).
  destruct (Hrun eq_refl) as (wB & Hp & Hq & Hr).
  exists wB. split; [exact Hp|]. split; [exact Hq | exact Hr].
Defined.

(** ** Failures that end the process *)

(** C9: an input url.Parse refuses makes toDownloadableURL log the error and
    exit with status 1, so the loop of main stops at that response and
    handles no later one; in the earlier variant the worker running
    downloadAudio ends the process the same way. *)
Theorem C9_malformed_url_is_fatal (s : list ascii) (e : url.Error) (w : World) :
  url.Parse s = url.Err e ->
  toDownloadableURL s w = (Exit 1, setLogs w (logs w ++ [LogError (ErrURL e)]))
  /\ (forall (E : Env) (events : list RecvResult),
        isAudioURL s = true ->
        responseLoop E (RecvURL s :: events) w
        = (Exit 1, setLogs w (logs w ++ [LogError (ErrURL e)])))
  /\ (forall (E : Env) (toPath : list ascii),
        exists w', narr0.downloadAudio E s toPath w = (Exit 1, w')
                   /\ files w' = files w /\ requests w' = requests w).
Proof.
  intros Hp. split; [|split].
  - apply toDownloadableURL_Err. exact Hp.
  - intros E events Ha. apply responseLoop_fatal; assumption.
  - intros E toPath. run_download. rewrite Hp. cbv beta iota.
    eexists. split; [reflexivity|]. split; reflexivity.
Qed.

Lemma C9_malformed_url_is_fatal_witness :
  url.Parse badPortURL = url.Err (url.InvalidPortError ":port")
  /\ isAudioURL badPortURL = true
  /\ toDownloadableURL badPortURL emptyWorld
     = (Exit 1, setLogs emptyWorld [LogError (ErrURL (url.InvalidPortError ":port"))])
  /\ responseLoop envRepeat (RecvURL badPortURL :: twoSegments) emptyWorld
     = (Exit 1, setLogs emptyWorld [LogError (ErrURL (url.InvalidPortError ":port"))]).
Proof.
  assert (Hp : url.Parse badPortURL = url.Err (url.InvalidPortError ":port"))
    by (vm_compute; reflexivity).
  assert (Ha : isAudioURL badPortURL = true) by (vm_compute; reflexivity).
  destruct (C9_malformed_url_is_fatal badPortURL _ emptyWorld Hp) as (H1 & H2 & _).
  split; [exact Hp|]. split; [exact Ha|]. split; [exact H1|].
  exact (H2 envRepeat twoSegments Ha).
Defined.

Lemma responseLoop_logs (E : Env) (events : list RecvResult) :
  forall w : World, exists l,
    logs (responseLoop E events w).2 = logs w ++ l
    /\ (l = [] \/ l = [LogError ErrRecv] \/ exists x, l = [LogError (ErrURL x)]).
Proof.
  induction events as [|[u|] events IH]; intros w.
  - exists []. split; [cbn; rewrite app_nil_r; reflexivity | auto].
  - destruct (isAudioURL u) eqn:Ha; [|rewrite responseLoop_skip by exact Ha; apply IH].
    destruct (url.Parse u) as [p|e] eqn:Hp.
    + rewrite (responseLoop_step E u events p w Ha Hp).
      destruct (IH (afterEnqueue (url.String (url.setPathField p []))
                      (targetPath (randInt E (randCalls w)))
                      (setRandCalls w (S (randCalls w))))) as (l & Hl & Hcase).
      exists l. split; [rewrite Hl; reflexivity | exact Hcase].
    + rewrite (responseLoop_fatal E u events e w Ha Hp). eexists. split; [reflexivity|]. eauto.
  - eexists. split; [reflexivity|]. auto.
Qed.

(** C10: enqueueDownload returns nil whatever its arguments and whatever the
    pool does, and logs nothing; when QueueTask refuses the task, the
    goroutine returns without a trace (nothing queued, nothing logged); and
    the loop of main logs an error only when it stops on a failed Recv or a
    malformed URL, never from the branch after enqueueDownload. *)
Theorem C10_enqueueDownload_returns_nil :
  (forall (fromURL toPath : list ascii) (w : World),
     exists w', enqueueDownload fromURL toPath w = (Ret None, w')
                /\ logs w' = logs w /\ queued w' = queued w)
  /\ (forall (E : Env) (task : Task) (w : World),
        queueTaskFails E (submissions w) = true ->
        submitTask E task w = (Ret tt, setSubmissions w (S (submissions w))))
  /\ (forall (E : Env) (events : list RecvResult) (w : World),
        exists l, logs (responseLoop E events w).2 = logs w ++ l
                  /\ (l = [] \/ l = [LogError ErrRecv] \/ exists x, l = [LogError (ErrURL x)])).
Proof.
  split; [|split].
  - intros fromURL toPath w. rewrite enqueueDownload_eq. eexists. split; [reflexivity|].
    split; reflexivity.
  - intros E task w H. unfold submitTask, bind, QueueTask, ret. rewrite H. reflexivity.
  - intros E events w. apply responseLoop_logs.
Qed.

Lemma C10_enqueueDownload_returns_nil_witness :
  (exists w', enqueueDownload "https://media.example?id=5" "DL-7" emptyWorld = (Ret None, w')
              /\ logs w' = [] /\ queued w' = [])
  /\ submitTask envFull (mkTask 0 1) (afterEnqueue "https://media.example?id=5" "DL-7" emptyWorld)
     = (Ret tt, setSubmissions (afterEnqueue "https://media.example?id=5" "DL-7" emptyWorld) 1).
Proof.
  destruct C10_enqueueDownload_returns_nil as (H1 & H2 & _).
  split.
  - exact (H1 "https://media.example?id=5" "DL-7" emptyWorld).
  - apply (H2 envFull (mkTask 0 1)
              (afterEnqueue "https://media.example?id=5" "DL-7" emptyWorld)).
    reflexivity.
Defined.

(** ** Bytes and substrings *)

Lemma allBytes_complete (c : ascii) : In c allBytes.
Proof.
  unfold allBytes. apply in_map_iff. exists (nat_of_ascii c).
  split; [apply ascii_nat_embedding|].
  apply in_seq. pose proof (nat_ascii_bounded c). lia.
Qed.

(** A boolean property checked on the 256 bytes holds of every byte. *)
Lemma byte_forall (P : ascii -> bool) : forallb P allBytes = true -> forall c, P c = true.
Proof.
  intros H c. rewrite forallb_forall in H. apply H. apply allBytes_complete.
Qed.

Lemma HasPrefix_nil (s : list ascii) : HasPrefix s [] = true.
Proof. destruct s; reflexivity. Qed.

Lemma HasPrefix_byte (c d : ascii) (s : list ascii) : HasPrefix (d :: s) [c] = byte_eqb c d.
Proof. cbn [HasPrefix]. rewrite HasPrefix_nil. apply andb_true_r. Qed.

Lemma Index_byte_here (c : ascii) (s : list ascii) : Index (c :: s) [c] = Some 0%nat.
Proof. rewrite Index_unfold, HasPrefix_byte, byte_eqb_refl. reflexivity. Qed.

Lemma Index_byte_skip (c d : ascii) (s : list ascii) :
  c <> d -> Index (d :: s) [c] = S <$> Index s [c].
Proof.
  intros H. rewrite Index_unfold, HasPrefix_byte.
  apply byte_eqb_neq in H. rewrite H. reflexivity.
Qed.

Lemma Index_byte_app (c : ascii) (a b : list ascii) :
  ~ In c a -> Index (a ++ c :: b) [c] = Some (length a).
Proof.
  induction a as [|d a IH]; intros Hn.
  - apply Index_byte_here.
  - cbn [app]. rewrite Index_byte_skip by (intros ->; apply Hn; left; reflexivity).
    rewrite IH by (intros Hin; apply Hn; right; exact Hin). reflexivity.
Qed.

Lemma Index_byte_notin (c : ascii) (s : list ascii) :
  ~ In c s -> Index s [c] = None.
Proof.
  induction s as [|d s IH]; intros Hn; [reflexivity|].
  rewrite Index_byte_skip by (intros ->; apply Hn; left; reflexivity).
  rewrite IH by (intros Hin; apply Hn; right; exact Hin). reflexivity.
Qed.

Lemma Index_byte_Some (c : ascii) (s : list ascii) (i : nat) :
  Index s [c] = Some i -> s = take i s ++ c :: drop (S i) s /\ ~ In c (take i s).
Proof.
  revert i. induction s as [|d s IH]; intros i H; [discriminate|].
  destruct (ascii_dec c d) as [<-|Hne].
  - rewrite Index_byte_here in H. injection H as <-. split; [reflexivity|intros []].
  - rewrite Index_byte_skip in H by exact Hne.
    destruct (Index s [c]) as [j|] eqn:Hj; [|discriminate]. injection H as <-.
    destruct (IH j eq_refl) as [Heq Hnot]. split.
    + cbn. f_equal. exact Heq.
    + cbn. intros [->|Hin]; [congruence|contradiction].
Qed.

Lemma Index_byte_None (c : ascii) (s : list ascii) : Index s [c] = None -> ~ In c s.
Proof.
  induction s as [|d s IH]; intros H; [intros []|].
  destruct (ascii_dec c d) as [<-|Hne].
  - rewrite Index_byte_here in H. discriminate.
  - rewrite Index_byte_skip in H by exact Hne.
    destruct (Index s [c]) eqn:Hj; [discriminate|].
    intros [->|Hin]; [congruence|]. exact (IH eq_refl Hin).
Qed.

Lemma Cut_byte_app (c : ascii) (a b : list ascii) :
  ~ In c a -> Cut (a ++ c :: b) [c] = (a, b, true).
Proof.
  intros Hn. unfold Cut. rewrite Index_byte_app by exact Hn.
  rewrite take_app_length. cbn [length].
  replace (length a + 1)%nat with (S (length a)) by lia.
  change (a ++ c :: b) with (a ++ [c] ++ b). rewrite app_assoc.
  rewrite drop_app_length'; [reflexivity|]. rewrite length_app. cbn. lia.
Qed.

Lemma Cut_byte_notin (c : ascii) (s : list ascii) :
  ~ In c s -> Cut s [c] = (s, [], false).
Proof. intros Hn. unfold Cut. rewrite Index_byte_notin by exact Hn. reflexivity. Qed.

Lemma Cut_byte_inv (c : ascii) (s a b : list ascii) (found : bool) :
  Cut s [c] = (a, b, found) ->
  ~ In c a /\ ((found = true /\ s = a ++ c :: b) \/ (found = false /\ s = a /\ b = [])).
Proof.
  unfold Cut. destruct (Index s [c]) as [i|] eqn:Hi.
  - intros [= <- <- <-]. destruct (Index_byte_Some c s i Hi) as [Heq Hnot].
    split; [exact Hnot|]. left. split; [reflexivity|].
    cbn [length]. replace (i + 1)%nat with (S i) by lia. exact Heq.
  - intros [= <- <- <-]. split; [exact (Index_byte_None c s Hi)|]. right. auto.
Qed.

Lemma Contains_byte (c : ascii) (s : list ascii) : Contains s [c] = true <-> In c s.
Proof.
  unfold Contains. destruct (Index s [c]) as [i|] eqn:Hi.
  - split; [intros _|reflexivity]. destruct (Index_byte_Some c s i Hi) as [Heq _].
    rewrite Heq. apply in_or_app. right. left. reflexivity.
  - split; [discriminate|]. intros Hin. exfalso. exact (Index_byte_None c s Hi Hin).
Qed.

Lemma Contains_byte_false (c : ascii) (s : list ascii) : ~ In c s -> Contains s [c] = false.
Proof.
  intros Hn. destruct (Contains s [c]) eqn:H; [|reflexivity].
  apply Contains_byte in H. contradiction.
Qed.

Lemma LastIndex_unfold (d : ascii) (s sub : list ascii) :
  LastIndex (d :: s) sub =
  match LastIndex s sub with
  | Some i => Some (S i)
  | None => if HasPrefix (d :: s) sub then Some 0%nat else None
  end.
Proof. reflexivity. Qed.

Lemma LastIndex_byte_notin (c : ascii) (s : list ascii) :
  ~ In c s -> LastIndex s [c] = None.
Proof.
  induction s as [|d s IH]; intros Hn; [reflexivity|].
  rewrite LastIndex_unfold, IH by (intros Hin; apply Hn; right; exact Hin).
  rewrite HasPrefix_byte.
  assert (Hne : c <> d) by (intros ->; apply Hn; left; reflexivity).
  apply byte_eqb_neq in Hne. rewrite Hne. reflexivity.
Qed.

Lemma LastIndex_byte_app (c : ascii) (a b : list ascii) :
  ~ In c b -> LastIndex (a ++ c :: b) [c] = Some (length a).
Proof.
  intros Hn. induction a as [|d a IH].
  - cbn [app]. rewrite LastIndex_unfold, LastIndex_byte_notin by exact Hn.
    rewrite HasPrefix_byte, byte_eqb_refl. reflexivity.
  - cbn [app]. rewrite LastIndex_unfold, IH. reflexivity.
Qed.

Lemma CountByte_app (c : ascii) (a b : list ascii) :
  CountByte (a ++ b) c = (CountByte a c + CountByte b c)%nat.
Proof.
  induction a as [|d a IH]; [reflexivity|].
  cbn [app CountByte]. rewrite IH. destruct (byte_eqb d c); reflexivity.
Qed.

Lemma CountByte_notin (c : ascii) (s : list ascii) : ~ In c s -> CountByte s c = 0%nat.
Proof.
  induction s as [|d s IH]; intros Hn; [reflexivity|].
  cbn [CountByte].
  assert (Hne : d <> c) by (intros ->; apply Hn; left; reflexivity).
  apply byte_eqb_neq in Hne. rewrite Hne. apply IH. intros Hin. apply Hn. right. exact Hin.
Qed.

Lemma CountByte_in (c : ascii) (s : list ascii) : In c s -> (1 <= CountByte s c)%nat.
Proof.
  induction s as [|d s IH]; intros Hin; [destruct Hin|].
  cbn [CountByte]. destruct (byte_eqb d c) eqn:Hd; [lia|].
  apply byte_eqb_neq in Hd. destruct Hin as [->|Hin]; [congruence|]. apply IH. exact Hin.
Qed.

Lemma HasSuffix_byte (c : ascii) (s : list ascii) :
  HasSuffix s [c] = true <-> exists a, s = a ++ [c].
Proof.
  unfold HasSuffix. cbn [rev app]. rewrite HasPrefix_spec. split.
  - intros [post H]. exists (rev post).
    apply (f_equal (@rev ascii)) in H. rewrite rev_involutive in H.
    rewrite H. cbn [app rev]. reflexivity.
  - intros [a ->]. exists (rev a). rewrite rev_app_distr. reflexivity.
Qed.

(** ** Package net/url: escaping *)

Lemma oneOf_In (c : ascii) (set : list ascii) : url.oneOf c set = true <-> In c set.
Proof.
  unfold url.oneOf. rewrite existsb_exists. split.
  - intros (x & Hin & Heq). apply byte_eqb_eq in Heq. subst. exact Hin.
  - intros Hin. exists c. split; [exact Hin|apply byte_eqb_refl].
Qed.

(** Bytes the escaped form of a string never contains, by enumeration of
    the escaped forms of single bytes. *)
Lemma escape_avoids (mode : url.encoding) (bad : list ascii) :
  forallb (fun c => forallb (fun x => negb (url.oneOf x bad)) (url.escapeByte mode c)) allBytes
  = true ->
  forall (s : list ascii) (x : ascii), In x (url.escape s mode) -> ~ In x bad.
Proof.
  intros Hall s x Hin Hbad. unfold url.escape in Hin.
  apply in_flat_map in Hin. destruct Hin as (c & _ & Hx).
  pose proof (byte_forall _ Hall c) as Hc. cbv beta in Hc.
  rewrite forallb_forall in Hc. specialize (Hc x Hx).
  apply oneOf_In in Hbad. rewrite Hbad in Hc. discriminate.
Qed.

Lemma escape_host_avoids (s : list ascii) (x : ascii) :
  In x (url.escape s url.encodeHost) -> ~ In x ("/?#@" : list ascii).
Proof. apply escape_avoids. vm_compute. reflexivity. Qed.

Lemma escape_user_avoids (s : list ascii) (x : ascii) :
  In x (url.escape s url.encodeUserPassword) -> ~ In x ("/?#@:" : list ascii).
Proof. apply escape_avoids. vm_compute. reflexivity. Qed.

(** An escaped byte is the byte itself, which is not the percent sign, or
    a percent sign and the two hexadecimal digits of the byte. *)
Lemma escapeByte_shape (mode : url.encoding) (c : ascii) :
  mode <> url.encodeQueryComponent ->
  (url.escapeByte mode c = [c] /\ c <> "%"%char)
  \/ (exists h1 h2, url.escapeByte mode c = ["%"%char; h1; h2] /\ url.hexByte h1 h2 = c).
Proof.
  intros Hm.
  assert (H : (match url.escapeByte mode c with
               | [x] => byte_eqb x c && negb (byte_eqb c "%")
               | [p; h1; h2] => byte_eqb p "%" && byte_eqb (url.hexByte h1 h2) c
               | _ => false
               end) = true).
  { revert c. apply byte_forall. destruct mode; try congruence; vm_compute; reflexivity. }
  destruct (url.escapeByte mode c) as [|x [|h1 [|h2 [|? ?]]]]; try discriminate.
  - apply andb_true_iff in H. destruct H as [H1 H2].
    apply byte_eqb_eq in H1. subst x. left. split; [reflexivity|].
    apply negb_true_iff, byte_eqb_neq in H2. exact H2.
  - apply andb_true_iff in H. destruct H as [H1 H2].
    apply byte_eqb_eq in H1. apply byte_eqb_eq in H2. subst x. right. eauto.
Qed.

Lemma rawDecode_escapeByte (mode : url.encoding) (c : ascii) (rest : list ascii) :
  mode <> url.encodeQueryComponent ->
  rawDecode (url.escapeByte mode c ++ rest) = c :: rawDecode rest.
Proof.
  intros Hm. destruct (escapeByte_shape mode c Hm) as [[-> Hc]|(h1 & h2 & -> & Hh)].
  - cbn [app rawDecode]. apply byte_eqb_neq in Hc. rewrite Hc. reflexivity.
  - cbn [app rawDecode]. rewrite byte_eqb_refl, Hh. reflexivity.
Qed.

(** Decoding undoes escaping. *)
Lemma rawDecode_escape (mode : url.encoding) (s : list ascii) :
  mode <> url.encodeQueryComponent -> rawDecode (url.escape s mode) = s.
Proof.
  intros Hm. induction s as [|c s IH]; [reflexivity|].
  unfold url.escape. cbn [flat_map]. rewrite rawDecode_escapeByte by exact Hm.
  f_equal. exact IH.
Qed.

Lemma bind_Ok {A B} (r : url.result A) (k : A -> url.result B) (b : B) :
  (r ≫= k) = url.Ok b -> exists a, r = url.Ok a /\ k a = url.Ok b.
Proof. destruct r as [a|e]; [eauto|discriminate]. Qed.

Lemma unescape_unfold (c : ascii) (rest : list ascii) (mode : url.encoding) :
  url.unescape (c :: rest) mode =
  if byte_eqb c "%" then
    match rest with
    | h1 :: h2 :: rest' =>
        if negb (url.ishex h1) || negb (url.ishex h2)
        then url.Err (url.EscapeError (take 3 (c :: rest)))
        else if url.encoding_eqb mode url.encodeHost && (url.unhex h1 <? 8)%N
                && negb (byte_eqb h1 "2" && byte_eqb h2 "5")
        then url.Err (url.EscapeError (take 3 (c :: rest)))
        else if url.encoding_eqb mode url.encodeZone
                && negb (byte_eqb h1 "2" && byte_eqb h2 "5")
                && negb (byte_eqb (url.hexByte h1 h2) " ")
                && url.shouldEscape (url.hexByte h1 h2) url.encodeHost
        then url.Err (url.EscapeError (take 3 (c :: rest)))
        else t ← url.unescape rest' mode; url.Ok (url.hexByte h1 h2 :: t)
    | _ => url.Err (url.EscapeError (take 3 (c :: rest)))
    end
  else if byte_eqb c "+" then
    t ← url.unescape rest mode;
    url.Ok ((if url.encoding_eqb mode url.encodeQueryComponent then " "%char else "+"%char) :: t)
  else if (url.encoding_eqb mode url.encodeHost || url.encoding_eqb mode url.encodeZone)
          && (N_of_ascii c <? 128)%N && url.shouldEscape c url.encodeHost
  then url.Err (url.InvalidHostError [c])
  else t ← url.unescape rest mode; url.Ok (c :: t).
Proof. reflexivity. Qed.

(** What [unescape] accepts it decodes as [rawDecode] does, and the
    decoding of a longer string starts with it. *)
Lemma unescape_decodes (mode : url.encoding) (n : nat) :
  mode <> url.encodeQueryComponent ->
  forall (s t rest : list ascii), (length s <= n)%nat ->
    url.unescape s mode = url.Ok t -> rawDecode (s ++ rest) = t ++ rawDecode rest.
Proof.
  intros Hm. induction n as [|n IH]; intros s t rest Hlen H.
  - destruct s; [|cbn in Hlen; lia]. cbn in H. injection H as <-. reflexivity.
  - destruct s as [|c s]; [cbn in H; injection H as <-; reflexivity|].
    rewrite unescape_unfold in H. cbn [app rawDecode].
    destruct (byte_eqb c "%") eqn:Hc.
    + destruct s as [|h1 [|h2 s]]; try discriminate.
      repeat match type of H with
             | (if ?b then url.Err _ else _) = _ => destruct b; [discriminate|]
             end.
      apply bind_Ok in H. destruct H as (t' & Ht' & Hok). injection Hok as <-.
      cbn [app]. rewrite (IH s t' rest) by (cbn in Hlen; auto; lia). reflexivity.
    + destruct (byte_eqb c "+") eqn:Hp.
      * apply bind_Ok in H. destruct H as (t' & Ht' & Hok). injection Hok as <-.
        assert (url.encoding_eqb mode url.encodeQueryComponent = false) as ->
          by (destruct mode; congruence || reflexivity).
        apply byte_eqb_eq in Hp. subst c.
        rewrite (IH s t' rest) by (cbn in Hlen; auto; lia). reflexivity.
      * match type of H with
        | (if ?b then url.Err _ else _) = _ => destruct b; [discriminate|]
        end.
        apply bind_Ok in H. destruct H as (t' & Ht' & Hok). injection Hok as <-.
        rewrite (IH s t' rest) by (cbn in Hlen; auto; lia). reflexivity.
Qed.

Lemma unescape_rawDecode (mode : url.encoding) (s t : list ascii) :
  mode <> url.encodeQueryComponent -> url.unescape s mode = url.Ok t -> t = rawDecode s.
Proof.
  intros Hm H. pose proof (unescape_decodes mode (length s) Hm s t [] (le_n _) H) as Hd.
  rewrite !app_nil_r in Hd. symmetry. exact Hd.
Qed.

Lemma unescape_nonempty (mode : url.encoding) (c : ascii) (s : list ascii) :
  url.unescape (c :: s) mode <> url.Ok [].
Proof.
  rewrite unescape_unfold. intros H.
  destruct (byte_eqb c "%").
  - destruct s as [|h1 [|h2 s]]; try discriminate.
    repeat match type of H with
           | (if ?b then url.Err _ else _) = _ => destruct b; [discriminate|]
           end.
    apply bind_Ok in H. destruct H as (t' & _ & Hok). discriminate.
  - destruct (byte_eqb c "+").
    + apply bind_Ok in H. destruct H as (t' & _ & Hok). discriminate.
    + match type of H with
      | (if ?b then url.Err _ else _) = _ => destruct b; [discriminate|]
      end.
      apply bind_Ok in H. destruct H as (t' & _ & Hok). discriminate.
Qed.

(** ** Package net/url: hosts *)

Lemma Index_Some_le (s sub : list ascii) (i : nat) :
  Index s sub = Some i -> (i + length sub <= length s)%nat.
Proof.
  revert i. induction s as [|c s IH]; intros i; rewrite Index_unfold;
    match goal with |- context [HasPrefix ?x sub] => destruct (HasPrefix x sub) eqn:Hp end;
    try discriminate.
  - intros [= <-]. apply HasPrefix_spec in Hp. destruct Hp as [post Hp].
    apply (f_equal (@length ascii)) in Hp. rewrite length_app in Hp. lia.
  - intros [= <-]. apply HasPrefix_spec in Hp. destruct Hp as [post Hp].
    apply (f_equal (@length ascii)) in Hp. rewrite length_app in Hp. lia.
  - destruct (Index s sub) as [j|]; [|discriminate]. intros [= <-].
    specialize (IH j eq_refl). cbn [length]. lia.
Qed.

(** Whatever [parseHost] accepts, the host it returns is the decoded text. *)
Lemma parseHost_rawDecode (x h : list ascii) :
  url.parseHost x = url.Ok h -> h = rawDecode x.
Proof.
  assert (Hh : url.encodeHost <> url.encodeQueryComponent) by discriminate.
  assert (Hz : url.encodeZone <> url.encodeQueryComponent) by discriminate.
  unfold url.parseHost. destruct (HasPrefix x "[").
  - destruct (LastIndex x "]") as [i|]; [|discriminate].
    destruct (negb (url.validOptionalPort (drop (S i) x))); [discriminate|].
    destruct (Index (take i x) "%25") as [z|] eqn:Hzone.
    + intros H.
      apply bind_Ok in H. destruct H as (h1 & H1 & H).
      apply bind_Ok in H. destruct H as (h2 & H2 & H).
      apply bind_Ok in H. destruct H as (h3 & H3 & H). injection H as <-.
      pose proof (Index_Some_le _ _ _ Hzone) as Hle. rewrite length_take in Hle.
      assert (Hzi : (z <= i)%nat) by lia.
      assert (Hx : x = take z x ++ drop z (take i x) ++ drop i x).
      { rewrite <- (take_drop i x) at 1.
        rewrite <- (take_drop z (take i x)) at 1.
        rewrite take_take, Nat.min_l by exact Hzi. rewrite <- app_assoc. reflexivity. }
      rewrite Hx at 1.
      rewrite (unescape_decodes _ _ Hh _ _ _ (le_n _) H1).
      rewrite (unescape_decodes _ _ Hz _ _ _ (le_n _) H2).
      rewrite (unescape_rawDecode _ _ _ Hh H3). reflexivity.
    + apply unescape_rawDecode. exact Hh.
  - destruct (LastIndex x ":") as [i|].
    + cbv zeta. destruct (negb (url.validOptionalPort (drop i x))); [discriminate|].
      apply unescape_rawDecode. exact Hh.
    + apply unescape_rawDecode. exact Hh.
Qed.

Lemma parseHost_escape (host h : list ascii) :
  url.parseHost (url.escape host url.encodeHost) = url.Ok h -> h = host.
Proof.
  intros H. rewrite (parseHost_rawDecode _ _ H). apply rawDecode_escape. discriminate.
Qed.

(** The host [parseAuthority] returns for an authority written by [String]. *)
Lemma parseAuthority_written (usr : option url.Userinfo) (host : list ascii)
      (usr' : option url.Userinfo) (h : list ascii) :
  url.parseAuthority
    (match usr with
     | Some ui => url.UserinfoString ui ++ "@"
     | None => []
     end ++ url.escape host url.encodeHost) = url.Ok (usr', h) ->
  h = host.
Proof.
  assert (Hat : ~ In "@"%char (url.escape host url.encodeHost)).
  { intros Hin. apply (escape_host_avoids _ _ Hin). cbn. tauto. }
  unfold url.parseAuthority. cbn [list_ascii_of_string]. destruct usr as [ui|].
  - rewrite <- app_assoc. cbn [app].
    rewrite LastIndex_byte_app by exact Hat.
    change (url.UserinfoString ui ++ "@"%char :: url.escape host url.encodeHost)
      with (url.UserinfoString ui ++ ["@"%char] ++ url.escape host url.encodeHost).
    rewrite app_assoc, drop_app_length' by (rewrite length_app; cbn; lia).
    intros H. apply bind_Ok in H. destruct H as (h0 & Hh0 & H).
    apply parseHost_escape in Hh0. subst h0.
    destruct (negb (url.validUserinfo _)); [discriminate|].
    destruct (negb (Contains _ _)); [|destruct (Cut _ _) as [[uname pass] found]].
    + apply bind_Ok in H. destruct H as (? & _ & H). injection H as _ <-. reflexivity.
    + apply bind_Ok in H. destruct H as (? & _ & H).
      apply bind_Ok in H. destruct H as (? & _ & H). injection H as _ <-. reflexivity.
  - cbn [app]. rewrite LastIndex_byte_notin by exact Hat.
    intros H. apply bind_Ok in H. destruct H as (h0 & Hh0 & H).
    apply parseHost_escape in Hh0. injection H as _ <-. exact Hh0.
Qed.

(** ** Package net/url: schemes *)

Lemma getSchemeLoop_unfold (rawURL : list ascii) (i : nat) (c : ascii) (s' : list ascii) :
  url.getSchemeLoop rawURL i (c :: s') =
  if letterByte c then url.getSchemeLoop rawURL (S i) s'
  else if url.inRange "0" "9" c || url.oneOf c "+-." then
    if (i =? 0)%nat then url.Ok ([], rawURL) else url.getSchemeLoop rawURL (S i) s'
  else if byte_eqb c ":" then
    if (i =? 0)%nat then url.Err (url.ErrorString "missing protocol scheme")
    else url.Ok (take i rawURL, drop (S i) rawURL)
  else url.Ok ([], rawURL).
Proof. reflexivity. Qed.

Lemma drop_cons_inv (i : nat) (l : list ascii) (c : ascii) (s' : list ascii) :
  drop i l = c :: s' -> take (S i) l = take i l ++ [c] /\ drop (S i) l = s' /\ (i < length l)%nat.
Proof.
  intros H.
  assert (Hlt : (i < length l)%nat).
  { destruct (Nat.lt_ge_cases i (length l)) as [?|Hge]; [assumption|].
    rewrite drop_ge in H by exact Hge. discriminate. }
  assert (Hl : l !! i = Some c).
  { rewrite <- (take_drop i l) at 1. rewrite H.
    rewrite lookup_app_r by (rewrite length_take; lia).
    rewrite length_take, Nat.min_l by lia. rewrite Nat.sub_diag. reflexivity. }
  split; [|split; [|exact Hlt]].
  - apply take_S_r. exact Hl.
  - rewrite <- (Nat.add_1_l i), Nat.add_comm, <- drop_drop, H. reflexivity.
Qed.

(** What [getScheme] returns: nothing taken off, or a scheme in front of
    the first colon. *)
Lemma getSchemeLoop_spec (rawURL : list ascii) :
  forall (s : list ascii) (i : nat) (sc rest : list ascii),
    drop i rawURL = s ->
    forallb schemeByte (take i rawURL) = true ->
    (i <> 0%nat -> exists c r, rawURL = c :: r /\ letterByte c = true) ->
    url.getSchemeLoop rawURL i s = url.Ok (sc, rest) ->
    (sc = [] /\ rest = rawURL)
    \/ (rawURL = sc ++ ":"%char :: rest /\ forallb schemeByte sc = true
        /\ exists c r, sc = c :: r /\ letterByte c = true).
Proof.
  induction s as [|c s' IH]; intros i sc rest Hdrop Hall Hfirst H.
  - cbn in H. injection H as <- <-. left. auto.
  - destruct (drop_cons_inv i rawURL c s' Hdrop) as (Htake & Hdrop' & Hlt).
    rewrite getSchemeLoop_unfold in H.
    assert (Hnext : schemeByte c = true -> forallb schemeByte (take (S i) rawURL) = true).
    { intros Hc. rewrite Htake, forallb_app, Hall. cbn. rewrite Hc. reflexivity. }
    destruct (letterByte c) eqn:Hletter.
    + apply (IH (S i) sc rest Hdrop'); [apply Hnext; unfold schemeByte; rewrite Hletter; reflexivity| |exact H].
      intros _. destruct i as [|i].
      * rewrite drop_0 in Hdrop. eauto.
      * apply Hfirst. lia.
    + destruct (url.inRange "0" "9" c || url.oneOf c "+-.") eqn:Hdigit.
      * destruct (i =? 0)%nat eqn:Hi; [injection H as <- <-; left; auto|].
        apply Nat.eqb_neq in Hi.
        apply (IH (S i) sc rest Hdrop');
          [apply Hnext; unfold schemeByte; rewrite Hdigit; apply orb_true_r| |exact H].
        intros _. apply Hfirst. exact Hi.
      * destruct (byte_eqb c ":") eqn:Hcolon; [|injection H as <- <-; left; auto].
        destruct (i =? 0)%nat eqn:Hi; [discriminate|]. apply Nat.eqb_neq in Hi.
        injection H as <- <-. right. apply byte_eqb_eq in Hcolon. subst c.
        split; [|split; [exact Hall|]].
        -- rewrite Hdrop'. rewrite <- Hdrop. symmetry. apply take_drop.
        -- destruct (Hfirst Hi) as (c & r & Hraw & Hc). rewrite Hraw.
           destruct i as [|i]; [congruence|]. cbn [take]. eauto.
Qed.

Lemma getScheme_spec (rawURL sc rest : list ascii) :
  url.getScheme rawURL = url.Ok (sc, rest) ->
  (sc = [] /\ rest = rawURL)
  \/ (rawURL = sc ++ ":"%char :: rest /\ forallb schemeByte sc = true
      /\ exists c r, sc = c :: r /\ letterByte c = true).
Proof.
  intros H. apply (getSchemeLoop_spec rawURL rawURL 0 sc rest); auto. congruence.
Qed.

Lemma lowerByte_letter (c : ascii) : letterByte c = true -> url.inRange "a" "z" (lowerByte c) = true.
Proof.
  revert c.
  assert (H : forall c, negb (letterByte c) || url.inRange "a" "z" (lowerByte c) = true)
    by (apply byte_forall; vm_compute; reflexivity).
  intros c Hc. specialize (H c). rewrite Hc in H. exact H.
Qed.

Lemma lowerByte_scheme (c : ascii) : schemeByte c = true -> lowerSchemeByte (lowerByte c) = true.
Proof.
  revert c.
  assert (H : forall c, negb (schemeByte c) || lowerSchemeByte (lowerByte c) = true)
    by (apply byte_forall; vm_compute; reflexivity).
  intros c Hc. specialize (H c). rewrite Hc in H. exact H.
Qed.

Lemma lowerByte_fixed (c : ascii) : lowerSchemeByte c = true -> lowerByte c = c.
Proof.
  revert c.
  assert (H : forall c, negb (lowerSchemeByte c) || byte_eqb (lowerByte c) c = true)
    by (apply byte_forall; vm_compute; reflexivity).
  intros c Hc. specialize (H c). rewrite Hc in H. apply byte_eqb_eq. exact H.
Qed.

Lemma lower_is_lowerScheme (c : ascii) : url.inRange "a" "z" c = true -> lowerSchemeByte c = true.
Proof. intros H. unfold lowerSchemeByte. rewrite H. reflexivity. Qed.

(** The scheme [parse] stores is of the stored kind. *)
Lemma storedScheme_ToLower (sc : list ascii) :
  forallb schemeByte sc = true ->
  (exists c r, sc = c :: r /\ letterByte c = true) ->
  storedScheme (ToLower sc) = true.
Proof.
  intros Hall (c & r & -> & Hc). cbn in Hall. apply andb_true_iff in Hall.
  destruct Hall as [_ Hr]. cbn. rewrite (lowerByte_letter c Hc). cbn.
  rewrite forallb_forall in *. intros x Hx. apply in_map_iff in Hx.
  destruct Hx as (y & <- & Hy). apply lowerByte_scheme. apply Hr. exact Hy.
Qed.

Lemma storedScheme_bytes (sc : list ascii) :
  storedScheme sc = true -> forallb lowerSchemeByte sc = true.
Proof.
  destruct sc as [|c r]; [reflexivity|]. cbn. intros H.
  apply andb_true_iff in H. destruct H as [Hc Hr].
  rewrite (lower_is_lowerScheme c Hc). exact Hr.
Qed.

Lemma ToLower_stored (sc : list ascii) : storedScheme sc = true -> ToLower sc = sc.
Proof.
  intros H. apply storedScheme_bytes in H. unfold ToLower.
  induction sc as [|c r IH]; [reflexivity|].
  cbn in H. apply andb_true_iff in H. destruct H as [Hc Hr].
  cbn. rewrite (lowerByte_fixed c Hc), (IH Hr). reflexivity.
Qed.

(** No byte of a stored scheme is a delimiter. *)
Lemma storedScheme_avoids (sc : list ascii) (x : ascii) :
  storedScheme sc = true -> In x sc -> ~ In x ("/?#@:*" : list ascii).
Proof.
  intros H Hin Hbad. apply storedScheme_bytes in H.
  rewrite forallb_forall in H. specialize (H x Hin).
  assert (Hc : forall c, negb (lowerSchemeByte c) || negb (url.oneOf c "/?#@:*") = true)
    by (apply byte_forall; vm_compute; reflexivity).
  specialize (Hc x). rewrite H in Hc. apply oneOf_In in Hbad. rewrite Hbad in Hc. discriminate.
Qed.

(** Reading a stored scheme back. *)
Lemma getSchemeLoop_stored (rawURL rest : list ascii) :
  forall (s : list ascii) (i : nat),
    drop i rawURL = s ++ ":"%char :: rest ->
    forallb lowerSchemeByte s = true ->
    (i = 0%nat -> exists c r, s = c :: r /\ url.inRange "a" "z" c = true) ->
    url.getSchemeLoop rawURL i (s ++ ":"%char :: rest)
    = url.Ok (take (i + length s) rawURL, rest).
Proof.
  induction s as [|c s IH]; intros i Hdrop Hall Hfirst.
  - cbn [app] in *. rewrite getSchemeLoop_unfold.
    change (letterByte ":") with false.
    change (url.inRange "0" "9" ":" || url.oneOf ":" "+-.") with false.
    rewrite byte_eqb_refl. cbv iota.
    destruct i as [|i]; [destruct (Hfirst eq_refl) as (? & ? & ? & _); discriminate|].
    cbn [Nat.eqb]. destruct (drop_cons_inv _ _ _ _ Hdrop) as (_ & -> & _).
    rewrite Nat.add_0_r. reflexivity.
  - cbn [app] in *. rewrite getSchemeLoop_unfold.
    destruct (drop_cons_inv _ _ _ _ Hdrop) as (_ & Hdrop' & _).
    cbn in Hall. apply andb_true_iff in Hall. destruct Hall as [Hc Hs].
    assert (Hgo : url.getSchemeLoop rawURL (S i) (s ++ ":"%char :: rest)
                  = url.Ok (take (i + length (c :: s)) rawURL, rest)).
    { rewrite (IH (S i) Hdrop' Hs) by (intros; lia). cbn [length].
      replace (S i + length s)%nat with (i + S (length s))%nat by lia. reflexivity. }
    destruct (letterByte c) eqn:Hletter; [exact Hgo|].
    unfold lowerSchemeByte in Hc. unfold letterByte in Hletter.
    apply orb_false_iff in Hletter. destruct Hletter as [Hlow _]. rewrite Hlow in Hc.
    cbn [orb] in Hc. rewrite Hc.
    destruct i as [|i]; [|exact Hgo].
    destruct (Hfirst eq_refl) as (c' & r & Heq & Hc'). injection Heq as <- <-. congruence.
Qed.

Lemma getScheme_stored (sc rest : list ascii) :
  storedScheme sc = true -> sc <> [] ->
  url.getScheme (sc ++ ":"%char :: rest) = url.Ok (sc, rest).
Proof.
  intros H Hne. unfold url.getScheme.
  rewrite (getSchemeLoop_stored (sc ++ ":"%char :: rest) rest sc 0).
  - cbn [Nat.add]. rewrite take_app_length. reflexivity.
  - reflexivity.
  - apply storedScheme_bytes. exact H.
  - intros _. destruct sc as [|c r]; [congruence|]. cbn in H.
    apply andb_true_iff in H. destruct H as [Hc _]. eauto.
Qed.

(** A string that starts with no scheme byte has no scheme. *)
Lemma getScheme_none (c : ascii) (s : list ascii) :
  In c ("/?" : list ascii) -> url.getScheme (c :: s) = url.Ok ([], c :: s).
Proof.
  intros Hc. unfold url.getScheme. rewrite getSchemeLoop_unfold.
  destruct Hc as [<-|[<-|[]]]; reflexivity.
Qed.

(** ** Package net/url: what [String] writes once the path is cleared *)

Lemma isEmpty_true (s : list ascii) : url.isEmpty s = true <-> s = [].
Proof. destruct s; cbn; split; intros H; first [reflexivity | discriminate]. Qed.

Lemma isEmpty_false (s : list ascii) : url.isEmpty s = false <-> s <> [].
Proof. destruct s; cbn; split; intros H; first [reflexivity | discriminate | congruence]. Qed.

Lemma bytes_eqb_eq (a b : list ascii) : url.bytes_eqb a b = true <-> a = b.
Proof. unfold url.bytes_eqb. apply bool_decide_eq_true. Qed.

Lemma EscapedPath_clear (u : url.URL) : url.EscapedPath (url.setPathField u []) = [].
Proof.
  unfold url.EscapedPath. cbn [url.Path url.RawPath url.setPathField].
  destruct (url.RawPath u) as [|c raw]; [reflexivity|].
  cbn [url.isEmpty negb andb].
  destruct (url.validEncoded (c :: raw) url.encodePath); [|reflexivity].
  destruct (url.unescape (c :: raw) url.encodePath) as [p|e] eqn:Hun; [|reflexivity].
  destruct p as [|x p]; [|reflexivity].
  exfalso. exact (unescape_nonempty _ _ _ Hun).
Qed.

(** The URL without its path is written as scheme, opaque part or
    authority, query and fragment, and nothing in between. *)
Lemma String_clear (u : url.URL) : url.String (url.setPathField u []) = pathlessText u.
Proof.
  unfold url.String. rewrite EscapedPath_clear.
  unfold pathlessText, schemeText, hierText, authorityText, userText, queryText, fragmentText,
    url.EscapedFragment.
  cbn [url.Scheme url.Opaque url.User url.Host url.Path url.OmitHost url.ForceQuery
       url.RawQuery url.Fragment url.RawFragment url.setPathField].
  cbn [list_ascii_of_string].
  change (url.isEmpty []) with true. cbn [negb andb orb].
  change (Contains (Cut [] ["/"%char]).1.1 [":"%char]) with false.
  rewrite !andb_false_r, !app_nil_r.
  destruct (url.Scheme u) as [|sc0 sc]; destruct (url.Opaque u) as [|o0 o];
    destruct (url.Host u) as [|h0 h]; destruct (url.User u) as [ui|];
    destruct (url.OmitHost u);
    cbn [url.isEmpty url.isSome negb andb orb app];
    change (url.escape [] url.encodeHost) with (@nil ascii);
    rewrite ?app_nil_r;
    destruct (url.ForceQuery u || negb (url.isEmpty (url.RawQuery u)));
    destruct (negb (url.isEmpty (url.Fragment u)));
    rewrite ?app_nil_r;
    repeat (progress (rewrite <- ?app_assoc; cbn [app])); reflexivity.
Qed.

(** ** Package net/url: the shape of a parsed URL *)

Lemma setPath_fields (url0 : url.URL) (p : list ascii) (u : url.URL) :
  url.setPath url0 p = url.Ok u ->
  sameOuter url0 u /\ url.Host u = url.Host url0 /\ url.User u = url.User url0
  /\ url.unescape p url.encodePath = url.Ok (url.Path u).
Proof.
  unfold url.setPath, sameOuter. intros H.
  apply bind_Ok in H. destruct H as (path & Hpath & H).
  destruct (url.bytes_eqb p (url.escape path url.encodePath));
    injection H as <-; cbn; rewrite Hpath; auto 10.
Qed.

Lemma setFragment_fields (url0 : url.URL) (f : list ascii) (u : url.URL) :
  url.setFragment url0 f = url.Ok u ->
  sameOuter url0 u /\ url.Host u = url.Host url0 /\ url.User u = url.User url0
  /\ url.Path u = url.Path url0.
Proof.
  unfold url.setFragment, sameOuter. intros H.
  apply bind_Ok in H. destruct H as (frag & Hfrag & H).
  destruct (url.bytes_eqb f (url.escape frag url.encodeFragment));
    injection H as <-; cbn; auto 10.
Qed.

Lemma parseAuthorityPath_outer (url0 : url.URL) (rest : list ascii) (u : url.URL) :
  url.parseAuthorityPath url0 rest false = url.Ok u -> sameOuter url0 u.
Proof.
  unfold url.parseAuthorityPath. intros H.
  apply bind_Ok in H. destruct H as ([url1 rest1] & Hh & H).
  apply setPath_fields in H. destruct H as (Hs & _).
  assert (Hs1 : sameOuter url0 url1).
  { destruct (_ && HasPrefix rest "//").
    - cbv zeta in Hh. destruct (Index (drop 2 rest) "/") as [i|].
      + apply bind_Ok in Hh. destruct Hh as ([usr host] & _ & Hh).
        injection Hh as <- <-. repeat split.
      + apply bind_Ok in Hh. destruct Hh as ([usr host] & _ & Hh).
        injection Hh as <- <-. repeat split.
    - destruct (_ && HasPrefix rest "/"); injection Hh as <- <-; repeat split. }
  unfold sameOuter in *. destruct Hs as (-> & -> & -> & ->). exact Hs1.
Qed.

Lemma parsedShape_sameOuter (u v : url.URL) :
  sameOuter u v -> url.Opaque u = [] -> storedScheme (url.Scheme u) = true ->
  ~ In "#"%char (url.RawQuery u) -> (url.ForceQuery u = true -> url.RawQuery u = []) ->
  parsedShape v.
Proof.
  unfold sameOuter, parsedShape. intros (-> & -> & -> & ->) -> Hs Hq Hf.
  split; [exact Hs|]. split; [intros []|]. split; [intros []|]. split; [reflexivity|].
  split; [congruence|]. auto.
Qed.

Lemma parseRest_shape (url0 : url.URL) (rest : list ascii) (u : url.URL) :
  url.parseRest url0 rest false = url.Ok u ->
  url.Opaque url0 = [] -> url.Host url0 = [] -> url.User url0 = None ->
  storedScheme (url.Scheme url0) = true ->
  ~ In "#"%char (url.RawQuery url0) -> (url.ForceQuery url0 = true -> url.RawQuery url0 = []) ->
  ~ In "?"%char rest -> ~ In "#"%char rest ->
  parsedShape u.
Proof.
  intros H Ho Hh Hu Hs Hq Hf Hr1 Hr2. unfold url.parseRest in H.
  destruct (HasPrefix rest "/") eqn:Hslash; cbn [negb] in H.
  - apply parseAuthorityPath_outer in H.
    exact (parsedShape_sameOuter _ _ H Ho Hs Hq Hf).
  - destruct (url.isEmpty (url.Scheme url0)) eqn:Hsc; cbn [negb] in H.
    + destruct (Contains _ _); [discriminate|].
      apply parseAuthorityPath_outer in H.
      exact (parsedShape_sameOuter _ _ H Ho Hs Hq Hf).
    + injection H as <-. unfold parsedShape. cbn.
      apply isEmpty_false in Hsc. auto 10.
Qed.

Lemma CountByte_zero (c : ascii) (s : list ascii) : CountByte s c = 0%nat -> ~ In c s.
Proof. intros H Hin. apply CountByte_in in Hin. lia. Qed.

Lemma parse_shape (pre : list ascii) (u : url.URL) :
  ~ In "#"%char pre -> url.parse pre false = url.Ok u -> parsedShape u.
Proof.
  intros Hhash H. unfold url.parse in H.
  destruct (url.stringContainsCTLByte pre); [discriminate|].
  rewrite andb_false_r in H.
  destruct (url.bytes_eqb pre "*").
  { injection H as <-. unfold parsedShape. cbn. intuition congruence. }
  apply bind_Ok in H. destruct H as ([scheme rest] & Hget & H).
  assert (Hsc : storedScheme (ToLower scheme) = true /\ ~ In "#"%char rest).
  { destruct (getScheme_spec _ _ _ Hget) as [[-> ->]|(Hpre & Hall & Hfirst)].
    - split; [reflexivity|exact Hhash].
    - split; [apply storedScheme_ToLower; assumption|].
      intros Hin. apply Hhash. rewrite Hpre. apply in_or_app. right. right. exact Hin. }
  destruct Hsc as [Hstored Hrest].
  destruct (HasSuffix rest "?" && (CountByte rest "?" =? 1)%nat) eqn:Hforce.
  - apply andb_true_iff in Hforce. destruct Hforce as [Hsuf Hcount].
    apply HasSuffix_byte in Hsuf. destruct Hsuf as [a ->].
    apply Nat.eqb_eq in Hcount. rewrite CountByte_app in Hcount. cbn in Hcount.
    rewrite length_app in H. cbn [length] in H.
    replace (length a + 1 - 1)%nat with (length a) in H by lia.
    rewrite take_app_length in H.
    apply (parseRest_shape _ _ _ H); try reflexivity; try exact Hstored.
    + intros [].
    + apply CountByte_zero. lia.
    + intros Hin. apply Hrest. apply in_or_app. left. exact Hin.
  - destruct (Cut rest "?") as [[r q] found] eqn:Hcut.
    destruct (Cut_byte_inv _ _ _ _ _ Hcut) as [Hr Hcase].
    assert (Hsub : ~ In "#"%char r /\ ~ In "#"%char q).
    { destruct Hcase as [[_ ->]|(_ & -> & ->)].
      - split; intros Hin; apply Hrest; apply in_or_app; [left|right; right]; exact Hin.
      - split; [exact Hrest|intros []]. }
    destruct Hsub as [Hr' Hq'].
    apply (parseRest_shape _ _ _ H); try reflexivity; try assumption.
    discriminate.
Qed.

(** Every URL [Parse] returns has the shape. *)
Lemma Parse_shape (s : list ascii) (u : url.URL) :
  url.Parse s = url.Ok u -> parsedShape u.
Proof.
  unfold url.Parse. destruct (Cut s "#") as [[pre frag] found] eqn:Hcut.
  destruct (Cut_byte_inv _ _ _ _ _ Hcut) as [Hpre _].
  intros H. apply bind_Ok in H. destruct H as (url0 & Hparse & H).
  pose proof (parse_shape pre url0 Hpre Hparse) as Hshape.
  destruct (url.isEmpty frag); [injection H as <-; exact Hshape|].
  apply setFragment_fields in H. destruct H as ((Hs & Ho & Hq & Hf) & Hh & Hu & _).
  unfold parsedShape in *. rewrite Hs, Ho, Hq, Hf, Hh, Hu. exact Hshape.
Qed.

(** ** Package net/url: reading the written text back *)

Lemma UserinfoString_avoids (ui : url.Userinfo) (x : ascii) :
  In x (url.UserinfoString ui) -> ~ In x ("/?#@" : list ascii).
Proof.
  unfold url.UserinfoString. intros Hin Hbad.
  assert (Hesc : forall s, In x (url.escape s url.encodeUserPassword) -> False).
  { intros s Hs. apply (escape_user_avoids _ _ Hs). cbn in *. tauto. }
  destruct (url.passwordSet ui); [|exact (Hesc _ Hin)].
  apply in_app_or in Hin. destruct Hin as [Hin|Hin]; [exact (Hesc _ Hin)|].
  apply in_app_or in Hin. destruct Hin as [Hin|Hin]; [|exact (Hesc _ Hin)].
  cbn in Hin, Hbad. intuition congruence.
Qed.

(** The authority [String] writes, without its two slashes, holds no
    slash, question mark or hash. *)
Lemma authority_avoids (u : url.URL) (x : ascii) :
  In x (userText u ++ url.escape (url.Host u) url.encodeHost) -> ~ In x ("/?#" : list ascii).
Proof.
  intros Hin Hbad. apply in_app_or in Hin. destruct Hin as [Hin|Hin].
  - unfold userText in Hin. destruct (url.User u) as [ui|]; [|destruct Hin].
    apply in_app_or in Hin. destruct Hin as [Hin|Hin].
    + apply (UserinfoString_avoids _ _ Hin). cbn in *. tauto.
    + cbn in Hin, Hbad. intuition congruence.
  - apply (escape_host_avoids _ _ Hin). cbn in *. tauto.
Qed.

Lemma authorityText_avoids (u : url.URL) (x : ascii) :
  In x (authorityText u) -> ~ In x ("?#" : list ascii).
Proof.
  unfold authorityText. intros Hin Hbad.
  destruct (url.isEmpty (url.Host u) && negb (url.isSome (url.User u))); [destruct Hin|].
  apply in_app_or in Hin. destruct Hin as [Hin|Hin].
  - cbn in Hin, Hbad. intuition congruence.
  - apply (authority_avoids _ _ Hin). cbn in *. tauto.
Qed.

Lemma hierText_avoids (u : url.URL) (x : ascii) :
  parsedShape u -> In x (hierText u) -> ~ In x ("?#" : list ascii).
Proof.
  intros (_ & Hq & Hh & _) Hin Hbad. unfold hierText in Hin.
  destruct (negb (url.isEmpty (url.Opaque u))).
  - cbn in Hbad. destruct Hbad as [<-|[<-|[]]]; contradiction.
  - exact (authorityText_avoids _ _ Hin Hbad).
Qed.

Lemma schemeText_avoids (u : url.URL) (x : ascii) :
  parsedShape u -> In x (schemeText u) -> ~ In x ("/?#*" : list ascii).
Proof.
  intros (Hs & _) Hin Hbad. unfold schemeText in Hin.
  destruct (negb (url.isEmpty (url.Scheme u))); [|destruct Hin].
  apply in_app_or in Hin. destruct Hin as [Hin|Hin].
  - apply (storedScheme_avoids _ _ Hs Hin). cbn in *. tauto.
  - cbn in Hin, Hbad. intuition congruence.
Qed.

Lemma HasPrefix_slash (s : list ascii) : ~ In "/"%char s -> HasPrefix s "/" = false.
Proof.
  destruct s as [|c s]; [reflexivity|]. intros Hn.
  change (HasPrefix (c :: s) "/") with (HasPrefix (c :: s) ["/"%char]).
  rewrite HasPrefix_byte. apply byte_eqb_neq. intros <-. apply Hn. left. reflexivity.
Qed.

Lemma setPath_empty (url0 u : url.URL) :
  url.setPath url0 [] = url.Ok u ->
  url.Path u = [] /\ url.Host u = url.Host url0 /\ sameOuter url0 u.
Proof.
  intros H. apply setPath_fields in H. destruct H as (Hs & Hh & _ & Hp).
  cbn in Hp. injection Hp as Hp. auto.
Qed.

(** Reading back an authority [String] wrote. *)
Lemma parseAuthorityPath_written (url0 u url1 : url.URL) :
  url.parseAuthorityPath url0
    ("//" ++ userText u ++ url.escape (url.Host u) url.encodeHost) false = url.Ok url1 ->
  url.Path url1 = [] /\ url.Host url1 = url.Host u /\ sameOuter url0 url1.
Proof.
  set (A := userText u ++ url.escape (url.Host u) url.encodeHost).
  assert (Hslash : ~ In "/"%char A).
  { intros Hin. apply (authority_avoids _ _ Hin). left. reflexivity. }
  unfold url.parseAuthorityPath.
  change ("//" ++ A) with ("/"%char :: "/"%char :: A).
  change (HasPrefix ("/"%char :: "/"%char :: A) "///") with (HasPrefix A "/").
  change (HasPrefix ("/"%char :: "/"%char :: A) "//") with (HasPrefix A []).
  rewrite HasPrefix_nil, (HasPrefix_slash A Hslash).
  cbn [negb andb]. rewrite orb_true_r. cbn [andb]. cbv zeta.
  change (drop 2 ("/"%char :: "/"%char :: A)) with A.
  change (Index A "/") with (Index A ["/"%char]).
  rewrite (Index_byte_notin _ _ Hslash).
  intros H. apply bind_Ok in H. destruct H as ([url2 rest] & Hh & H).
  apply bind_Ok in Hh. destruct Hh as ([usr host] & Hauth & Hh).
  injection Hh as <- <-.
  apply (parseAuthority_written (url.User u) (url.Host u)) in Hauth.
  apply setPath_empty in H. destruct H as (Hp & Hhost & Hs).
  split; [exact Hp|]. split; [rewrite Hhost; exact Hauth|]. exact Hs.
Qed.



Lemma last_in_nonempty (a q : list ascii) (c : ascii) :
  q <> [] -> (exists b, a ++ c :: q = b ++ [c]) -> In c q.
Proof.
  intros Hq [b Hb]. destruct (exists_last Hq) as (q' & x & ->).
  change (a ++ c :: q' ++ [x]) with (a ++ [c] ++ q' ++ [x]) in Hb.
  rewrite !app_assoc in Hb. apply app_inj_tail in Hb. destruct Hb as [_ ->].
  apply in_or_app. right. left. reflexivity.
Qed.

(** Splitting the query off the written text gives back the opaque part or
    authority and the query of [u]. *)
Lemma query_split_eq (url0 u : url.URL) :
  parsedShape u ->
  exists url2,
    (if HasSuffix (hierText u ++ queryText u) "?"
        && (CountByte (hierText u ++ queryText u) "?" =? 1)%nat
     then url.parseRest (url.setForceQuery url0 true)
            (take (length (hierText u ++ queryText u) - 1) (hierText u ++ queryText u)) false
     else let '(rest, query, _) := Cut (hierText u ++ queryText u) "?" in
          url.parseRest (url.setRawQuery url0 query) rest false)
    = url.parseRest url2 (hierText u) false
    /\ (url.RawQuery url0 = [] -> url.RawQuery url2 = url.RawQuery u)
    /\ url.Scheme url2 = url.Scheme url0
    /\ url.Host url2 = url.Host url0 /\ url.Path url2 = url.Path url0
    /\ url.Opaque url2 = url.Opaque url0.
Proof.
  intros Hshape.
  assert (Hh : ~ In "?"%char (hierText u)).
  { intros Hin. apply (hierText_avoids _ _ Hshape Hin). left. reflexivity. }
  destruct Hshape as (_ & _ & _ & _ & _ & _ & Hforce).
  unfold queryText in *.
  destruct (url.ForceQuery u) eqn:Hf; cbn [orb] in *.
  - rewrite (Hforce eq_refl) in *. cbn [list_ascii_of_string app].
    assert (Hsuf : HasSuffix (hierText u ++ ["?"%char]) ["?"%char] = true)
      by (apply HasSuffix_byte; eauto).
    rewrite Hsuf, CountByte_app, (CountByte_notin _ _ Hh). cbn [CountByte].
    change (byte_eqb "?" "?") with true. cbn [Nat.add Nat.eqb andb].
    rewrite length_app. cbn [length].
    replace (length (hierText u) + 1 - 1)%nat with (length (hierText u)) by lia.
    rewrite take_app_length.
    eexists. split; [reflexivity|]. cbn. auto.
  - destruct (url.RawQuery u) as [|q0 q] eqn:Hq; cbn [url.isEmpty negb];
      cbn [list_ascii_of_string app].
    + rewrite app_nil_r.
      assert (Hsuf : HasSuffix (hierText u) ["?"%char] = false).
      { destruct (HasSuffix (hierText u) ["?"%char]) eqn:Hs; [|reflexivity].
        apply HasSuffix_byte in Hs. destruct Hs as [a Ha]. exfalso. apply Hh.
        rewrite Ha. apply in_or_app. right. left. reflexivity. }
      rewrite Hsuf. cbn [andb].
      rewrite (Cut_byte_notin _ _ Hh).
      eexists. split; [reflexivity|]. cbn. auto.
    + assert (Hcond : HasSuffix (hierText u ++ "?"%char :: q0 :: q) ["?"%char]
                      && (CountByte (hierText u ++ "?"%char :: q0 :: q) "?" =? 1)%nat = false).
      { destruct (HasSuffix (hierText u ++ "?"%char :: q0 :: q) ["?"%char]) eqn:Hs;
          [|reflexivity].
        apply HasSuffix_byte in Hs.
        apply last_in_nonempty in Hs; [|discriminate].
        apply CountByte_in in Hs.
        rewrite CountByte_app. cbn [CountByte]. rewrite byte_eqb_refl.
        cbn [andb]. apply Nat.eqb_neq. cbn [CountByte] in Hs. lia. }
      rewrite Hcond.
      rewrite (Cut_byte_app _ _ _ Hh).
      eexists. split; [reflexivity|]. cbn. auto.
Qed.


(** The written text without its fragment is neither empty of scheme by
    accident nor the single star. *)
Lemma written_getScheme (u : url.URL) :
  parsedShape u ->
  url.getScheme (schemeText u ++ hierText u ++ queryText u)
  = url.Ok (url.Scheme u, hierText u ++ queryText u)
  /\ schemeText u ++ hierText u ++ queryText u <> ("*" : list ascii).
Proof.
  intros Hshape. pose proof Hshape as (Hs & _ & _ & _ & Honly & _).
  unfold schemeText. destruct (url.Scheme u) as [|c sc] eqn:Hsc; cbn [url.isEmpty negb].
  - cbn [app].
    assert (Hh : hierText u = authorityText u).
    { unfold hierText. destruct (url.Opaque u) as [|o0 o] eqn:Ho; [reflexivity|].
      destruct (Honly ltac:(discriminate)) as (Hne & _). congruence. }
    rewrite Hh. unfold authorityText, queryText.
    destruct (url.isEmpty (url.Host u) && negb (url.isSome (url.User u))).
    + destruct (url.ForceQuery u || negb (url.isEmpty (url.RawQuery u))).
      * cbn [app list_ascii_of_string]. split; [|discriminate].
        apply getScheme_none. right. left. reflexivity.
      * split; [reflexivity|discriminate].
    + cbn [app list_ascii_of_string]. split; [|discriminate].
      apply getScheme_none. left. reflexivity.
  - rewrite <- Hsc in *. rewrite <- app_assoc. cbn [list_ascii_of_string app]. split.
    + apply getScheme_stored; [exact Hs|]. rewrite Hsc. discriminate.
    + rewrite Hsc. cbn [app]. intros Heq. injection Heq as Hc Hrest.
      destruct sc; discriminate.
Qed.



(** ** Package net/url: the written text parses *)

Lemma escapeByte_hex (mode : url.encoding) (c : ascii) :
  mode <> url.encodeQueryComponent ->
  (url.escapeByte mode c = [c] /\ url.shouldEscape c mode = false)
  \/ (exists h1 h2, url.escapeByte mode c = ["%"%char; h1; h2] /\ url.hexByte h1 h2 = c
        /\ url.ishex h1 = true /\ url.ishex h2 = true /\ url.shouldEscape c mode = true).
Proof.
  intros Hm.
  assert (H : (match url.escapeByte mode c with
               | [x] => byte_eqb x c && negb (url.shouldEscape c mode)
               | [p; h1; h2] => byte_eqb p "%" && byte_eqb (url.hexByte h1 h2) c
                                && url.ishex h1 && url.ishex h2 && url.shouldEscape c mode
               | _ => false
               end) = true).
  { revert c. apply byte_forall. destruct mode; try congruence; vm_compute; reflexivity. }
  destruct (url.escapeByte mode c) as [|x [|h1 [|h2 [|? ?]]]]; try discriminate.
  - apply andb_true_iff in H. destruct H as [H1 H2].
    apply byte_eqb_eq in H1. subst x. left. split; [reflexivity|].
    apply negb_true_iff in H2. exact H2.
  - repeat (apply andb_true_iff in H; destruct H as [H ?]).
    apply byte_eqb_eq in H. subst x. right. exists h1, h2.
    match goal with Hb : byte_eqb (url.hexByte h1 h2) c = true |- _ => apply byte_eqb_eq in Hb end.
    auto 10.
Qed.

Lemma shouldEscape_percent (mode : url.encoding) : url.shouldEscape "%" mode = true.
Proof. destruct mode; reflexivity. Qed.

(** In the parts where every well-formed triple is accepted, [unescape]
    undoes [escape]. *)
Lemma unescape_escape (mode : url.encoding) (s : list ascii) :
  mode = url.encodeUserPassword \/ mode = url.encodeFragment ->
  url.unescape (url.escape s mode) mode = url.Ok s.
Proof.
  intros Hmode.
  assert (Hm : mode <> url.encodeQueryComponent) by (destruct Hmode; subst; discriminate).
  assert (Hhost : url.encoding_eqb mode url.encodeHost = false)
    by (destruct Hmode; subst; reflexivity).
  assert (Hzone : url.encoding_eqb mode url.encodeZone = false)
    by (destruct Hmode; subst; reflexivity).
  assert (Hquery : url.encoding_eqb mode url.encodeQueryComponent = false)
    by (destruct Hmode; subst; reflexivity).
  induction s as [|c s IH]; [reflexivity|].
  unfold url.escape. cbn [flat_map]. fold (url.escape s mode).
  destruct (escapeByte_hex mode c Hm) as [[-> Hc]|(h1 & h2 & -> & Hh & Hx1 & Hx2 & _)].
  - cbn [app]. rewrite unescape_unfold.
    assert (Hpc : byte_eqb c "%" = false).
    { apply byte_eqb_neq. intros ->. rewrite shouldEscape_percent in Hc. discriminate. }
    rewrite Hpc, Hhost, Hzone, Hquery, IH. cbn [orb andb mbind url.result_bind].
    destruct (byte_eqb c "+") eqn:Hplus; [|reflexivity].
    apply byte_eqb_eq in Hplus. subst c. reflexivity.
  - cbn [app]. rewrite unescape_unfold, byte_eqb_refl.
    rewrite Hx1, Hx2, Hhost, Hzone, IH, Hh. reflexivity.
Qed.

Lemma forallb_escape (mode : url.encoding) (P : ascii -> bool) (s : list ascii) :
  forallb (fun c => forallb P (url.escapeByte mode c)) allBytes = true ->
  forallb P (url.escape s mode) = true.
Proof.
  intros Hall. unfold url.escape. induction s as [|c s IH]; [reflexivity|].
  cbn [flat_map]. rewrite forallb_app, IH, andb_true_r.
  exact (byte_forall _ Hall c).
Qed.

Lemma validUserinfo_UserinfoString (ui : url.Userinfo) :
  url.validUserinfo (url.UserinfoString ui) = true.
Proof.
  assert (Hesc : forall s, url.validUserinfo (url.escape s url.encodeUserPassword) = true).
  { intros s. apply forallb_escape. vm_compute. reflexivity. }
  unfold url.UserinfoString. destruct (url.passwordSet ui); [|apply Hesc].
  unfold url.validUserinfo in *. rewrite !forallb_app, !Hesc. reflexivity.
Qed.

Lemma noCTL_app (a b : list ascii) :
  url.stringContainsCTLByte (a ++ b)
  = url.stringContainsCTLByte a || url.stringContainsCTLByte b.
Proof. apply existsb_app. Qed.

Lemma noCTL_forallb (s : list ascii) :
  forallb (fun c => negb (ctlByte c)) s = true -> url.stringContainsCTLByte s = false.
Proof.
  intros H. unfold url.stringContainsCTLByte.
  induction s as [|c s IH]; [reflexivity|].
  cbn in H. apply andb_true_iff in H. destruct H as [Hc Hs].
  cbn [existsb]. rewrite (IH Hs). apply negb_true_iff in Hc. unfold ctlByte in Hc.
  rewrite Hc. reflexivity.
Qed.

Lemma noCTL_escape (mode : url.encoding) (s : list ascii) :
  url.stringContainsCTLByte (url.escape s mode) = false.
Proof.
  apply noCTL_forallb. apply forallb_escape. destruct mode; vm_compute; reflexivity.
Qed.

Lemma noCTL_UserinfoString (ui : url.Userinfo) :
  url.stringContainsCTLByte (url.UserinfoString ui) = false.
Proof.
  unfold url.UserinfoString. destruct (url.passwordSet ui); [|apply noCTL_escape].
  rewrite !noCTL_app, !noCTL_escape. reflexivity.
Qed.

Lemma noCTL_stored (sc : list ascii) :
  storedScheme sc = true -> url.stringContainsCTLByte sc = false.
Proof.
  intros H. apply storedScheme_bytes in H. apply noCTL_forallb.
  rewrite forallb_forall in *. intros x Hx. specialize (H x Hx).
  assert (Hc : forall c, negb (lowerSchemeByte c) || negb (ctlByte c) = true)
    by (apply byte_forall; vm_compute; reflexivity).
  specialize (Hc x). rewrite H in Hc. exact Hc.
Qed.

(** A triple that [unescape] accepts in a host and that stands for an
    ASCII byte is the triple of the percent sign. *)
Lemma host_triple_ascii (h1 h2 : ascii) :
  url.ishex h1 = true -> url.ishex h2 = true ->
  (url.unhex h1 <? 8)%N && negb (byte_eqb h1 "2" && byte_eqb h2 "5") = false ->
  (N_of_ascii (url.hexByte h1 h2) <? 128)%N = true ->
  h1 = "2"%char /\ h2 = "5"%char.
Proof.
  assert (H : forall a b,
             negb (url.ishex a && url.ishex b)
             || ((url.unhex a <? 8)%N && negb (byte_eqb a "2" && byte_eqb b "5"))
             || negb (N_of_ascii (url.hexByte a b) <? 128)%N
             || (byte_eqb a "2" && byte_eqb b "5") = true).
  { assert (Hall : forall a, forallb (fun b =>
               negb (url.ishex a && url.ishex b)
               || ((url.unhex a <? 8)%N && negb (byte_eqb a "2" && byte_eqb b "5"))
               || negb (N_of_ascii (url.hexByte a b) <? 128)%N
               || (byte_eqb a "2" && byte_eqb b "5")) allBytes = true)
      by (apply byte_forall; vm_compute; reflexivity).
    intros a b. specialize (Hall a). rewrite forallb_forall in Hall.
    apply Hall. apply allBytes_complete. }
  intros Ha Hb Hc Hd. specialize (H h1 h2). rewrite Ha, Hb, Hc, Hd in H.
  cbn [andb negb orb] in H. apply andb_true_iff in H. destruct H as [H1 H2].
  apply byte_eqb_eq in H1. apply byte_eqb_eq in H2. auto.
Qed.

Lemma escapeByte_host_kept (c : ascii) :
  url.shouldEscape c url.encodeHost = false -> url.escapeByte url.encodeHost c = [c].
Proof.
  intros H. unfold url.escapeByte. rewrite H.
  change (url.encoding_eqb url.encodeHost url.encodeQueryComponent) with false.
  rewrite andb_false_r. reflexivity.
Qed.

(** An ASCII host was written as [escape] writes it. *)
Lemma unescape_ascii_host (n : nat) :
  forall (raw h : list ascii), (length raw <= n)%nat ->
    url.unescape raw url.encodeHost = url.Ok h -> asciiHost h = true ->
    raw = url.escape h url.encodeHost.
Proof.
  induction n as [|n IH]; intros raw h Hlen H Hascii.
  - destruct raw; [|cbn in Hlen; lia]. cbn in H. injection H as <-. reflexivity.
  - destruct raw as [|c raw]; [cbn in H; injection H as <-; reflexivity|].
    rewrite unescape_unfold in H.
    change (url.encoding_eqb url.encodeHost url.encodeHost) with true in H.
    change (url.encoding_eqb url.encodeHost url.encodeZone) with false in H.
    change (url.encoding_eqb url.encodeHost url.encodeQueryComponent) with false in H.
    cbn [andb orb] in H.
    destruct (byte_eqb c "%") eqn:Hc.
    + destruct raw as [|h1 [|h2 raw]]; try discriminate.
      destruct (url.ishex h1) eqn:Hx1; [|discriminate].
      destruct (url.ishex h2) eqn:Hx2; [|discriminate].
      cbn [negb orb] in H.
      destruct ((url.unhex h1 <? 8)%N && negb (byte_eqb h1 "2" && byte_eqb h2 "5")) eqn:Hlow;
        [discriminate|].
      apply bind_Ok in H. destruct H as (t & Ht & Hok). injection Hok as <-.
      cbn [asciiHost forallb] in Hascii. apply andb_true_iff in Hascii.
      destruct Hascii as [Hbyte Hascii].
      destruct (host_triple_ascii h1 h2 Hx1 Hx2 Hlow Hbyte) as [-> ->].
      apply byte_eqb_eq in Hc. subst c.
      rewrite (IH raw t) by (cbn in Hlen; auto; lia). reflexivity.
    + assert (Hkeep : forall t, url.unescape raw url.encodeHost = url.Ok t ->
                asciiHost (c :: t) = true -> url.shouldEscape c url.encodeHost = false ->
                c :: raw = url.escape (c :: t) url.encodeHost).
      { intros t Ht Ha Hs. cbn [asciiHost forallb] in Ha. apply andb_true_iff in Ha.
        destruct Ha as [_ Ha]. unfold url.escape. cbn [flat_map].
        rewrite (escapeByte_host_kept c Hs). cbn [app]. f_equal.
        apply (IH raw t); [cbn in Hlen; lia|exact Ht|exact Ha]. }
      destruct (byte_eqb c "+") eqn:Hplus.
      * apply bind_Ok in H. destruct H as (t & Ht & Hok). injection Hok as <-.
        apply byte_eqb_eq in Hplus. subst c. apply (Hkeep t Ht Hascii). reflexivity.
      * destruct ((N_of_ascii c <? 128)%N && url.shouldEscape c url.encodeHost) eqn:Hchk;
          [discriminate|].
        apply bind_Ok in H. destruct H as (t & Ht & Hok). injection Hok as <-.
        apply (Hkeep t Ht Hascii).
        cbn [asciiHost forallb] in Hascii. apply andb_true_iff in Hascii.
        destruct Hascii as [Hbyte _]. rewrite Hbyte in Hchk. exact Hchk.
Qed.

Lemma asciiHost_app (a b : list ascii) : asciiHost (a ++ b) = asciiHost a && asciiHost b.
Proof. apply forallb_app. Qed.

(** A zone identifier decodes to text that starts with a percent sign. *)
Lemma zone_starts_percent (post h : list ascii) :
  url.unescape ("%25" ++ post) url.encodeZone = url.Ok h ->
  exists t, h = "%"%char :: t /\ url.unescape post url.encodeZone = url.Ok t.
Proof.
  cbn [list_ascii_of_string app]. rewrite unescape_unfold.
  change (byte_eqb "%" "%") with true. cbv iota.
  change (url.ishex "2") with true. change (url.ishex "5") with true.
  change (url.encoding_eqb url.encodeZone url.encodeHost) with false.
  change (byte_eqb "2" "2" && byte_eqb "5" "5") with true.
  cbn [negb orb andb]. rewrite !andb_false_r. cbv iota.
  intros H. apply bind_Ok in H. destruct H as (t & Ht & Hok). injection Hok as <-.
  exists t. split; [reflexivity|exact Ht].
Qed.

(** The bytes of a decoded zone identifier: from 0x80 on, left alone by
    [escape], the percent sign or the space. *)
Lemma zone_bytes (n : nat) :
  forall (s t : list ascii), (length s <= n)%nat ->
    url.unescape s url.encodeZone = url.Ok t -> asciiHost t = true ->
    forallb zoneByte t = true.
Proof.
  induction n as [|n IH]; intros s t Hlen H Hascii.
  - destruct s; [|cbn in Hlen; lia]. cbn in H. injection H as <-. reflexivity.
  - destruct s as [|c s]; [cbn in H; injection H as <-; reflexivity|].
    rewrite unescape_unfold in H.
    change (url.encoding_eqb url.encodeZone url.encodeHost) with false in H.
    change (url.encoding_eqb url.encodeZone url.encodeZone) with true in H.
    change (url.encoding_eqb url.encodeZone url.encodeQueryComponent) with false in H.
    cbn [andb orb] in H.
    assert (Htail : forall x t', url.unescape s url.encodeZone = url.Ok t' ->
              asciiHost (x :: t') = true -> zoneByte x = true ->
              forallb zoneByte (x :: t') = true).
    { intros x t' Ht' Ha Hx. cbn [asciiHost forallb] in Ha. apply andb_true_iff in Ha.
      destruct Ha as [_ Ha]. cbn [forallb]. rewrite Hx.
      apply (IH s t'); [cbn in Hlen; lia|exact Ht'|exact Ha]. }
    destruct (byte_eqb c "%") eqn:Hc.
    + destruct s as [|h1 [|h2 s]]; try discriminate.
      destruct (negb (url.ishex h1) || negb (url.ishex h2)); [discriminate|].
      destruct (negb (byte_eqb h1 "2" && byte_eqb h2 "5")
                && negb (byte_eqb (url.hexByte h1 h2) " ")
                && url.shouldEscape (url.hexByte h1 h2) url.encodeHost) eqn:Hchk;
        [discriminate|].
      apply bind_Ok in H. destruct H as (t' & Ht' & Hok). injection Hok as <-.
      cbn [asciiHost forallb] in Hascii. apply andb_true_iff in Hascii.
      destruct Hascii as [_ Hascii]. cbn [forallb].
      rewrite (IH s t') by (cbn in Hlen; auto; lia). rewrite andb_true_r.
      unfold zoneByte.
      destruct (byte_eqb h1 "2" && byte_eqb h2 "5") eqn:H25.
      * apply andb_true_iff in H25. destruct H25 as [H2 H5].
        apply byte_eqb_eq in H2. apply byte_eqb_eq in H5. subst. reflexivity.
      * cbn [negb andb] in Hchk.
        destruct (byte_eqb (url.hexByte h1 h2) " "); [rewrite !orb_true_r; reflexivity|].
        cbn [negb andb] in Hchk. rewrite Hchk. reflexivity.
    + destruct (byte_eqb c "+") eqn:Hplus.
      * apply bind_Ok in H. destruct H as (t' & Ht' & Hok). injection Hok as <-.
        apply (Htail _ t' Ht' Hascii). reflexivity.
      * destruct ((N_of_ascii c <? 128)%N && url.shouldEscape c url.encodeHost) eqn:Hchk;
          [discriminate|].
        apply bind_Ok in H. destruct H as (t' & Ht' & Hok). injection Hok as <-.
        apply (Htail _ t' Ht' Hascii).
        cbn [asciiHost forallb] in Hascii. apply andb_true_iff in Hascii.
        destruct Hascii as [Hbyte _]. rewrite Hbyte in Hchk. cbn [andb] in Hchk.
        unfold zoneByte. rewrite Hchk. reflexivity.
Qed.

(** Such a zone identifier, written by [escape], is accepted again. *)
Lemma zone_written (t : list ascii) :
  forallb zoneByte t = true ->
  url.unescape (url.escape t url.encodeHost) url.encodeZone = url.Ok t.
Proof.
  induction t as [|c t IH]; [reflexivity|].
  cbn [forallb]. intros H. apply andb_true_iff in H. destruct H as [Hc Ht].
  specialize (IH Ht). unfold url.escape. cbn [flat_map]. fold (url.escape t url.encodeHost).
  unfold zoneByte in Hc.
  destruct (url.shouldEscape c url.encodeHost) eqn:Hs; cbn [negb orb] in Hc.
  - apply orb_true_iff in Hc. destruct Hc as [Hc|Hc]; apply byte_eqb_eq in Hc; subst c.
    + change (url.escapeByte url.encodeHost "%") with ["%"%char; "2"%char; "5"%char].
      cbn [app]. rewrite unescape_unfold.
      change (byte_eqb "%" "%") with true. cbv iota.
      change (url.ishex "2") with true. change (url.ishex "5") with true.
      change (url.encoding_eqb url.encodeZone url.encodeHost) with false.
      change (byte_eqb "2" "2" && byte_eqb "5" "5") with true.
      cbn [negb orb andb]. rewrite !andb_false_r. cbv iota. rewrite IH. reflexivity.
    + change (url.escapeByte url.encodeHost " ") with ["%"%char; "2"%char; "0"%char].
      cbn [app]. rewrite unescape_unfold.
      change (byte_eqb "%" "%") with true. cbv iota.
      change (url.ishex "2") with true. change (url.ishex "0") with true.
      change (url.encoding_eqb url.encodeZone url.encodeHost) with false.
      change (byte_eqb (url.hexByte "2" "0") " ") with true.
      cbn [negb orb andb]. rewrite !andb_false_r. cbv iota. rewrite IH. reflexivity.
  - rewrite (escapeByte_host_kept c Hs). cbn [app]. rewrite unescape_unfold.
    assert (Hpc : byte_eqb c "%" = false).
    { apply byte_eqb_neq. intros ->. rewrite shouldEscape_percent in Hs. discriminate. }
    rewrite Hpc, Hs, IH. rewrite !andb_false_r.
    change (url.encoding_eqb url.encodeZone url.encodeQueryComponent) with false.
    cbn [mbind url.result_bind].
    destruct (byte_eqb c "+") eqn:Hplus; [|reflexivity].
    apply byte_eqb_eq in Hplus. subst c. reflexivity.
Qed.

Lemma HasPrefix_app_long (x r sub : list ascii) :
  (length sub <= length x)%nat -> HasPrefix (x ++ r) sub = HasPrefix x sub.
Proof.
  revert x. induction sub as [|p sub IH]; intros x Hlen.
  - rewrite !HasPrefix_nil. reflexivity.
  - destruct x as [|c x]; [cbn in Hlen; lia|].
    cbn [app HasPrefix]. rewrite IH by (cbn in Hlen; lia). reflexivity.
Qed.

(** The first instance of [sub] stays where it is when the text after it
    changes. *)
Lemma Index_same_prefix (a sub r1 r2 : list ascii) :
  Index (a ++ sub ++ r1) sub = Some (length a) ->
  Index (a ++ sub ++ r2) sub = Some (length a).
Proof.
  induction a as [|c a IH].
  - intros _. cbn [app length]. rewrite Index_unfold.
    assert (H : HasPrefix (sub ++ r2) sub = true) by (apply HasPrefix_spec; eauto).
    rewrite H. reflexivity.
  - cbn [app length]. rewrite !(Index_unfold (c :: _)).
    change (c :: a ++ sub ++ r1) with ((c :: a) ++ sub ++ r1).
    change (c :: a ++ sub ++ r2) with ((c :: a) ++ sub ++ r2).
    rewrite !(app_assoc (c :: a) sub).
    rewrite (HasPrefix_app_long ((c :: a) ++ sub) r1), (HasPrefix_app_long ((c :: a) ++ sub) r2)
      by (rewrite length_app; lia).
    destruct (HasPrefix ((c :: a) ++ sub) sub); [discriminate|].
    destruct (Index (a ++ sub ++ r1) sub) as [j|] eqn:Hj; [|discriminate].
    cbn [fmap option_fmap option_map]. intros [= ->]. rewrite (IH eq_refl). reflexivity.
Qed.

Lemma LastIndex_byte_Some (c : ascii) (s : list ascii) (i : nat) :
  LastIndex s [c] = Some i ->
  s = take i s ++ c :: drop (S i) s /\ ~ In c (drop (S i) s).
Proof.
  revert i. induction s as [|d s IH]; intros i H; [discriminate|].
  rewrite LastIndex_unfold in H.
  destruct (LastIndex s [c]) as [j|] eqn:Hj.
  - injection H as <-. destruct (IH j eq_refl) as [Heq Hnot]. split.
    + cbn. f_equal. exact Heq.
    + exact Hnot.
  - rewrite HasPrefix_byte in H. destruct (byte_eqb c d) eqn:Hcd; [|discriminate].
    injection H as <-. apply byte_eqb_eq in Hcd. subst d. split; [reflexivity|].
    cbn. rewrite drop_0. intros Hin.
    assert (Hn : LastIndex s [c] <> None).
    { apply in_split in Hin. destruct Hin as (l1 & l2 & ->).
      clear. induction l1 as [|x l1 IHl]; cbn [app].
      - rewrite LastIndex_unfold. destruct (LastIndex l2 [c]); [discriminate|].
        rewrite HasPrefix_byte, byte_eqb_refl. discriminate.
      - rewrite LastIndex_unfold. destruct (LastIndex (l1 ++ c :: l2) [c]);
          [discriminate|contradiction]. }
    contradiction.
Qed.

(** An ASCII host that [parseHost] returned is accepted again in its
    escaped form. *)
Lemma parseHost_written_ascii (raw h : list ascii) :
  url.parseHost raw = url.Ok h -> asciiHost h = true ->
  url.parseHost (url.escape h url.encodeHost) = url.Ok h.
Proof.
  intros Hparse Hascii.
  assert (Hsame : url.unescape raw url.encodeHost = url.Ok h ->
                  url.parseHost (url.escape h url.encodeHost) = url.Ok h).
  { intros H. rewrite <- (unescape_ascii_host _ _ _ (le_n _) H Hascii). exact Hparse. }
  revert Hparse. unfold url.parseHost at 1.
  destruct (HasPrefix raw "[") eqn:Hbr.
  - destruct (LastIndex raw "]") as [i|] eqn:Hlast; [|discriminate].
    destruct (url.validOptionalPort (drop (S i) raw)) eqn:Hport; [|discriminate].
    cbn [negb].
    destruct (Index (take i raw) "%25") as [z|] eqn:Hzone; [|exact Hsame].
    intros H.
    apply bind_Ok in H. destruct H as (h1 & H1 & H).
    apply bind_Ok in H. destruct H as (h2 & H2 & H).
    apply bind_Ok in H. destruct H as (h3 & H3 & H). injection H as <-.
    rewrite !asciiHost_app in Hascii.
    apply andb_true_iff in Hascii. destruct Hascii as [Ha1 Hascii].
    apply andb_true_iff in Hascii. destruct Hascii as [Ha2 Ha3].
    destruct (Index_Some _ _ _ Hzone) as [post Hpost].
    pose proof (Index_Some_le _ _ _ Hzone) as Hle. rewrite length_take in Hle.
    assert (Hzi : (z <= i)%nat) by lia.
    assert (Hzlen : length (take z raw) = z) by (rewrite length_take; lia).
    assert (HtakeA : take z (take i raw) = take z raw)
      by (rewrite take_take, Nat.min_l by exact Hzi; reflexivity).
    rewrite HtakeA in Hpost.
    assert (Hdrop : drop z (take i raw) = "%25" ++ post).
    { rewrite Hpost at 1. rewrite drop_app_length'; [reflexivity|lia]. }
    rewrite Hdrop in H2.
    destruct (zone_starts_percent _ _ H2) as (t & -> & Ht).
    cbn [asciiHost forallb] in Ha2. apply andb_true_iff in Ha2. destruct Ha2 as [_ Ha2].
    pose proof (zone_bytes _ _ _ (le_n _) Ht Ha2) as Hzb.
    destruct (LastIndex_byte_Some _ _ _ Hlast) as [Hraw Hnot].
    assert (HT : drop i raw = "]"%char :: drop (S i) raw).
    { assert (Hi : (i < length raw)%nat).
      { pose proof (f_equal (@length ascii) Hraw) as Hlen.
        rewrite length_app, length_take in Hlen. cbn [length] in Hlen. lia. }
      rewrite Hraw at 1. rewrite drop_app_length'; [reflexivity|].
      rewrite length_take. lia. }
    pose proof (unescape_ascii_host _ _ _ (le_n _) H1 Ha1) as HA.
    pose proof (unescape_ascii_host _ _ _ (le_n _) H3 Ha3) as HT'.
    assert (HE : url.escape (h1 ++ ("%"%char :: t) ++ h3) url.encodeHost
                 = (take z raw ++ "%25" ++ url.escape t url.encodeHost)
                   ++ "]"%char :: drop (S i) raw).
    { unfold url.escape. rewrite !flat_map_app. fold (url.escape h1 url.encodeHost).
      fold (url.escape h3 url.encodeHost). rewrite <- HA, <- HT', HT.
      cbn [flat_map]. fold (url.escape t url.encodeHost).
      change (url.escapeByte url.encodeHost "%") with ("%25" : list ascii).
      rewrite <- !app_assoc. reflexivity. }
    rewrite HE. unfold url.parseHost.
    set (pre := take z raw ++ "%25" ++ url.escape t url.encodeHost).
    assert (Hopen : HasPrefix (pre ++ "]"%char :: drop (S i) raw) "[" = true).
    { assert (Hopen0 : HasPrefix (take z raw) "[" = true).
      { clear - Hbr Hpost. apply HasPrefix_spec in Hbr. destruct Hbr as [raw' ->].
        cbn [list_ascii_of_string app] in *. destruct z as [|z].
        - exfalso. destruct i; cbn in Hpost; discriminate.
        - cbn [take]. change ["["%char] with ("[" : list ascii).
          apply HasPrefix_spec. eexists. reflexivity. }
      apply HasPrefix_spec in Hopen0. destruct Hopen0 as [A' HA'].
      apply HasPrefix_spec. unfold pre. rewrite HA', <- !app_assoc. eexists. reflexivity. }
    rewrite Hopen.
    change (LastIndex (pre ++ "]"%char :: drop (S i) raw) "]")
      with (LastIndex (pre ++ "]"%char :: drop (S i) raw) ["]"%char]).
    rewrite (LastIndex_byte_app _ _ _ Hnot).
    change (pre ++ "]"%char :: drop (S i) raw)
      with (pre ++ ["]"%char] ++ drop (S i) raw).
    replace (drop (S (length pre)) (pre ++ ["]"%char] ++ drop (S i) raw))
      with (drop (S i) raw)
      by (rewrite app_assoc, drop_app_length'; [reflexivity|rewrite length_app; cbn; lia]).
    rewrite Hport. cbn [negb].
    rewrite take_app_length, drop_app_length.
    assert (Hidx : Index pre "%25" = Some z).
    { unfold pre. rewrite <- Hzlen at 2. apply (Index_same_prefix _ _ post).
      rewrite <- Hpost, Hzlen. exact Hzone. }
    rewrite Hidx.
    assert (Htk : take z (pre ++ ["]"%char] ++ drop (S i) raw) = take z raw).
    { unfold pre. rewrite <- !app_assoc. apply take_app_length'. lia. }
    assert (Hdp : drop z pre = "%25" ++ url.escape t url.encodeHost).
    { unfold pre. apply drop_app_length'. lia. }
    rewrite Htk, Hdp, H1. cbn [mbind url.result_bind].
    assert (Hz2 : url.unescape ("%25" ++ url.escape t url.encodeHost) url.encodeZone
                  = url.Ok ("%"%char :: t)).
    { change ("%25" ++ url.escape t url.encodeHost)
        with (url.escape ("%"%char :: t) url.encodeHost).
      apply zone_written. cbn [forallb]. rewrite Hzb. reflexivity. }
    rewrite Hz2. cbn [mbind url.result_bind].
    change (["]"%char] ++ drop (S i) raw) with ("]"%char :: drop (S i) raw).
    rewrite <- HT, H3. reflexivity.
  - destruct (LastIndex raw ":") as [i|].
    + cbv zeta. destruct (negb (url.validOptionalPort (drop i raw))); [discriminate|].
      exact Hsame.
    + exact Hsame.
Qed.

(** ** Package net/url: more on the shape of a parsed URL *)

Lemma noCTL_app_inv (a b : list ascii) :
  url.stringContainsCTLByte (a ++ b) = false ->
  url.stringContainsCTLByte a = false /\ url.stringContainsCTLByte b = false.
Proof. rewrite noCTL_app. apply orb_false_iff. Qed.

Lemma noCTL_cons_inv (c : ascii) (b : list ascii) :
  url.stringContainsCTLByte (c :: b) = false -> url.stringContainsCTLByte b = false.
Proof. intros H. apply (noCTL_app_inv [c] b) in H. tauto. Qed.

Lemma parseAuthority_host (authority : list ascii) (usr : option url.Userinfo) (h : list ascii) :
  url.parseAuthority authority = url.Ok (usr, h) -> exists raw, url.parseHost raw = url.Ok h.
Proof.
  unfold url.parseAuthority. destruct (LastIndex authority "@") as [i|]; intros H.
  - apply bind_Ok in H. destruct H as (h0 & Hh0 & H).
    destruct (negb (url.validUserinfo _)); [discriminate|].
    destruct (negb (Contains _ _)); [|destruct (Cut _ _) as [[uname pass] found]].
    + apply bind_Ok in H. destruct H as (? & _ & H). injection H as _ <-. eauto.
    + apply bind_Ok in H. destruct H as (? & _ & H).
      apply bind_Ok in H. destruct H as (? & _ & H). injection H as _ <-. eauto.
  - apply bind_Ok in H. destruct H as (h0 & Hh0 & H). injection H as _ <-. eauto.
Qed.

Lemma parseAuthorityPath_host (url0 : url.URL) (rest : list ascii) (u : url.URL) :
  url.parseAuthorityPath url0 rest false = url.Ok u ->
  url.Host url0 = [] -> exists raw, url.parseHost raw = url.Ok (url.Host u).
Proof.
  unfold url.parseAuthorityPath. intros H Hh0.
  apply bind_Ok in H. destruct H as ([url1 rest1] & Hh & H).
  apply setPath_fields in H. destruct H as (_ & -> & _).
  destruct (_ && HasPrefix rest "//").
  - cbv zeta in Hh. destruct (Index (drop 2 rest) "/") as [i|];
      apply bind_Ok in Hh; destruct Hh as ([usr host] & Hauth & Hh);
      injection Hh as <- <-; cbn; exact (parseAuthority_host _ _ _ Hauth).
  - destruct (_ && HasPrefix rest "/"); injection Hh as <- <-; cbn; rewrite ?Hh0;
      exists []; reflexivity.
Qed.

Lemma parseRest_clean (url0 : url.URL) (rest : list ascii) (u : url.URL) :
  url.parseRest url0 rest false = url.Ok u ->
  url.Opaque url0 = [] -> url.Host url0 = [] ->
  url.stringContainsCTLByte (url.RawQuery url0) = false ->
  url.stringContainsCTLByte rest = false ->
  parsedClean u.
Proof.
  intros H Ho Hh Hq Hr. unfold url.parseRest in H.
  assert (Hap : url.parseAuthorityPath url0 rest false = url.Ok u -> parsedClean u).
  { intros Hp. pose proof (parseAuthorityPath_outer _ _ _ Hp) as (_ & Hopq & Hqry & _).
    unfold parsedClean. rewrite Hopq, Hqry, Ho. split; [reflexivity|]. split; [exact Hq|].
    exact (parseAuthorityPath_host _ _ _ Hp Hh). }
  destruct (HasPrefix rest "/"); cbn [negb] in H; [exact (Hap H)|].
  destruct (url.isEmpty (url.Scheme url0)); cbn [negb] in H.
  - destruct (Contains _ _); [discriminate|]. exact (Hap H).
  - injection H as <-. unfold parsedClean. cbn. rewrite Hh. split; [exact Hr|].
    split; [exact Hq|]. exists []. reflexivity.
Qed.

Lemma parse_clean (pre : list ascii) (u : url.URL) :
  url.parse pre false = url.Ok u -> parsedClean u.
Proof.
  intros H. unfold url.parse in H.
  destruct (url.stringContainsCTLByte pre) eqn:Hctl; [discriminate|].
  rewrite andb_false_r in H.
  destruct (url.bytes_eqb pre "*").
  { injection H as <-. unfold parsedClean. cbn. split; [reflexivity|]. split; [reflexivity|].
    exists []. reflexivity. }
  apply bind_Ok in H. destruct H as ([scheme rest] & Hget & H).
  assert (Hrest : url.stringContainsCTLByte rest = false).
  { destruct (getScheme_spec _ _ _ Hget) as [[-> ->]|(Hpre & _)]; [exact Hctl|].
    rewrite Hpre in Hctl. apply noCTL_app_inv in Hctl. destruct Hctl as [_ Hctl].
    exact (noCTL_cons_inv _ _ Hctl). }
  destruct (HasSuffix rest "?" && (CountByte rest "?" =? 1)%nat) eqn:Hforce.
  - apply andb_true_iff in Hforce. destruct Hforce as [Hsuf _].
    apply HasSuffix_byte in Hsuf. destruct Hsuf as [a ->].
    rewrite length_app in H. cbn [length] in H.
    replace (length a + 1 - 1)%nat with (length a) in H by lia.
    rewrite take_app_length in H.
    apply noCTL_app_inv in Hrest. destruct Hrest as [Ha _].
    apply (parseRest_clean _ _ _ H); try reflexivity. exact Ha.
  - destruct (Cut rest "?") as [[r q] found] eqn:Hcut.
    destruct (Cut_byte_inv _ _ _ _ _ Hcut) as [_ Hcase].
    assert (Hsub : url.stringContainsCTLByte r = false /\ url.stringContainsCTLByte q = false).
    { destruct Hcase as [[_ ->]|(_ & -> & ->)].
      - apply noCTL_app_inv in Hrest. destruct Hrest as [Hr Hq].
        split; [exact Hr|exact (noCTL_cons_inv _ _ Hq)].
      - split; [exact Hrest|reflexivity]. }
    destruct Hsub as [Hr Hq].
    apply (parseRest_clean _ _ _ H); try reflexivity; assumption.
Qed.

Lemma Parse_clean (s : list ascii) (u : url.URL) :
  url.Parse s = url.Ok u -> parsedClean u.
Proof.
  unfold url.Parse. destruct (Cut s "#") as [[pre frag] found].
  intros H. apply bind_Ok in H. destruct H as (url0 & Hparse & H).
  pose proof (parse_clean pre url0 Hparse) as Hclean.
  destruct (url.isEmpty frag); [injection H as <-; exact Hclean|].
  apply setFragment_fields in H. destruct H as ((_ & Ho & Hq & _) & Hh & _).
  unfold parsedClean in *. rewrite Ho, Hq, Hh. exact Hclean.
Qed.

(** ** Package net/url: the written text is accepted *)

Lemma parseAuthority_written_ok (usr : option url.Userinfo) (host h : list ascii) :
  url.parseHost (url.escape host url.encodeHost) = url.Ok h ->
  exists usr',
    url.parseAuthority
      (match usr with
       | Some ui => url.UserinfoString ui ++ "@"
       | None => []
       end ++ url.escape host url.encodeHost) = url.Ok (usr', h).
Proof.
  intros Hhost.
  assert (Hat : ~ In "@"%char (url.escape host url.encodeHost)).
  { intros Hin. apply (escape_host_avoids _ _ Hin). cbn. tauto. }
  assert (Hcolon : forall s, ~ In ":"%char (url.escape s url.encodeUserPassword)).
  { intros s Hin. apply (escape_user_avoids _ _ Hin). cbn. tauto. }
  assert (Hun : forall s, url.unescape (url.escape s url.encodeUserPassword)
                            url.encodeUserPassword = url.Ok s)
    by (intros s; apply unescape_escape; left; reflexivity).
  unfold url.parseAuthority. cbn [list_ascii_of_string]. destruct usr as [ui|].
  - rewrite <- app_assoc. cbn [app].
    rewrite LastIndex_byte_app by exact Hat.
    change (url.UserinfoString ui ++ "@"%char :: url.escape host url.encodeHost)
      with (url.UserinfoString ui ++ ["@"%char] ++ url.escape host url.encodeHost).
    rewrite app_assoc, drop_app_length' by (rewrite length_app; cbn; lia).
    rewrite Hhost. cbn [mbind url.result_bind].
    rewrite <- app_assoc, take_app_length.
    rewrite validUserinfo_UserinfoString. cbn [negb].
    unfold url.UserinfoString. destruct (url.passwordSet ui).
    + assert (Hc : Contains (url.escape (url.username ui) url.encodeUserPassword ++
                             ":" ++ url.escape (url.password ui) url.encodeUserPassword)
                            [":"%char] = true).
      { apply Contains_byte. apply in_or_app. right. left. reflexivity. }
      rewrite Hc. cbn [negb]. cbn [list_ascii_of_string app].
      rewrite (Cut_byte_app _ _ _ (Hcolon _)), !Hun. eexists. reflexivity.
    + rewrite (Contains_byte_false _ _ (Hcolon _)). cbn [negb].
      rewrite Hun. eexists. reflexivity.
  - cbn [app]. rewrite LastIndex_byte_notin by exact Hat.
    rewrite Hhost. eexists. reflexivity.
Qed.

Lemma setPath_nil (url0 : url.URL) :
  url.setPath url0 [] = url.Ok (url.setRawPath (url.setPathField url0 []) []).
Proof. reflexivity. Qed.

Lemma parseAuthorityPath_written_ok (url0 u : url.URL) (h : list ascii) :
  url.parseHost (url.escape (url.Host u) url.encodeHost) = url.Ok h ->
  exists url1,
    url.parseAuthorityPath url0
      ("//" ++ userText u ++ url.escape (url.Host u) url.encodeHost) false = url.Ok url1.
Proof.
  intros Hhost.
  set (A := userText u ++ url.escape (url.Host u) url.encodeHost).
  assert (Hslash : ~ In "/"%char A).
  { intros Hin. apply (authority_avoids _ _ Hin). left. reflexivity. }
  unfold url.parseAuthorityPath.
  change ("//" ++ A) with ("/"%char :: "/"%char :: A).
  change (HasPrefix ("/"%char :: "/"%char :: A) "///") with (HasPrefix A "/").
  change (HasPrefix ("/"%char :: "/"%char :: A) "//") with (HasPrefix A []).
  rewrite HasPrefix_nil, (HasPrefix_slash A Hslash).
  cbn [negb andb]. rewrite orb_true_r. cbn [andb]. cbv zeta.
  change (drop 2 ("/"%char :: "/"%char :: A)) with A.
  change (Index A "/") with (Index A ["/"%char]).
  rewrite (Index_byte_notin _ _ Hslash).
  destruct (parseAuthority_written_ok (url.User u) (url.Host u) h Hhost) as [usr' Hauth].
  unfold A, userText. rewrite Hauth. cbn [mbind url.result_bind].
  rewrite setPath_nil. eexists. reflexivity.
Qed.

Lemma parseRest_written_ok (url0 u : url.URL) (h : list ascii) :
  parsedShape u -> url.Scheme url0 = url.Scheme u ->
  url.parseHost (url.escape (url.Host u) url.encodeHost) = url.Ok h ->
  exists url1, url.parseRest url0 (hierText u) false = url.Ok url1.
Proof.
  intros (_ & _ & _ & Hoslash & Honly & _) Hsc Hhost. unfold hierText.
  destruct (url.Opaque u) as [|o0 o] eqn:Ho; cbn [url.isEmpty negb].
  - unfold authorityText.
    destruct (url.isEmpty (url.Host u) && negb (url.isSome (url.User u))).
    + unfold url.parseRest. change (HasPrefix [] "/") with false. cbn [negb].
      change (Contains (Cut [] "/").1.1 ":") with false.
      destruct (url.isEmpty (url.Scheme url0)) eqn:Hempty; cbn [negb]; [|eauto].
      unfold url.parseAuthorityPath. rewrite Hempty.
      change (HasPrefix [] "//") with false. change (HasPrefix [] "/") with false.
      rewrite !andb_false_r. cbn [mbind url.result_bind]. rewrite setPath_nil. eauto.
    + unfold url.parseRest.
      change (HasPrefix ("//" ++ userText u ++ url.escape (url.Host u) url.encodeHost) "/")
        with true. cbn [negb].
      exact (parseAuthorityPath_written_ok url0 u h Hhost).
  - unfold url.parseRest. rewrite Hoslash. cbn [negb].
    destruct (Honly ltac:(discriminate)) as (Hne & _).
    rewrite Hsc. apply isEmpty_false in Hne. rewrite Hne. cbn [negb]. eauto.
Qed.

Lemma noCTL_written (u : url.URL) :
  parsedShape u -> parsedClean u ->
  url.stringContainsCTLByte (schemeText u ++ hierText u ++ queryText u) = false.
Proof.
  intros (Hs & _) (Ho & Hq & _).
  rewrite !noCTL_app.
  assert (H1 : url.stringContainsCTLByte (schemeText u) = false).
  { unfold schemeText. destruct (negb (url.isEmpty (url.Scheme u))); [|reflexivity].
    rewrite noCTL_app, (noCTL_stored _ Hs). reflexivity. }
  assert (H2 : url.stringContainsCTLByte (hierText u) = false).
  { unfold hierText. destruct (negb (url.isEmpty (url.Opaque u))); [exact Ho|].
    unfold authorityText.
    destruct (url.isEmpty (url.Host u) && negb (url.isSome (url.User u))); [reflexivity|].
    rewrite !noCTL_app, noCTL_escape. unfold userText.
    destruct (url.User u) as [ui|]; [|reflexivity].
    rewrite noCTL_app, noCTL_UserinfoString. reflexivity. }
  assert (H3 : url.stringContainsCTLByte (queryText u) = false).
  { unfold queryText. destruct (url.ForceQuery u || negb (url.isEmpty (url.RawQuery u)));
      [|reflexivity].
    rewrite noCTL_app, Hq. reflexivity. }
  rewrite H1, H2, H3. reflexivity.
Qed.

Lemma parse_written_ok (u : url.URL) (h : list ascii) :
  parsedShape u -> parsedClean u ->
  url.parseHost (url.escape (url.Host u) url.encodeHost) = url.Ok h ->
  exists url1, url.parse (schemeText u ++ hierText u ++ queryText u) false = url.Ok url1.
Proof.
  intros Hshape Hclean Hhost. unfold url.parse.
  rewrite (noCTL_written u Hshape Hclean), andb_false_r.
  destruct (written_getScheme u Hshape) as [Hget Hstar].
  destruct (url.bytes_eqb _ "*") eqn:Heq; [apply bytes_eqb_eq in Heq; contradiction|].
  rewrite Hget. cbn [mbind url.result_bind].
  pose proof Hshape as (Hs & _). rewrite (ToLower_stored _ Hs).
  destruct (query_split_eq (url.setScheme url.newURL (url.Scheme u)) u Hshape)
    as (url2 & -> & _ & Hsc & _).
  apply (parseRest_written_ok url2 u h Hshape); [rewrite Hsc; reflexivity|exact Hhost].
Qed.

(** The escaped fragment [String] writes is one [setFragment] accepts. *)
Lemma EscapedFragment_accepted (u : url.URL) :
  exists f, url.unescape (url.EscapedFragment u) url.encodeFragment = url.Ok f.
Proof.
  unfold url.EscapedFragment.
  destruct (negb (url.isEmpty (url.RawFragment u))
            && url.validEncoded (url.RawFragment u) url.encodeFragment).
  - destruct (url.unescape (url.RawFragment u) url.encodeFragment) as [f|e] eqn:Hun.
    + destruct (url.bytes_eqb f (url.Fragment u)); [eauto|].
      eexists. apply unescape_escape. right. reflexivity.
    + eexists. apply unescape_escape. right. reflexivity.
  - eexists. apply unescape_escape. right. reflexivity.
Qed.

Lemma setFragment_accepted (url0 u : url.URL) :
  exists url1, url.setFragment url0 (url.EscapedFragment u) = url.Ok url1.
Proof.
  destruct (EscapedFragment_accepted u) as [f Hf]. unfold url.setFragment. rewrite Hf.
  cbn [mbind url.result_bind].
  destruct (url.bytes_eqb _ _); eauto.
Qed.

(** For an ASCII host the text written for the URL without its path is a
    URL again. *)
Lemma Parse_written_ok (u : url.URL) :
  parsedShape u -> parsedClean u -> asciiHost (url.Host u) = true ->
  exists u', url.Parse (pathlessText u) = url.Ok u'.
Proof.
  intros Hshape Hclean Hplain. unfold pathlessText, url.Parse.
  set (X := schemeText u ++ hierText u ++ queryText u).
  assert (HX : ~ In "#"%char X).
  { unfold X. intros Hin.
    apply in_app_or in Hin. destruct Hin as [Hin|Hin].
    { apply (schemeText_avoids _ _ Hshape Hin). cbn. tauto. }
    apply in_app_or in Hin. destruct Hin as [Hin|Hin].
    { apply (hierText_avoids _ _ Hshape Hin). cbn. tauto. }
    unfold queryText in Hin.
    destruct (url.ForceQuery u || negb (url.isEmpty (url.RawQuery u))); [|destruct Hin].
    destruct Hshape as (_ & _ & _ & _ & _ & Hq & _).
    cbn in Hin. destruct Hin as [Hin|Hin]; [discriminate|contradiction]. }
  replace (schemeText u ++ hierText u ++ queryText u ++ fragmentText u)
    with (X ++ fragmentText u) by (unfold X; rewrite <- !app_assoc; reflexivity).
  destruct Hclean as (Ho & Hq & raw & Hraw).
  pose proof (parseHost_written_ascii raw _ Hraw Hplain) as Hhost.
  destruct (parse_written_ok u _ Hshape (conj Ho (conj Hq (ex_intro _ raw Hraw))) Hhost)
    as [url1 Hparse].
  fold X in Hparse.
  unfold fragmentText. destruct (negb (url.isEmpty (url.Fragment u))) eqn:Hfrag.
  - cbn [list_ascii_of_string app]. rewrite (Cut_byte_app "#" X _ HX).
    rewrite Hparse. cbn [mbind url.result_bind].
    destruct (url.isEmpty (url.EscapedFragment u)); [eauto|].
    apply setFragment_accepted.
  - rewrite app_nil_r. cbn [list_ascii_of_string].
    rewrite (Cut_byte_notin "#" X HX), Hparse. cbn. eauto.
Qed.

(** ** The transformer *)

(** ** Package net/url: writing, reading and writing again *)

Lemma setPath_fragment (url0 : url.URL) (p : list ascii) (u : url.URL) :
  url.setPath url0 p = url.Ok u -> url.Fragment u = url.Fragment url0.
Proof.
  unfold url.setPath. intros H.
  apply bind_Ok in H. destruct H as (path & _ & H).
  destruct (url.bytes_eqb p (url.escape path url.encodePath)); injection H as <-; reflexivity.
Qed.

Lemma parseAuthorityPath_fragment (url0 : url.URL) (rest : list ascii) (u : url.URL) :
  url.parseAuthorityPath url0 rest false = url.Ok u -> url.Fragment u = url.Fragment url0.
Proof.
  unfold url.parseAuthorityPath. intros H.
  apply bind_Ok in H. destruct H as ([url1 rest1] & Hh & H).
  apply setPath_fragment in H. rewrite H.
  destruct (_ && HasPrefix rest "//").
  - cbv zeta in Hh. destruct (Index (drop 2 rest) "/") as [i|];
      apply bind_Ok in Hh; destruct Hh as ([usr host] & _ & Hh);
      injection Hh as <- <-; reflexivity.
  - destruct (_ && HasPrefix rest "/"); injection Hh as <- <-; reflexivity.
Qed.

Lemma parseRest_fragment (url0 : url.URL) (rest : list ascii) (u : url.URL) :
  url.parseRest url0 rest false = url.Ok u -> url.Fragment u = url.Fragment url0.
Proof.
  unfold url.parseRest.
  destruct (negb (HasPrefix rest "/")); [|apply parseAuthorityPath_fragment].
  destruct (negb (url.isEmpty (url.Scheme url0))); [intros [= <-]; reflexivity|].
  destruct (Contains _ _); [discriminate|]. apply parseAuthorityPath_fragment.
Qed.

(** The user information [parseAuthority] returns for an authority
    written by [String] is written the same way again. *)
Lemma parseAuthority_written_user (usr : option url.Userinfo) (host : list ascii)
      (usr' : option url.Userinfo) (h : list ascii) :
  url.parseAuthority
    (match usr with
     | Some ui => url.UserinfoString ui ++ "@"
     | None => []
     end ++ url.escape host url.encodeHost) = url.Ok (usr', h) ->
  match usr' with
  | Some ui => url.UserinfoString ui ++ "@"
  | None => []
  end
  = match usr with
    | Some ui => url.UserinfoString ui ++ "@"
    | None => []
    end
  /\ url.isSome usr' = url.isSome usr.
Proof.
  assert (Hat : ~ In "@"%char (url.escape host url.encodeHost)).
  { intros Hin. apply (escape_host_avoids _ _ Hin). cbn. tauto. }
  assert (Hcolon : forall s, ~ In ":"%char (url.escape s url.encodeUserPassword)).
  { intros s Hin. apply (escape_user_avoids _ _ Hin). cbn. tauto. }
  unfold url.parseAuthority. cbn [list_ascii_of_string]. destruct usr as [ui|].
  - rewrite <- app_assoc. cbn [app].
    rewrite LastIndex_byte_app by exact Hat.
    rewrite take_app_length.
    intros H. apply bind_Ok in H. destruct H as (h0 & _ & H).
    destruct (negb (url.validUserinfo _)); [discriminate|].
    destruct ui as [n p ps]. unfold url.UserinfoString in *.
    cbn [url.username url.password url.passwordSet list_ascii_of_string app] in *.
    destruct ps.
    + assert (Hc : Contains (url.escape n url.encodeUserPassword
                             ++ ":"%char :: url.escape p url.encodeUserPassword) [":"%char]
                   = true).
      { apply Contains_byte. apply in_or_app. right. left. reflexivity. }
      rewrite Hc in H. cbn [negb] in H.
      rewrite (Cut_byte_app _ _ _ (Hcolon n)) in H.
      rewrite !unescape_escape in H by (left; reflexivity).
      cbn [mbind url.result_bind] in H. injection H as <- _. split; reflexivity.
    + rewrite (Contains_byte_false _ _ (Hcolon n)) in H. cbn [negb] in H.
      rewrite unescape_escape in H by (left; reflexivity).
      cbn [mbind url.result_bind] in H. injection H as <- _. split; reflexivity.
  - cbn [app]. rewrite LastIndex_byte_notin by exact Hat.
    intros H. apply bind_Ok in H. destruct H as (h0 & _ & H).
    injection H as <- _. split; reflexivity.
Qed.

Lemma parseAuthorityPath_written_user (url0 u url1 : url.URL) :
  url.parseAuthorityPath url0
    ("//" ++ userText u ++ url.escape (url.Host u) url.encodeHost) false = url.Ok url1 ->
  userText url1 = userText u /\ url.isSome (url.User url1) = url.isSome (url.User u).
Proof.
  set (A := userText u ++ url.escape (url.Host u) url.encodeHost).
  assert (Hslash : ~ In "/"%char A).
  { intros Hin. apply (authority_avoids _ _ Hin). left. reflexivity. }
  unfold url.parseAuthorityPath.
  change ("//" ++ A) with ("/"%char :: "/"%char :: A).
  change (HasPrefix ("/"%char :: "/"%char :: A) "///") with (HasPrefix A "/").
  change (HasPrefix ("/"%char :: "/"%char :: A) "//") with (HasPrefix A []).
  rewrite HasPrefix_nil, (HasPrefix_slash A Hslash).
  cbn [negb andb]. rewrite orb_true_r. cbn [andb]. cbv zeta.
  change (drop 2 ("/"%char :: "/"%char :: A)) with A.
  change (Index A "/") with (Index A ["/"%char]).
  rewrite (Index_byte_notin _ _ Hslash).
  intros H. apply bind_Ok in H. destruct H as ([url2 rest] & Hh & H).
  apply bind_Ok in Hh. destruct Hh as ([usr host] & Hauth & Hh).
  injection Hh as <- <-.
  apply (parseAuthority_written_user (url.User u) (url.Host u)) in Hauth.
  apply setPath_fields in H. destruct H as (_ & _ & Hu & _).
  unfold userText. rewrite Hu. exact Hauth.
Qed.

(** Reading back the opaque part or the authority gives a URL for which
    the same is written. *)
Lemma parseRest_written_text (url0 u url1 : url.URL) :
  parsedShape u ->
  url.Scheme url0 = url.Scheme u -> url.Host url0 = [] -> url.User url0 = None ->
  url.Opaque url0 = [] ->
  url.parseRest url0 (hierText u) false = url.Ok url1 ->
  hierText url1 = hierText u
  /\ url.Scheme url1 = url.Scheme url0 /\ url.RawQuery url1 = url.RawQuery url0
  /\ url.ForceQuery url1 = url.ForceQuery url0.
Proof.
  intros (_ & _ & _ & Hoslash & Honly & _) Hsc Hhost Huser Hopq. unfold hierText at 1 3.
  destruct (url.Opaque u) as [|o0 o] eqn:Ho; cbn [url.isEmpty negb].
  - unfold authorityText.
    destruct (url.isEmpty (url.Host u) && negb (url.isSome (url.User u))) eqn:Hnone.
    + unfold url.parseRest. change (HasPrefix [] "/") with false. cbn [negb].
      change (Contains (Cut [] "/").1.1 ":") with false.
      assert (Hempty : forall v : url.URL,
                url.Opaque v = [] -> url.Host v = [] -> url.User v = None -> hierText v = []).
      { intros v Hvo Hvh Hvu. unfold hierText, authorityText. rewrite Hvo, Hvh, Hvu.
        reflexivity. }
      destruct (url.isEmpty (url.Scheme url0)) eqn:Hsch; cbn [negb].
      * unfold url.parseAuthorityPath. apply isEmpty_true in Hsch. rewrite Hsch.
        change (HasPrefix [] "//") with false. change (HasPrefix [] "/") with false.
        rewrite !andb_false_r. intros H. apply setPath_fields in H.
        destruct H as ((Hs & Hop & Hq & Hf) & Hh & Hu & _).
        split; [apply Hempty; congruence|]. split; [congruence|auto].
      * intros [= <-]. split; [apply Hempty; cbn; auto|]. cbn. auto.
    + unfold url.parseRest.
      change (HasPrefix ("//" ++ userText u ++ url.escape (url.Host u) url.encodeHost) "/")
        with true. cbn [negb].
      intros H. pose proof (parseAuthorityPath_written_user _ _ _ H) as [Hut Hus].
      apply parseAuthorityPath_written in H.
      destruct H as (Hp & Hh' & (Hs & Hop & Hq & Hf)).
      split; [|auto].
      unfold hierText, authorityText. rewrite Hop, Hopq, Hh', Hus, Hnone, Hut.
      reflexivity.
  - unfold url.parseRest. rewrite Hoslash. cbn [negb].
    destruct (Honly ltac:(discriminate)) as (Hne & Hh & _).
    rewrite Hsc. apply isEmpty_false in Hne. rewrite Hne. cbn [negb].
    intros [= <-]. split; [reflexivity|]. cbn. auto.
Qed.

(** Splitting the query off the written text, with the URL that goes on
    to [parseRest] named. *)
Lemma query_split_named (url0 u : url.URL) :
  parsedShape u ->
  (if HasSuffix (hierText u ++ queryText u) "?"
      && (CountByte (hierText u ++ queryText u) "?" =? 1)%nat
   then url.parseRest (url.setForceQuery url0 true)
          (take (length (hierText u ++ queryText u) - 1) (hierText u ++ queryText u)) false
   else let '(rest, query, _) := Cut (hierText u ++ queryText u) "?" in
        url.parseRest (url.setRawQuery url0 query) rest false)
  = url.parseRest (if url.ForceQuery u then url.setForceQuery url0 true
                   else url.setRawQuery url0 (url.RawQuery u)) (hierText u) false.
Proof.
  intros Hshape.
  assert (Hh : ~ In "?"%char (hierText u)).
  { intros Hin. apply (hierText_avoids _ _ Hshape Hin). left. reflexivity. }
  destruct Hshape as (_ & _ & _ & _ & _ & _ & Hforce).
  unfold queryText in *.
  destruct (url.ForceQuery u) eqn:Hf; cbn [orb] in *.
  - rewrite (Hforce eq_refl) in *. cbn [list_ascii_of_string app].
    assert (Hsuf : HasSuffix (hierText u ++ ["?"%char]) ["?"%char] = true)
      by (apply HasSuffix_byte; eauto).
    rewrite Hsuf, CountByte_app, (CountByte_notin _ _ Hh). cbn [CountByte].
    change (byte_eqb "?" "?") with true. cbn [Nat.add Nat.eqb andb].
    rewrite length_app. cbn [length].
    replace (length (hierText u) + 1 - 1)%nat with (length (hierText u)) by lia.
    rewrite take_app_length. reflexivity.
  - destruct (url.RawQuery u) as [|q0 q] eqn:Hq; cbn [url.isEmpty negb];
      cbn [list_ascii_of_string app].
    + rewrite app_nil_r.
      assert (Hsuf : HasSuffix (hierText u) ["?"%char] = false).
      { destruct (HasSuffix (hierText u) ["?"%char]) eqn:Hs; [|reflexivity].
        apply HasSuffix_byte in Hs. destruct Hs as [a Ha]. exfalso. apply Hh.
        rewrite Ha. apply in_or_app. right. left. reflexivity. }
      rewrite Hsuf. cbn [andb].
      rewrite (Cut_byte_notin _ _ Hh). reflexivity.
    + assert (Hcond : HasSuffix (hierText u ++ "?"%char :: q0 :: q) ["?"%char]
                      && (CountByte (hierText u ++ "?"%char :: q0 :: q) "?" =? 1)%nat = false).
      { destruct (HasSuffix (hierText u ++ "?"%char :: q0 :: q) ["?"%char]) eqn:Hs;
          [|reflexivity].
        apply HasSuffix_byte in Hs.
        apply last_in_nonempty in Hs; [|discriminate].
        apply CountByte_in in Hs.
        rewrite CountByte_app. cbn [CountByte]. rewrite byte_eqb_refl.
        cbn [andb]. apply Nat.eqb_neq. cbn [CountByte] in Hs. lia. }
      rewrite Hcond.
      rewrite (Cut_byte_app _ _ _ Hh). reflexivity.
Qed.

Lemma parse_written_text (u url1 : url.URL) :
  parsedShape u ->
  url.parse (schemeText u ++ hierText u ++ queryText u) false = url.Ok url1 ->
  schemeText url1 ++ hierText url1 ++ queryText url1
  = schemeText u ++ hierText u ++ queryText u
  /\ url.Fragment url1 = []
  /\ hierText url1 = hierText u.
Proof.
  intros Hshape H. unfold url.parse in H.
  destruct (url.stringContainsCTLByte _); [discriminate|].
  rewrite andb_false_r in H.
  destruct (written_getScheme u Hshape) as [Hget Hstar].
  destruct (url.bytes_eqb _ "*") eqn:Heq; [apply bytes_eqb_eq in Heq; contradiction|].
  rewrite Hget in H. cbn [mbind url.result_bind] in H.
  pose proof Hshape as (Hs & _ & _ & _ & _ & _ & Hforce).
  rewrite (ToLower_stored _ Hs) in H.
  rewrite (query_split_named _ u Hshape) in H.
  set (url2 := if url.ForceQuery u then _ else _) in H.
  assert (H2 : url.Scheme url2 = url.Scheme u /\ url.Host url2 = [] /\ url.User url2 = None
               /\ url.Opaque url2 = [] /\ url.Fragment url2 = []
               /\ url.ForceQuery url2 = url.ForceQuery u
               /\ url.RawQuery url2 = url.RawQuery u).
  { unfold url2. destruct (url.ForceQuery u) eqn:Hf.
    - rewrite (Hforce eq_refl). cbn. auto 10.
    - cbn. auto 10. }
  destruct H2 as (Hsc & Hh & Hu & Ho & Hfr & Hfq & Hrq).
  pose proof (parseRest_fragment _ _ _ H) as Hfrag.
  apply (parseRest_written_text url2 u url1 Hshape Hsc Hh Hu Ho) in H.
  destruct H as (Hhier & Hs1 & Hq1 & Hf1).
  split; [|split; [congruence|exact Hhier]].
  unfold schemeText, queryText. rewrite Hhier, Hs1, Hq1, Hf1, Hsc, Hfq, Hrq. reflexivity.
Qed.

Lemma escape_nonempty (mode : url.encoding) (c : ascii) (s : list ascii) :
  url.escape (c :: s) mode <> [].
Proof.
  unfold url.escape. cbn [flat_map]. intros H. apply app_eq_nil in H. destruct H as [H _].
  revert H. unfold url.escapeByte.
  destruct (byte_eqb c " " && url.encoding_eqb mode url.encodeQueryComponent);
    [discriminate|].
  destruct (url.shouldEscape c mode); discriminate.
Qed.

Lemma EscapedFragment_nonempty (u : url.URL) :
  url.Fragment u <> [] -> url.EscapedFragment u <> [].
Proof.
  intros Hf. unfold url.EscapedFragment.
  assert (He : url.escape (url.Fragment u) url.encodeFragment <> []).
  { destruct (url.Fragment u) as [|c s]; [congruence|]. apply escape_nonempty. }
  destruct (url.RawFragment u) as [|r0 r] eqn:Hr; cbn [url.isEmpty negb andb]; [exact He|].
  destruct (url.validEncoded (r0 :: r) url.encodeFragment); [|exact He].
  destruct (url.unescape (r0 :: r) url.encodeFragment) as [f|e]; [|exact He].
  destruct (url.bytes_eqb f (url.Fragment u)); [discriminate|exact He].
Qed.

(** The fragment [String] writes, set again, is written the same way. *)
Lemma setFragment_written (url1 u u' : url.URL) :
  url.Fragment u <> [] ->
  url.setFragment url1 (url.EscapedFragment u) = url.Ok u' ->
  url.Fragment u' <> [] /\ url.EscapedFragment u' = url.EscapedFragment u.
Proof.
  intros Hf H. pose proof (EscapedFragment_nonempty u Hf) as Hne.
  unfold url.setFragment in H.
  apply bind_Ok in H. destruct H as (frag & Hfrag & H).
  assert (Hfne : frag <> []).
  { destruct (url.EscapedFragment u) as [|c s] eqn:HF; [congruence|].
    intros ->. exact (unescape_nonempty _ _ _ Hfrag). }
  destruct (url.bytes_eqb (url.EscapedFragment u) (url.escape frag url.encodeFragment)) eqn:Heq;
    injection H as <-; cbn [url.Fragment url.setFragmentFields]; (split; [exact Hfne|]).
  - apply bytes_eqb_eq in Heq. unfold url.EscapedFragment at 1.
    cbn [url.RawFragment url.Fragment url.setFragmentFields url.isEmpty negb andb].
    symmetry. exact Heq.
  - assert (Hvalid : url.validEncoded (url.EscapedFragment u) url.encodeFragment = true).
    { revert Heq Hfrag. unfold url.EscapedFragment.
      assert (Hesc : url.unescape (url.escape (url.Fragment u) url.encodeFragment)
                       url.encodeFragment = url.Ok frag ->
                     url.bytes_eqb (url.escape (url.Fragment u) url.encodeFragment)
                       (url.escape frag url.encodeFragment) = false -> False).
      { rewrite unescape_escape by (right; reflexivity). intros [= <-] Hb.
        assert (Ht : url.bytes_eqb (url.escape (url.Fragment u) url.encodeFragment)
                       (url.escape (url.Fragment u) url.encodeFragment) = true)
          by (apply bytes_eqb_eq; reflexivity).
        congruence. }
      destruct (negb (url.isEmpty (url.RawFragment u))
                && url.validEncoded (url.RawFragment u) url.encodeFragment) eqn:Hcond.
      - apply andb_true_iff in Hcond. destruct Hcond as [_ Hv].
        destruct (url.unescape (url.RawFragment u) url.encodeFragment) as [f|e].
        + destruct (url.bytes_eqb f (url.Fragment u)); [intros _ _; exact Hv|].
          intros Hb Hun. destruct (Hesc Hun Hb).
        + intros Hb Hun. destruct (Hesc Hun Hb).
      - intros Hb Hun. destruct (Hesc Hun Hb). }
    unfold url.EscapedFragment at 1.
    cbn [url.RawFragment url.Fragment url.setFragmentFields].
    apply isEmpty_false in Hne. rewrite Hne, Hvalid, Hfrag. cbn [negb andb].
    assert (Ht : url.bytes_eqb frag frag = true) by (apply bytes_eqb_eq; reflexivity).
    rewrite Ht. reflexivity.
Qed.

(** The text written for a URL without its path, read by [Parse] and
    written again, is the same text. *)
Lemma Parse_written_text (u u' : url.URL) :
  parsedShape u ->
  url.Parse (pathlessText u) = url.Ok u' ->
  pathlessText u' = pathlessText u /\ hierText u' = hierText u.
Proof.
  intros Hshape. unfold url.Parse. unfold pathlessText at 1 3.
  set (X := schemeText u ++ hierText u ++ queryText u).
  assert (HX : ~ In "#"%char X).
  { unfold X. intros Hin.
    apply in_app_or in Hin. destruct Hin as [Hin|Hin].
    { apply (schemeText_avoids _ _ Hshape Hin). cbn. tauto. }
    apply in_app_or in Hin. destruct Hin as [Hin|Hin].
    { apply (hierText_avoids _ _ Hshape Hin). cbn. tauto. }
    unfold queryText in Hin.
    destruct (url.ForceQuery u || negb (url.isEmpty (url.RawQuery u))); [|destruct Hin].
    destruct Hshape as (_ & _ & _ & _ & _ & Hq & _).
    cbn in Hin. destruct Hin as [Hin|Hin]; [discriminate|contradiction]. }
  replace (schemeText u ++ hierText u ++ queryText u ++ fragmentText u)
    with (X ++ fragmentText u) by (unfold X; rewrite <- !app_assoc; reflexivity).
  assert (Htext : forall v : url.URL,
            pathlessText v = (schemeText v ++ hierText v ++ queryText v) ++ fragmentText v).
  { intros v. unfold pathlessText. rewrite <- !app_assoc. reflexivity. }
  rewrite Htext.
  unfold fragmentText at 1 3.
  destruct (url.Fragment u) as [|f0 f] eqn:Hf; cbn [url.isEmpty negb].
  - cbn [list_ascii_of_string]. rewrite !app_nil_r, (Cut_byte_notin "#" X HX).
    cbn [url.isEmpty].
    intros H. apply bind_Ok in H. destruct H as (url1 & Hparse & H). injection H as <-.
    apply (parse_written_text u url1 Hshape) in Hparse.
    destruct Hparse as (Ht & Hfr & Hhier).
    split; [|exact Hhier].
    rewrite Ht. unfold fragmentText. rewrite Hfr. cbn [url.isEmpty negb].
    rewrite app_nil_r. reflexivity.
  - cbn [list_ascii_of_string app]. rewrite (Cut_byte_app "#" X _ HX).
    intros H. apply bind_Ok in H. destruct H as (url1 & Hparse & H).
    apply (parse_written_text u url1 Hshape) in Hparse.
    destruct Hparse as (Ht & Hfr & Hhier).
    assert (Hne : url.EscapedFragment u <> []) by (apply EscapedFragment_nonempty; congruence).
    apply isEmpty_false in Hne. rewrite Hne in H.
    pose proof (setFragment_fields _ _ _ H) as ((Hs & Ho & Hq & Hfq) & Hh & Hu & _).
    apply setFragment_written in H; [|congruence]. destruct H as [Hfn HE].
    assert (Hsame : schemeText u' ++ hierText u' ++ queryText u'
                    = schemeText url1 ++ hierText url1 ++ queryText url1).
    { unfold schemeText, hierText, authorityText, userText, queryText.
      rewrite Hs, Ho, Hq, Hfq, Hh, Hu. reflexivity. }
    split.
    + rewrite Hsame, Ht. unfold fragmentText.
      apply isEmpty_false in Hfn. rewrite Hfn, HE. reflexivity.
    + rewrite <- Hhier. unfold hierText, authorityText, userText.
      rewrite Ho, Hh, Hu. reflexivity.
Qed.





(* ------------------------------------------------------------------ *)
(** * Further properties of the program *)

(** ** The loop of [main] *)

Lemma allParse_cons (ev : RecvResult) (events : list RecvResult) :
  allParse (ev :: events) = true ->
  allParse events = true
  /\ exists u, ev = RecvURL u /\ (isAudioURL u = false \/ exists p, url.Parse u = url.Ok p).
Proof.
  unfold allParse. cbn [forallb]. intros H. apply andb_true_iff in H as [H1 H2].
  split; [exact H2|]. destruct ev as [u|]; [|discriminate].
  exists u. split; [reflexivity|].
  apply orb_true_iff in H1 as [H1|H1].
  - left. apply negb_true_iff. exact H1.
  - right. unfold parses in H1. destruct (url.Parse u) as [p|e]; [eauto|discriminate].
Qed.

Lemma responseLoop_jobs (E : Env) (events : list RecvResult) :
  forall w : World,
    allParse events = true ->
    exists w',
      responseLoop E events w = (Ret tt, w')
      /\ (randCalls w <= randCalls w')%nat
      /\ started w' = started w ++ combine (map transformed (audioURLs events))
                                           (map targetPath (drawn E w w'))
      /\ length (drawn E w w') = length (audioURLs events)
      /\ logs w' = logs w.
Proof.
  induction events as [|ev events IH]; intros w Hall.
  - exists w. split; [reflexivity|]. split; [lia|].
    rewrite drawn_same by reflexivity. cbn. rewrite app_nil_r. auto.
  - destruct (allParse_cons ev events Hall) as (Hall' & u & -> & Hu).
    destruct (isAudioURL u) eqn:Ha.
    + destruct Hu as [Hu|[p Hp]]; [discriminate|].
      rewrite (responseLoop_step E u events p w Ha Hp).
      set (w2 := afterEnqueue _ _ _).
      destruct (IH w2 Hall') as (w' & Hrun & Hle & Hst & Hlen & Hlog).
      assert (Hrc : randCalls w2 = S (randCalls w)) by reflexivity.
      exists w'. split; [exact Hrun|]. split; [lia|].
      rewrite (drawn_step E w w2 w') by (auto; lia).
      unfold audioURLs. cbn [flat_map]. rewrite Ha. cbn [app map combine length].
      fold (audioURLs events). split; [|split].
      * rewrite Hst. unfold w2 at 1, afterEnqueue, started.
        cbn [goroutines setGoroutines setVars]. rewrite map_app. cbn [map].
        rewrite <- app_assoc. cbn [app]. unfold transformed at 2. rewrite Hp. reflexivity.
      * rewrite Hlen. reflexivity.
      * rewrite Hlog. reflexivity.
    + rewrite (responseLoop_skip E u events w Ha).
      destruct (IH w Hall') as (w' & Hrun & Hle & Hst & Hlen & Hlog).
      exists w'. unfold audioURLs. cbn [flat_map]. rewrite Ha. cbn [app].
      fold (audioURLs events). auto.
Qed.

(** X2: when every Recv yields a response and every URL of the
    classifier's kind parses, the loop of main.go returns and has started
    exactly one goroutine for each such URL and none for the others, in
    the order of arrival: each with the URL toDownloadableURL makes of it
    as its source and DL- followed by the next value of rand.Int as its
    target; nothing is logged. *)
Theorem X2_loop_starts_one_job_per_audio_URL
        (E : Env) (events : list RecvResult) (w : World) :
  allParse events = true ->
  exists w',
    responseLoop E events w = (Ret tt, w')
    /\ started w' = started w ++ combine (map transformed (audioURLs events))
                                         (map targetPath (drawn E w w'))
    /\ length (goroutines w') = (length (goroutines w) + length (audioURLs events))%nat
    /\ length (drawn E w w') = length (audioURLs events)
    /\ logs w' = logs w.
Proof.
  intros Hall.
  destruct (responseLoop_jobs E events w Hall) as (w' & Hrun & _ & Hst & Hlen & Hlog).
  exists w'. split; [exact Hrun|]. split; [exact Hst|]. split; [|auto].
  apply (f_equal (@length _)) in Hst. unfold started in Hst.
  rewrite length_app, !length_map in Hst. rewrite Hst.
  rewrite length_combine, !length_map, Hlen. lia.
Qed.

Lemma X2_loop_starts_one_job_per_audio_URL_witness :
  exists w',
    responseLoop envRepeat (RecvURL "https://media.example/index.html" :: twoSegments) emptyWorld
    = (Ret tt, w')
    /\ started w' = [("https://media.example?id=5" : list ascii, "DL-7" : list ascii);
                     ("https://media.example?id=6" : list ascii, "DL-7" : list ascii)]
    /\ length (goroutines w') = 2%nat
    /\ logs w' = [].
Proof.
  destruct (X2_loop_starts_one_job_per_audio_URL envRepeat
              (RecvURL "https://media.example/index.html" :: twoSegments) emptyWorld)
    as (w' & Hrun & Hst & Hlen & _ & Hlog); [vm_compute; reflexivity|].
  exists w'. split; [exact Hrun|].
  assert (Hw : w' = (responseLoop envRepeat
                       (RecvURL "https://media.example/index.html" :: twoSegments)
                       emptyWorld).2) by (rewrite Hrun; reflexivity).
  split; [|split; [exact Hlen | exact Hlog]].
  rewrite Hw. vm_compute. reflexivity.
Defined.

Lemma responseLoop_frame (E : Env) (events : list RecvResult) :
  forall w : World,
    let w' := (responseLoop E events w).2 in
    files w' = files w /\ requests w' = requests w /\ queued w' = queued w
    /\ submissions w' = submissions w /\ attempts w' = attempts w
    /\ slept w' = slept w /\ chrome w' = chrome w
    /\ (exists ext, vars w' = vars w ++ ext)
    /\ (exists ext, goroutines w' = goroutines w ++ ext)
    /\ (exists ext, logs w' = logs w ++ ext).
Proof.
  assert (Hrefl : forall w : World,
            files w = files w /\ requests w = requests w /\ queued w = queued w
            /\ submissions w = submissions w /\ attempts w = attempts w
            /\ slept w = slept w /\ chrome w = chrome w
            /\ (exists ext, vars w = vars w ++ ext)
            /\ (exists ext, goroutines w = goroutines w ++ ext)
            /\ (exists ext, logs w = logs w ++ ext)).
  { intros w. repeat (split; [reflexivity|]).
    repeat split; exists []; rewrite app_nil_r; reflexivity. }
  induction events as [|[u|] events IH]; intros w; cbv zeta.
  - apply Hrefl.
  - destruct (isAudioURL u) eqn:Ha.
    + destruct (url.Parse u) as [p|e] eqn:Hp.
      * rewrite (responseLoop_step E u _ p w Ha Hp).
        set (w2 := afterEnqueue _ _ _).
        destruct (IH w2) as (Hf & Hr & Hq & Hs & Ha' & Hsl & Hc & [e1 Hv] & [e2 Hg] & [e3 Hl]).
        cbv zeta in *.
        rewrite Hf, Hr, Hq, Hs, Ha', Hsl, Hc, Hv, Hg, Hl.
        repeat (split; [reflexivity|]).
        unfold w2, afterEnqueue. cbn [vars goroutines logs setGoroutines setVars setRandCalls].
        repeat split; eexists; rewrite <- ?app_assoc; reflexivity.
      * rewrite (responseLoop_fatal E u _ e w Ha Hp). cbn [snd].
        cbn [files requests queued submissions attempts slept chrome vars goroutines logs setLogs].
        repeat (split; [reflexivity|]).
        split; [exists []; rewrite app_nil_r; reflexivity|].
        split; [exists []; rewrite app_nil_r; reflexivity|].
        eexists. reflexivity.
    + rewrite (responseLoop_skip E u _ w Ha). apply IH.
  - cbn.
    repeat (split; [reflexivity|]).
    split; [exists []; rewrite app_nil_r; reflexivity|].
    split; [exists []; rewrite app_nil_r; reflexivity|].
    eexists. reflexivity.
Qed.

(** X3: the loop of main.go itself creates no file, sends no request and
    submits nothing to the pool, whatever it receives and however it
    ends: files, requests, the pool's queue and the count of QueueTask
    calls are as before.  It only adds goroutines, variables and log
    lines to those that exist. *)
Theorem X3_loop_does_no_io (E : Env) (events : list RecvResult) (w : World) :
  let w' := (responseLoop E events w).2 in
  files w' = files w /\ requests w' = requests w /\ queued w' = queued w
  /\ submissions w' = submissions w
  /\ (exists ext, vars w' = vars w ++ ext)
  /\ (exists ext, goroutines w' = goroutines w ++ ext)
  /\ (exists ext, logs w' = logs w ++ ext).
Proof.
  destruct (responseLoop_frame E events w) as (Hf & Hr & Hq & Hs & _ & _ & _ & Hv & Hg & Hl).
  cbv zeta. auto 10.
Qed.

Lemma allReceived_cons (ev : RecvResult) (events : list RecvResult) :
  allReceived (ev :: events) = true ->
  allReceived events = true /\ exists u, ev = RecvURL u.
Proof.
  unfold allReceived. cbn [forallb]. intros H. apply andb_true_iff in H as [H1 H2].
  split; [exact H2|]. destruct ev as [u|]; [eauto|discriminate].
Qed.

Lemma responseLoop0_jobs (E : Env) (events : list RecvResult) :
  forall w : World,
    allReceived events = true ->
    exists w',
      narr0.responseLoop E events w = (Ret tt, w')
      /\ (randCalls w <= randCalls w')%nat
      /\ started w' = started w ++ combine (audioURLs events) (map targetPath (drawn E w w'))
      /\ length (drawn E w w') = length (audioURLs events)
      /\ logs w' = logs w.
Proof.
  induction events as [|ev events IH]; intros w Hall.
  - exists w. split; [reflexivity|]. split; [lia|].
    rewrite drawn_same by reflexivity. cbn. rewrite app_nil_r. auto.
  - destruct (allReceived_cons ev events Hall) as (Hall' & u & ->).
    destruct (isAudioURL u) eqn:Ha.
    + rewrite (responseLoop0_step E u events w Ha).
      set (w2 := setGoroutines _ _).
      destruct (IH w2 Hall') as (w' & Hrun & Hle & Hst & Hlen & Hlog).
      assert (Hrc : randCalls w2 = S (randCalls w)) by reflexivity.
      exists w'. split; [exact Hrun|]. split; [lia|].
      rewrite (drawn_step E w w2 w') by (auto; lia).
      unfold audioURLs. cbn [flat_map]. rewrite Ha. cbn [app map combine length].
      fold (audioURLs events). split; [|split].
      * rewrite Hst. unfold w2 at 1, started.
        cbn [goroutines setGoroutines setRandCalls]. rewrite map_app. cbn [map].
        rewrite <- app_assoc. reflexivity.
      * rewrite Hlen. reflexivity.
      * rewrite Hlog. reflexivity.
    + cbn [narr0.responseLoop]. change (narr0.isAudioURL u) with (isAudioURL u).
      rewrite Ha. cbn [negb].
      destruct (IH w Hall') as (w' & Hrun & Hle & Hst & Hlen & Hlog).
      exists w'. unfold audioURLs. cbn [flat_map]. rewrite Ha. cbn [app].
      fold (audioURLs events). auto.
Qed.

(** X4: the loop of the earlier variant never parses a URL: as long as
    Recv yields responses it returns, whatever the URLs are, also for one
    url.Parse refuses, and starts one goroutine for each URL of the
    classifier's kind with the URL as received as its source. *)
Theorem X4_earlier_loop_passes_URLs_unparsed
        (E : Env) (events : list RecvResult) (w : World) :
  allReceived events = true ->
  exists w',
    narr0.responseLoop E events w = (Ret tt, w')
    /\ started w' = started w ++ combine (audioURLs events) (map targetPath (drawn E w w'))
    /\ length (drawn E w w') = length (audioURLs events)
    /\ logs w' = logs w.
Proof.
  intros Hall.
  destruct (responseLoop0_jobs E events w Hall) as (w' & Hrun & _ & Hst & Hlen & Hlog).
  exists w'. auto.
Qed.

Lemma X4_earlier_loop_passes_URLs_unparsed_witness :
  parses badPortURL = false
  /\ exists w',
       narr0.responseLoop envRepeat [RecvURL badPortURL] emptyWorld = (Ret tt, w')
       /\ started w' = [(badPortURL, "DL-7" : list ascii)]
       /\ logs w' = [].
Proof.
  split; [vm_compute; reflexivity|].
  destruct (X4_earlier_loop_passes_URLs_unparsed envRepeat [RecvURL badPortURL] emptyWorld)
    as (w' & Hrun & Hst & _ & Hlog); [vm_compute; reflexivity|].
  exists w'. split; [exact Hrun|].
  assert (Hw : w' = (narr0.responseLoop envRepeat [RecvURL badPortURL] emptyWorld).2)
    by (rewrite Hrun; reflexivity).
  split; [|exact Hlog].
  rewrite Hw. vm_compute. reflexivity.
Defined.

(** ** What a download leaves behind *)

Lemma insert_twice_lookup (m : gmap (list ascii) (list ascii)) (k data : list ascii) :
  <[k := default [] (<[k := []]> m !! k) ++ data]> (<[k := []]> m) !! k = Some data.
Proof. rewrite !lookup_insert_eq. reflexivity. Qed.

(** X5: download creates the file before it sends the request and
    removes nothing when it fails.  When the file cannot be created, no
    request is sent and no file changes; when the request yields no
    response, the one request was sent and the file at toPath is left
    empty, whatever it held before.  Either way download returns the error
    and logs only its first line. *)
Theorem X5_download_early_failures (E : Env) (fromUrl toPath : list ascii) (w : World) :
  (createFails E toPath = true ->
   exists w', download E fromUrl toPath w = (Ret (Some (ErrCreate toPath)), w')
     /\ files w' = files w /\ requests w' = requests w
     /\ logs w' = logs w ++ [LogLine ("Downloading " ++ fromUrl)])
  /\ (createFails E toPath = false -> httpGet E fromUrl = GetFails ->
      exists w', download E fromUrl toPath w = (Ret (Some (ErrGet fromUrl)), w')
        /\ files w' = <[toPath := []]> (files w)
        /\ files w' !! toPath = Some []
        /\ requests w' = requests w ++ [fromUrl]
        /\ logs w' = logs w ++ [LogLine ("Downloading " ++ fromUrl)]).
Proof.
  split.
  - intros Hc. run_download. rewrite Hc. cbv beta iota.
    eexists. split; [reflexivity|]. world_fields. auto.
  - intros Hc Hg. run_download. rewrite Hc, Hg. cbv beta iota.
    eexists. split; [reflexivity|]. world_fields.
    split; [reflexivity|]. split; [apply lookup_insert_eq|]. auto.
Qed.

Lemma X5_download_early_failures_witness :
  (exists w', download envNoDisk "https://media.example?id=5" "DL-7" worldWithFile
              = (Ret (Some (ErrCreate "DL-7")), w')
     /\ files w' !! ("DL-7" : list ascii) = Some ("earlier" : list ascii)
     /\ requests w' = [])
  /\ (exists w', download envDown "https://media.example?id=5" "DL-7" worldWithFile
                 = (Ret (Some (ErrGet "https://media.example?id=5")), w')
        /\ files w' !! ("DL-7" : list ascii) = Some []
        /\ requests w' = ["https://media.example?id=5" : list ascii]).
Proof.
  split.
  - destruct (proj1 (X5_download_early_failures envNoDisk "https://media.example?id=5" "DL-7"
                       worldWithFile) eq_refl) as (w' & Hd & Hf & Hr & _).
    exists w'. split; [exact Hd|]. rewrite Hf, Hr. split; reflexivity.
  - destruct (proj2 (X5_download_early_failures envDown "https://media.example?id=5" "DL-7"
                       worldWithFile) eq_refl eq_refl) as (w' & Hd & _ & Hf & Hr & _).
    exists w'. split; [exact Hd|]. rewrite Hf, Hr. split; reflexivity.
Defined.

(** X6: a transfer that breaks off leaves the part that arrived.  When
    the disk takes only k bytes of a longer body, the file at toPath holds
    exactly the first k bytes; when the body breaks after delivering some
    bytes that the disk takes, the file holds exactly these.  download
    returns the error of the copy, and no line of completion is logged. *)
Theorem X6_download_leaves_partial_file
        (E : Env) (fromUrl toPath : list ascii) (w : World) (status : Z) (body : Body) :
  createFails E toPath = false ->
  httpGet E fromUrl = Response status body ->
  (forall k, writeLimit E toPath = Some k -> (k < length (delivered body))%nat ->
     exists w', download E fromUrl toPath w = (Ret (Some ErrWrite), w')
       /\ files w' !! toPath = Some (take k (delivered body))
       /\ requests w' = requests w ++ [fromUrl]
       /\ logs w' = logs w ++ [LogLine ("Downloading " ++ fromUrl)])
  /\ ((forall k, writeLimit E toPath = Some k -> (length (delivered body) <= k)%nat) ->
      broken body = true ->
      exists w', download E fromUrl toPath w = (Ret (Some ErrRead), w')
        /\ files w' !! toPath = Some (delivered body)
        /\ requests w' = requests w ++ [fromUrl]
        /\ logs w' = logs w ++ [LogLine ("Downloading " ++ fromUrl)]).
Proof.
  intros Hc Hg. split.
  - intros k Hk Hlt. run_download. rewrite Hc, Hg, Hk. cbv beta iota.
    apply Nat.ltb_lt in Hlt. rewrite Hlt. cbv beta iota.
    eexists. split; [reflexivity|]. world_fields.
    split; [apply insert_twice_lookup|]. auto.
  - intros Hl Hb. run_download. rewrite Hc, Hg. cbv beta iota.
    destruct (writeLimit E toPath) as [k|] eqn:Hk.
    + specialize (Hl k eq_refl).
      assert (Hlt : (k <? length (delivered body))%nat = false) by (apply Nat.ltb_ge; lia).
      rewrite Hlt, Hb. cbv beta iota. eexists. split; [reflexivity|]. world_fields.
      split; [apply insert_twice_lookup|]. auto.
    + rewrite Hb. cbv beta iota. eexists. split; [reflexivity|]. world_fields.
      split; [apply insert_twice_lookup|]. auto.
Qed.

Lemma X6_download_leaves_partial_file_witness :
  exists w', download envSmallDisk "https://media.example?id=5" "DL-7" emptyWorld
             = (Ret (Some ErrWrite), w')
    /\ files w' !! ("DL-7" : list ascii) = Some ("aud" : list ascii)
    /\ requests w' = ["https://media.example?id=5" : list ascii]
    /\ logs w' = [LogLine "Downloading https://media.example?id=5"].
Proof.
  apply (proj1 (X6_download_leaves_partial_file envSmallDisk "https://media.example?id=5"
                  "DL-7" emptyWorld 200 (mkBody "audio" false) eq_refl eq_refl) 3%nat).
  - reflexivity.
  - cbn. lia.
Defined.

(** ** The two variants of the download *)

(** X7: downloadAudio of the earlier variant fetches from the URL
    without its path, not from the URL it is given.  When fromUrl parses,
    the file can be created, the request for the URL without the path is
    answered with a payload and the disk takes it, downloadAudio returns,
    has sent exactly this one request, leaves exactly the payload at
    toPath, prints the URL as given to standard output and logs the
    count of bytes. *)
Theorem X7_downloadAudio_roundtrip
        (E : Env) (fromUrl toPath : list ascii) (u : url.URL) (w : World)
        (status : Z) (payload : list ascii) :
  url.Parse fromUrl = url.Ok u ->
  createFails E toPath = false ->
  httpGet E (url.String (url.setPathField u [])) = Response status (mkBody payload false) ->
  (forall k, writeLimit E toPath = Some k -> (length payload <= k)%nat) ->
  exists w', narr0.downloadAudio E fromUrl toPath w = (Ret tt, w')
    /\ files w' !! toPath = Some payload
    /\ requests w' = requests w ++ [url.String (url.setPathField u [])]
    /\ logs w' = logs w ++ [Stdout ("Downloading " ++ fromUrl);
                            LogLine ("Done, got " ++ strconv.Itoa (Z.of_nat (length payload))
                                     ++ " bytes")].
Proof.
  intros Hp Hc Hg Hl. run_download. rewrite Hp. cbv beta iota. rewrite Hc, Hg. cbv beta iota.
  cbn [delivered broken].
  destruct (writeLimit E toPath) as [k|] eqn:Hk.
  - specialize (Hl k eq_refl).
    assert (Hlt : (k <? length payload)%nat = false) by (apply Nat.ltb_ge; lia).
    rewrite Hlt. cbv beta iota. eexists. split; [reflexivity|]. world_fields.
    split; [apply insert_twice_lookup|]. rewrite <- app_assoc. auto.
  - cbv beta iota. eexists. split; [reflexivity|]. world_fields.
    split; [apply insert_twice_lookup|]. rewrite <- app_assoc. auto.
Qed.

Lemma X7_downloadAudio_roundtrip_witness :
  exists w', narr0.downloadAudio envRepeat c2_url "DL-7" emptyWorld = (Ret tt, w')
    /\ files w' !! ("DL-7" : list ascii) = Some ("audio" : list ascii)
    /\ requests w' = ["https://media.example?id=5" : list ascii]
    /\ logs w' = [Stdout "Downloading https://media.example/foo/range/0-1023?id=5";
                  LogLine "Done, got 5 bytes"].
Proof.
  apply (X7_downloadAudio_roundtrip envRepeat c2_url "DL-7" c2_parsed emptyWorld 200 "audio").
  - vm_compute. reflexivity.
  - reflexivity.
  - reflexivity.
  - intros k Hk. discriminate Hk.
Defined.

(** X8: what main.go does in two steps, toDownloadableURL and then
    download of its result, does to the disk and to the network exactly
    what downloadAudio of the earlier variant does in one, for every URL
    and every behaviour of disk and network: the same files with the same
    contents, the same requests.  One completes exactly when the other
    does; where the earlier variant ends the process on a failed transfer,
    main.go returns the error. *)
Theorem X8_variants_agree_on_disk_and_network
        (E : Env) (src toPath : list ascii) (w : World) :
  let new := bind (toDownloadableURL src) (fun from => download E from toPath) w in
  let old := narr0.downloadAudio E src toPath w in
  files new.2 = files old.2
  /\ requests new.2 = requests old.2
  /\ (new.1 = Ret None <-> old.1 = Ret tt)
  /\ ((new.1 = Exit 1 \/ exists e, new.1 = Ret (Some e)) <-> old.1 = Exit 1).
Proof.
  cbv zeta. unfold toDownloadableURL. run_download.
  destruct (url.Parse src) as [u|e]; cbv beta iota.
  2:{ cbn. repeat split; try discriminate; auto. }
  destruct (createFails E toPath); cbv beta iota.
  { cbn. repeat split; try discriminate; eauto. }
  destruct (httpGet E (url.String (url.setPathField u []))) as [|st body]; cbv beta iota.
  { cbn. repeat split; try discriminate; eauto. }
  destruct (writeLimit E toPath) as [k|]; [destruct (k <? length (delivered body))%nat|];
    try destruct (broken body); cbv beta iota; cbn;
    (repeat split; try discriminate; eauto);
    intros [H|[e' H]]; discriminate.
Qed.

(** ** From a response to a file *)

Lemma download_done (E : Env) (fromUrl toPath : list ascii) (w : World)
      (status : Z) (payload : list ascii) :
  createFails E toPath = false ->
  httpGet E fromUrl = Response status (mkBody payload false) ->
  (forall k, writeLimit E toPath = Some k -> (length payload <= k)%nat) ->
  exists w', download E fromUrl toPath w = (Ret None, w')
    /\ files w' !! toPath = Some payload
    /\ (forall p, p <> toPath -> files w' !! p = files w !! p)
    /\ requests w' = requests w ++ [fromUrl]
    /\ vars w' = vars w /\ goroutines w' = goroutines w /\ queued w' = queued w.
Proof.
  intros Hc Hg Hl. run_download. rewrite Hc, Hg. cbv beta iota.
  cbn [delivered broken].
  assert (Hlt : match writeLimit E toPath with
                | Some k => (k <? length payload)%nat = false
                | None => True
                end).
  { destruct (writeLimit E toPath) as [k|]; [|exact I].
    apply Nat.ltb_ge. apply Hl. reflexivity. }
  destruct (writeLimit E toPath) as [k|]; [rewrite Hlt|]; cbv beta iota;
    (eexists; split; [reflexivity|]); world_fields;
    (split; [apply insert_twice_lookup|]);
    (split; [intros p Hp; rewrite !lookup_insert_ne by congruence; reflexivity|]); auto.
Qed.

(** X9: one response, from its arrival to the file.  For a URL of the
    classifier's kind that parses, main.go turns the response into a
    goroutine; when that goroutine runs and the pool admits its task, and a
    worker then runs the task while the disk and the server cooperate,
    the payload served for the URL without its path is exactly what the
    file DL-<value of rand.Int> holds; one request was sent, no other file
    changed, and no goroutine or task of this response is left over. *)
Theorem X9_response_to_file
        (E : Env) (u : list ascii) (p : url.URL) (w : World)
        (status : Z) (payload : list ascii) :
  let from := url.String (url.setPathField p []) in
  let target := targetPath (randInt E (randCalls w)) in
  isAudioURL u = true ->
  url.Parse u = url.Ok p ->
  queueTaskFails E (submissions w) = false ->
  createFails E target = false ->
  httpGet E from = Response status (mkBody payload false) ->
  (forall k, writeLimit E target = Some k -> (length payload <= k)%nat) ->
  exists w1 w',
    responseLoop E [RecvURL u] w = (Ret tt, w1)
    /\ schedule E [RunGoroutine (length (goroutines w)); RunQueued (length (queued w))] w1
       = (Ret tt, w')
    /\ files w' !! target = Some payload
    /\ (forall f, f <> target -> files w' !! f = files w !! f)
    /\ requests w' = requests w ++ [from]
    /\ goroutines w' = goroutines w
    /\ queued w' = queued w.
Proof.
  intros from target Ha Hp Hq Hc Hg Hl.
  rewrite (responseLoop_step E u [] p w Ha Hp).
  fold from. fold target.
  set (w0 := setRandCalls w (S (randCalls w))).
  set (task := mkTask (length (vars w0)) (S (length (vars w0)))).
  (* the goroutine submits its task *)
  set (w2 := setQueued
               (setSubmissions (setGoroutines (afterEnqueue from target w0) (goroutines w))
                               (S (submissions w)))
               (queued w ++ [task])).
  assert (H1 : perform E (RunGoroutine (length (goroutines w))) (afterEnqueue from target w0)
               = (Ret tt, w2)).
  { cbn [perform]. unfold afterEnqueue.
    cbn [goroutines setGoroutines setVars setRandCalls].
    rewrite (list_lookup_middle (goroutines w) [] _ _ eq_refl).
    rewrite delete_middle, app_nil_r.
    unfold submitTask, bind, QueueTask, ret.
    cbn [submissions setGoroutines setVars setRandCalls afterEnqueue w0].
    rewrite Hq. reflexivity. }
  (* a worker runs it *)
  set (w3 := setQueued w2 (queued w)).
  destruct (download_done E from target w3 status payload Hc Hg Hl)
    as (w' & Hd & Hfile & Hother & Hreq & Hv & Hgo & Hqu).
  assert (H2 : perform E (RunQueued (length (queued w))) w2 = (Ret tt, w')).
  { assert (Hq2 : queued w2 = queued w ++ [task]) by reflexivity.
    cbn [perform]. rewrite Hq2.
    rewrite (list_lookup_middle (queued w) [] _ _ eq_refl).
    rewrite delete_middle, app_nil_r.
    fold w3. unfold work, bind. rewrite runTask_eq.
    assert (Hvars : vars w3 = vars w ++ [from; target]) by reflexivity.
    unfold task. cbn [capFromURL capToPath].
    change (length (vars w0)) with (length (vars w)).
    rewrite Hvars, lookup_snoc2_fst, lookup_snoc2_snd. cbn [default]. unfold id.
    rewrite Hd. reflexivity. }
  exists (afterEnqueue from target w0), w'. split; [reflexivity|].
  split; [cbn [schedule]; rewrite (bind_Ret _ _ _ _ _ H1), (bind_Ret _ _ _ _ _ H2); reflexivity|].
  split; [exact Hfile|]. split; [exact Hother|].
  split; [exact Hreq|]. split; [rewrite Hgo; reflexivity | rewrite Hqu; reflexivity].
Qed.

Lemma X9_response_to_file_witness :
  exists w1 w',
    responseLoop envRepeat [RecvURL c2_url] emptyWorld = (Ret tt, w1)
    /\ schedule envRepeat [RunGoroutine 0; RunQueued 0] w1 = (Ret tt, w')
    /\ files w' !! ("DL-7" : list ascii) = Some ("audio" : list ascii)
    /\ requests w' = ["https://media.example?id=5" : list ascii]
    /\ goroutines w' = [] /\ queued w' = [].
Proof.
  destruct (X9_response_to_file envRepeat c2_url c2_parsed emptyWorld 200 "audio")
    as (w1 & w' & Hl & Hs & Hf & _ & Hr & Hg & Hq).
  - reflexivity.
  - vm_compute. reflexivity.
  - reflexivity.
  - reflexivity.
  - reflexivity.
  - intros k Hk. discriminate Hk.
  - exists w1, w'. split; [exact Hl|]. split; [exact Hs|].
    split; [exact Hf|]. split; [rewrite Hr; vm_compute; reflexivity|].
    split; [exact Hg | exact Hq].
Defined.

(** ** Waiting for the browser *)

Lemma connectSequence_cases (d : Debugger) :
  (exists c, connectSequence d = (Some c, None))
  \/ (exists e, connectSequence d = (None, Some e)).
Proof.
  unfold connectSequence.
  destruct (getPage d) as [pt|]; [|destruct (createPage d) as [pt|]];
    try destruct (dial d pt); eauto.
Qed.

Lemma retryFunc_fails_full (E : Env) (w : World) (e : error) :
  connectSequence (debuggerAt E (attempts w)) = (None, Some e) ->
  retryFunc E w
  = (Ret (Some e),
     setLogs (setChrome (setAttempts w (S (attempts w))) None)
             (logs w ++ [LogError (ErrWrap connectHint e)])).
Proof.
  intros H. unfold retryFunc, bind, connectToChromeDebugger, modify, logPrint, ret.
  rewrite H. reflexivity.
Qed.

Lemma Retry_sleep_step (E : Env) (fuel : nat) (w w1 : World) (e : error) :
  retryFunc E w = (Ret (Some e), w1) ->
  Retry (S fuel) (retryFunc E) (NewConstantBackOff (5 * Second)) w
  = Retry fuel (retryFunc E) (NewConstantBackOff (5 * Second))
          (setSlept w1 (5 * Second :: slept w1)%Z).
Proof.
  intros Hr. cbn [Retry]. rewrite (bind_Ret _ _ _ _ _ Hr).
  change (NextBackOff (NewConstantBackOff (5 * Second)) =? Stop)%Z with false.
  reflexivity.
Qed.

Lemma Retry_never_stops (E : Env) (fuel : nat) :
  forall w : World,
    exists w',
      Retry fuel (retryFunc E) (NewConstantBackOff (5 * Second)) w = (Ret None, w')
      \/ (Retry fuel (retryFunc E) (NewConstantBackOff (5 * Second)) w = (Ret (Some None), w')
          /\ exists c k, chrome w' = Some c /\ (k < fuel)%nat
               /\ connectSequence (debuggerAt E (attempts w + k)) = (Some c, None)
               /\ attempts w' = (attempts w + S k)%nat).
Proof.
  induction fuel as [|fuel IH]; intros w.
  - exists w. left. reflexivity.
  - destruct (connectSequence_cases (debuggerAt E (attempts w))) as [[c Hc]|[e He]].
    + eexists. right. cbn [Retry].
      rewrite (bind_Ret _ _ _ _ _ (retryFunc_succeeds E w c Hc)).
      split; [reflexivity|]. exists c, 0%nat. cbn [chrome setChrome attempts setAttempts].
      rewrite Nat.add_0_r. split; [reflexivity|]. split; [lia|]. split; [exact Hc|lia].
    + rewrite (Retry_sleep_step E fuel w _ e (retryFunc_fails_full E w e He)).
      set (w2 := setSlept _ _).
      assert (Ha : attempts w2 = S (attempts w)) by reflexivity.
      destruct (IH w2) as [w' [H|(H & c & k & Hch & Hk & Hseq & Hat)]].
      * exists w'. left. exact H.
      * exists w'. right. split; [exact H|]. exists c, (S k).
        split; [exact Hch|]. split; [lia|].
        rewrite Ha in Hseq, Hat.
        replace (attempts w + S k)%nat with (S (attempts w) + k)%nat by lia.
        split; [exact Hseq|]. lia.
Qed.

(** X10: the retry loop of main never gives up.  Whatever the debugger
    answers and however long it is followed, lines 28 to 40 of main never
    end the process: the constant back-off never tells Retry to stop, so
    Retry returns no error and log.Fatal is not reached.  When they are
    done, the variable chrome holds the client of an attempt that
    succeeded, never nil. *)
Theorem X10_connect_never_exits (E : Env) (fuel : nat) (w : World) :
  exists r w',
    connect E fuel w = (Ret r, w')
    /\ (r = Some tt ->
        exists c k, chrome w' = Some c /\ (k < fuel)%nat
          /\ connectSequence (debuggerAt E (attempts w + k)) = (Some c, None)
          /\ attempts w' = (attempts w + S k)%nat).
Proof.
  unfold connect.
  destruct (Retry_never_stops E fuel w) as [w' [H|(H & Hc)]];
    rewrite (bind_Ret _ _ _ _ _ H).
  - exists None, w'. split; [reflexivity|]. discriminate.
  - exists (Some tt), w'. split; [reflexivity|]. intros _. exact Hc.
Qed.

Lemma Retry_failing (E : Env) (n : nat) :
  forall w : World,
    (forall i, (i < n)%nat -> (connectSequence (debuggerAt E (attempts w + i))).2 <> None) ->
    exists w',
      Retry n (retryFunc E) (NewConstantBackOff (5 * Second)) w = (Ret None, w')
      /\ attempts w' = (attempts w + n)%nat
      /\ slept w' = repeat (5 * Second)%Z n ++ slept w
      /\ logs w' = logs w ++ flat_map (attemptLog E) (seq (attempts w) n)
      /\ length (logs w') = (length (logs w) + n)%nat
      /\ ((0 < n)%nat -> chrome w' = None)
      /\ files w' = files w /\ requests w' = requests w /\ goroutines w' = goroutines w.
Proof.
  induction n as [|n IH]; intros w Hfail.
  - exists w. split; [reflexivity|]. cbn. rewrite Nat.add_0_r, app_nil_r.
    repeat (split; [reflexivity|]). split; [lia|]. split; [intros H; lia|]. auto.
  - destruct (connectSequence_error (debuggerAt E (attempts w))) as [e He].
    { specialize (Hfail 0%nat ltac:(lia)). rewrite Nat.add_0_r in Hfail. exact Hfail. }
    rewrite (Retry_sleep_step E n w _ e (retryFunc_fails_full E w e He)).
    set (w2 := setSlept _ _).
    assert (Ha : attempts w2 = S (attempts w)) by reflexivity.
    destruct (IH w2) as (w' & Hr & Hat & Hsl & Hlog & Hlen & Hch & Hf & Hrq & Hg).
    { intros i Hi. rewrite Ha. replace (S (attempts w) + i)%nat with (attempts w + S i)%nat by lia.
      apply Hfail. lia. }
    exists w'. split; [exact Hr|]. split; [lia|]. split; [|split; [|split; [|split]]].
    + rewrite Hsl. unfold w2. cbn [slept setSlept setLogs setChrome setAttempts].
      change (repeat (5 * Second)%Z (S n)) with ((5 * Second)%Z :: repeat (5 * Second)%Z n).
      rewrite repeat_cons, <- app_assoc. reflexivity.
    + rewrite Hlog, Ha. unfold w2. cbn [logs setSlept setLogs seq flat_map].
      unfold attemptLog at 2. rewrite He. cbn [snd]. rewrite <- app_assoc. reflexivity.
    + rewrite Hlen. unfold w2. cbn [logs setSlept setLogs]. rewrite length_app. cbn. lia.
    + intros _. destruct n as [|n].
      * cbn in Hr. injection Hr as <-. reflexivity.
      * apply Hch. lia.
    + rewrite Hf, Hrq, Hg. auto.
Qed.

(** X11: as long as the connect sequence fails, the retry loop of main
    goes on.  After n failed attempts it is still running: it has run
    exactly n attempts, slept 5 seconds after each of them, logged the
    error of each attempt once, wrapped with the hint to start Chrome in
    debug mode, in the order of the attempts, and the variable chrome is
    nil; nothing else has happened. *)
Theorem X11_connect_keeps_trying (E : Env) (n : nat) (w : World) :
  (forall i, (i < n)%nat -> (connectSequence (debuggerAt E (attempts w + i))).2 <> None) ->
  exists w',
    connect E n w = (Ret None, w')
    /\ attempts w' = (attempts w + n)%nat
    /\ slept w' = repeat 5000000000%Z n ++ slept w
    /\ logs w' = logs w ++ flat_map (attemptLog E) (seq (attempts w) n)
    /\ length (logs w') = (length (logs w) + n)%nat
    /\ ((0 < n)%nat -> chrome w' = None)
    /\ files w' = files w /\ requests w' = requests w /\ goroutines w' = goroutines w.
Proof.
  intros Hfail.
  destruct (Retry_failing E n w Hfail) as (w' & Hr & H).
  exists w'. unfold connect. rewrite (bind_Ret _ _ _ _ _ Hr). split; [reflexivity|]. exact H.
Qed.

Lemma X11_connect_keeps_trying_witness :
  exists w',
    connect envNoChrome 3 emptyWorld = (Ret None, w')
    /\ attempts w' = 3%nat
    /\ slept w' = [5000000000; 5000000000; 5000000000]%Z
    /\ logs w' = [LogError (ErrWrap connectHint ErrDevtool);
                  LogError (ErrWrap connectHint ErrDevtool);
                  LogError (ErrWrap connectHint ErrDevtool)]
    /\ chrome w' = None.
Proof.
  destruct (X11_connect_keeps_trying envNoChrome 3 emptyWorld)
    as (w' & Hr & Ha & Hs & Hl & _ & Hc & _).
  - intros i Hi. cbn. congruence.
  - exists w'. split; [exact Hr|]. split; [exact Ha|]. split; [exact Hs|].
    split; [exact Hl|]. apply Hc. lia.
Defined.

(** ** Removing the path twice *)

(** X12: toDownloadableURL is idempotent.  For a URL that parses and
    whose host holds no byte from 0x80 on, the URL it returns is one it
    accepts and returns unchanged: removing the path a second time
    changes nothing. *)
Theorem X12_toDownloadableURL_idempotent (s : list ascii) (u : url.URL) (w : World) :
  url.Parse s = url.Ok u ->
  asciiHost (url.Host u) = true ->
  exists out,
    toDownloadableURL s w = (Ret out, w)
    /\ toDownloadableURL out w = (Ret out, w).
Proof.
  intros Hp Hascii. exists (pathlessText u).
  pose proof (Parse_shape s u Hp) as Hshape.
  rewrite (toDownloadableURL_Ok s u w Hp), String_clear. split; [reflexivity|].
  destruct (Parse_written_ok u Hshape (Parse_clean s u Hp) Hascii) as [u' Hu'].
  rewrite (toDownloadableURL_Ok _ u' w Hu'), String_clear.
  rewrite (proj1 (Parse_written_text u u' Hshape Hu')). reflexivity.
Qed.

Lemma X12_toDownloadableURL_idempotent_witness :
  url.Parse fullURL = url.Ok fullParsed
  /\ asciiHost (url.Host fullParsed) = true
  /\ exists out,
       toDownloadableURL fullURL emptyWorld = (Ret out, emptyWorld)
       /\ toDownloadableURL out emptyWorld = (Ret out, emptyWorld).
Proof.
  assert (Hp : url.Parse fullURL = url.Ok fullParsed) by (vm_compute; reflexivity).
  assert (Ha : asciiHost (url.Host fullParsed) = true) by (vm_compute; reflexivity).
  split; [exact Hp|]. split; [exact Ha|].
  exact (X12_toDownloadableURL_idempotent fullURL fullParsed emptyWorld Hp Ha).
Defined.

(** ** What toDownloadableURL removes, and what it leaves *)

(** Every text written for a URL without a path is one toDownloadableURL
    returns as it is. *)
Lemma toDownloadableURL_fixed (u : url.URL) (w : World) :
  parsedShape u -> parsedClean u -> asciiHost (url.Host u) = true ->
  toDownloadableURL (pathlessText u) w = (Ret (pathlessText u), w).
Proof.
  intros Hshape Hclean Hascii.
  destruct (Parse_written_ok u Hshape Hclean Hascii) as [u' Hu'].
  rewrite (toDownloadableURL_Ok _ u' w Hu'), String_clear.
  rewrite (proj1 (Parse_written_text u u' Hshape Hu')). reflexivity.
Qed.

Lemma hierByte_spec (s : list ascii) :
  forallb hierByte s = true ->
  ~ In "?"%char s /\ ~ In "#"%char s /\ url.stringContainsCTLByte s = false.
Proof.
  intros H. rewrite forallb_forall in H. split; [|split].
  - intros Hin. specialize (H _ Hin). vm_compute in H. discriminate.
  - intros Hin. specialize (H _ Hin). vm_compute in H. discriminate.
  - apply noCTL_forallb. apply forallb_forall. intros c Hin. specialize (H _ Hin).
    unfold hierByte in H. apply andb_true_iff in H. destruct H as [H _].
    apply andb_true_iff in H. destruct H as [H _]. exact H.
Qed.

Lemma queryByte_spec (s : list ascii) :
  forallb queryByte s = true ->
  ~ In "#"%char s /\ url.stringContainsCTLByte s = false.
Proof.
  intros H. rewrite forallb_forall in H. split.
  - intros Hin. specialize (H _ Hin). vm_compute in H. discriminate.
  - apply noCTL_forallb. apply forallb_forall. intros c Hin. specialize (H _ Hin).
    unfold queryByte in H. apply andb_true_iff in H. destruct H as [H _]. exact H.
Qed.

Lemma isAudioURL_inside (pre u post : list ascii) :
  isAudioURL u = true -> isAudioURL (pre ++ u ++ post) = true.
Proof.
  unfold isAudioURL. rewrite !Contains_spec. intros (a & b & ->).
  exists (pre ++ a), (b ++ post). rewrite <- !app_assoc. reflexivity.
Qed.

(** X13: toDownloadableURL removes nothing from a URL whose rest after
    the scheme does not start with a slash, as in http:media/range/0-9.
    url.Parse keeps such a rest as the opaque part, not as a path, so the
    URL comes back byte for byte, with its range still in it: a URL of the
    classifier's kind stays one. *)
Theorem X13_rootless_URL_is_returned_unchanged (sc rest q : list ascii) (w : World) :
  storedScheme sc = true -> sc <> [] ->
  HasPrefix rest "/" = false ->
  forallb hierByte rest = true ->
  forallb queryByte q = true ->
  toDownloadableURL (rootlessURL sc rest q) w = (Ret (rootlessURL sc rest q), w)
  /\ (isAudioURL rest = true -> isAudioURL (rootlessURL sc rest q) = true).
Proof.
  intros Hsc Hne Hslash Hrest Hq.
  destruct (hierByte_spec rest Hrest) as (Hr1 & Hr2 & Hr3).
  destruct (queryByte_spec q Hq) as (Hq1 & Hq2).
  set (u := url.mkURL sc rest None [] [] [] false false q [] []).
  assert (Htext : pathlessText u = rootlessURL sc rest q).
  { unfold pathlessText, rootlessURL, schemeText, hierText, authorityText, queryText,
      fragmentText, queryPart, u.
    cbn [url.Scheme url.Opaque url.User url.Host url.ForceQuery url.RawQuery url.Fragment
         url.isSome url.isEmpty negb andb orb].
    rewrite (proj2 (isEmpty_false sc) Hne). cbn [negb].
    rewrite app_nil_r, <- app_assoc.
    destruct rest; destruct q; reflexivity. }
  split.
  - rewrite <- Htext. apply toDownloadableURL_fixed.
    + unfold parsedShape, u. cbn. repeat split; auto; discriminate.
    + unfold parsedClean, u. cbn. repeat split; auto. exists []. reflexivity.
    + reflexivity.
  - intros Ha. unfold rootlessURL.
    replace (sc ++ ":" ++ rest ++ queryPart q) with ((sc ++ ":") ++ rest ++ queryPart q)
      by (rewrite <- app_assoc; reflexivity).
    apply isAudioURL_inside. exact Ha.
Qed.

Lemma X13_rootless_URL_is_returned_unchanged_witness :
  toDownloadableURL "http:media.example/range/0-1023?id=5" emptyWorld
  = (Ret ("http:media.example/range/0-1023?id=5" : list ascii), emptyWorld)
  /\ isAudioURL "http:media.example/range/0-1023?id=5" = true.
Proof.
  destruct (X13_rootless_URL_is_returned_unchanged "http" "media.example/range/0-1023" "id=5"
              emptyWorld) as [H1 H2].
  - reflexivity.
  - discriminate.
  - reflexivity.
  - vm_compute. reflexivity.
  - vm_compute. reflexivity.
  - split; [exact H1|]. apply H2. vm_compute. reflexivity.
Defined.

(** Splitting the query off a text that holds no question mark before it. *)
Lemma query_split_text (url0 : url.URL) (R q : list ascii) :
  ~ In "?"%char R ->
  (if HasSuffix (R ++ queryPart q) "?" && (CountByte (R ++ queryPart q) "?" =? 1)%nat
   then url.parseRest (url.setForceQuery url0 true)
          (take (length (R ++ queryPart q) - 1) (R ++ queryPart q)) false
   else let '(rest, query, _) := Cut (R ++ queryPart q) "?" in
        url.parseRest (url.setRawQuery url0 query) rest false)
  = url.parseRest (url.setRawQuery url0 q) R false.
Proof.
  intros Hh. unfold queryPart.
  destruct q as [|q0 q]; cbn [url.isEmpty]; cbn [list_ascii_of_string app].
  - rewrite app_nil_r.
    assert (Hsuf : HasSuffix R ["?"%char] = false).
    { destruct (HasSuffix R ["?"%char]) eqn:Hs; [|reflexivity].
      apply HasSuffix_byte in Hs. destruct Hs as [a Ha]. exfalso. apply Hh.
      rewrite Ha. apply in_or_app. right. left. reflexivity. }
    rewrite Hsuf. cbn [andb].
    rewrite (Cut_byte_notin _ _ Hh). reflexivity.
  - assert (Hcond : HasSuffix (R ++ "?"%char :: q0 :: q) ["?"%char]
                    && (CountByte (R ++ "?"%char :: q0 :: q) "?" =? 1)%nat = false).
    { destruct (HasSuffix (R ++ "?"%char :: q0 :: q) ["?"%char]) eqn:Hs; [|reflexivity].
      apply HasSuffix_byte in Hs.
      apply last_in_nonempty in Hs; [|discriminate].
      apply CountByte_in in Hs.
      rewrite CountByte_app. cbn [CountByte]. rewrite byte_eqb_refl.
      cbn [andb]. apply Nat.eqb_neq. cbn [CountByte] in Hs. lia. }
    rewrite Hcond.
    rewrite (Cut_byte_app _ _ _ Hh). reflexivity.
Qed.

(** [url.Parse] on a URL of a scheme, a host and a path. *)
Lemma Parse_hierURL (sc host path q p : list ascii) :
  storedScheme sc = true -> sc <> [] ->
  host <> [] ->
  url.escape host url.encodeHost = host ->
  url.parseHost host = url.Ok host ->
  path = [] \/ HasPrefix path "/" = true ->
  forallb hierByte path = true ->
  url.unescape path url.encodePath = url.Ok p ->
  forallb queryByte q = true ->
  exists u,
    url.Parse (hierURL sc host path q) = url.Ok u
    /\ url.Scheme u = sc /\ url.Opaque u = [] /\ url.User u = None /\ url.Host u = host
    /\ url.Path u = p /\ url.ForceQuery u = false /\ url.RawQuery u = q
    /\ url.Fragment u = [].
Proof.
  intros Hsc Hne Hhne Hesc Hhost Hslash Hpath Hun Hq.
  destruct (hierByte_spec path Hpath) as (Hp1 & Hp2 & Hp3).
  destruct (queryByte_spec q Hq) as (Hq1 & Hq2).
  assert (Hhavoid : forall x, In x host -> ~ In x ("/?#@" : list ascii)).
  { intros x Hin. apply (escape_host_avoids host). rewrite Hesc. exact Hin. }
  assert (Hh1 : ~ In "/"%char host) by (intros Hin; apply (Hhavoid _ Hin); cbn; tauto).
  assert (Hh2 : ~ In "?"%char host) by (intros Hin; apply (Hhavoid _ Hin); cbn; tauto).
  assert (Hh3 : ~ In "#"%char host) by (intros Hin; apply (Hhavoid _ Hin); cbn; tauto).
  assert (Hh4 : ~ In "@"%char host) by (intros Hin; apply (Hhavoid _ Hin); cbn; tauto).
  assert (Hh5 : url.stringContainsCTLByte host = false)
    by (rewrite <- Hesc; apply noCTL_escape).
  set (R := "/"%char :: "/"%char :: host ++ path).
  assert (HR : ~ In "?"%char R).
  { unfold R. intros [Hin|[Hin|Hin]]; try discriminate.
    apply in_app_or in Hin. tauto. }
  assert (Hs : hierURL sc host path q = sc ++ ":"%char :: R ++ queryPart q).
  { unfold hierURL, R. cbn [list_ascii_of_string app]. rewrite <- !app_assoc. reflexivity. }
  assert (Htail : ~ In "#"%char (queryPart q) /\ url.stringContainsCTLByte (queryPart q) = false).
  { unfold queryPart. destruct (url.isEmpty q); [split; [intros []|reflexivity]|].
    cbn [list_ascii_of_string app]. split; [intros [Hin|Hin]; [discriminate|tauto]|].
    cbn. exact Hq2. }
  destruct Htail as [Ht1 Ht2].
  assert (Hhash : ~ In "#"%char (hierURL sc host path q)).
  { rewrite Hs. intros Hin. apply in_app_or in Hin. destruct Hin as [Hin|Hin].
    { apply (storedScheme_avoids _ _ Hsc Hin). cbn. tauto. }
    destruct Hin as [Hin|Hin]; [discriminate|].
    apply in_app_or in Hin. destruct Hin as [Hin|Hin]; [|tauto].
    unfold R in Hin. destruct Hin as [Hin|[Hin|Hin]]; try discriminate.
    apply in_app_or in Hin. tauto. }
  assert (Hctl : url.stringContainsCTLByte (hierURL sc host path q) = false).
  { rewrite Hs.
    change (sc ++ ":"%char :: R ++ queryPart q)
      with (sc ++ [":"%char; "/"%char; "/"%char] ++ (host ++ path) ++ queryPart q).
    rewrite !noCTL_app, (noCTL_stored _ Hsc), Hh5, Hp3, Ht2. reflexivity. }
  assert (Hstar : url.bytes_eqb (hierURL sc host path q) "*" = false).
  { destruct (url.bytes_eqb (hierURL sc host path q) "*") eqn:Hb; [|reflexivity].
    apply bytes_eqb_eq in Hb. rewrite Hs in Hb.
    destruct sc as [|c [|c' sc']]; [congruence|discriminate|discriminate]. }
  unfold url.Parse.
  change (Cut (hierURL sc host path q) "#") with (Cut (hierURL sc host path q) ["#"%char]).
  rewrite (Cut_byte_notin "#" _ Hhash). cbn [url.isEmpty].
  unfold url.parse. rewrite Hctl, andb_false_r, Hstar.
  rewrite Hs, (getScheme_stored sc _ Hsc Hne).
  cbn [mbind url.result_bind]. rewrite (ToLower_stored _ Hsc).
  rewrite (query_split_text _ R q HR).
  set (url2 := url.setRawQuery (url.setScheme url.newURL sc) q).
  unfold url.parseRest. change (HasPrefix R "/") with true. cbn [negb].
  unfold url.parseAuthorityPath.
  change (url.Scheme url2) with sc. rewrite (proj2 (isEmpty_false sc) Hne).
  change (HasPrefix R "//") with (HasPrefix (host ++ path) []). rewrite HasPrefix_nil.
  cbn [negb andb orb]. cbv zeta.
  change (drop 2 R) with (host ++ path).
  assert (Hauth : url.parseAuthority host = url.Ok (None, host)).
  { unfold url.parseAuthority.
    change (LastIndex host "@") with (LastIndex host ["@"%char]).
    rewrite (LastIndex_byte_notin _ _ Hh4), Hhost. reflexivity. }
  assert (Hsplit : match Index (host ++ path) "/" with
                   | Some i => (take i (host ++ path), drop i (host ++ path))
                   | None => (host ++ path, [])
                   end = (host, path)).
  { change (Index (host ++ path) "/") with (Index (host ++ path) ["/"%char]).
    destruct Hslash as [->|Hpre].
    - rewrite app_nil_r, (Index_byte_notin _ _ Hh1). reflexivity.
    - destruct path as [|c path']; [discriminate|].
      change (HasPrefix (c :: path') "/") with (HasPrefix (c :: path') ["/"%char]) in Hpre.
      rewrite HasPrefix_byte in Hpre. apply byte_eqb_eq in Hpre. subst c.
      rewrite (Index_byte_app _ _ _ Hh1), take_app_length, drop_app_length. reflexivity. }
  rewrite Hsplit, Hauth. cbn [mbind url.result_bind].
  unfold url.setPath. rewrite Hun. cbn [mbind url.result_bind].
  destruct (url.bytes_eqb path (url.escape p url.encodePath));
    eexists; (split; [reflexivity|]); cbn; auto 10.
Qed.

(** X14: for a URL of a scheme, a host and a path, toDownloadableURL
    returns the very text of the URL with the text of the path cut out:
    scheme, host, port and query stay byte for byte.  This holds when the
    scheme is in lower case, the host is one url.Parse accepts and writes
    back unchanged, the path is empty or starts with a slash and holds
    valid escapes only, and no part holds a control byte or a hash. *)
Theorem X14_toDownloadableURL_cuts_the_path_out
        (sc host path q p : list ascii) (w : World) :
  storedScheme sc = true -> sc <> [] ->
  host <> [] ->
  url.escape host url.encodeHost = host ->
  url.parseHost host = url.Ok host ->
  path = [] \/ HasPrefix path "/" = true ->
  forallb hierByte path = true ->
  url.unescape path url.encodePath = url.Ok p ->
  forallb queryByte q = true ->
  toDownloadableURL (hierURL sc host path q) w = (Ret (hierURL sc host [] q), w).
Proof.
  intros Hsc Hne Hhne Hesc Hhost Hslash Hpath Hun Hq.
  destruct (Parse_hierURL sc host path q p Hsc Hne Hhne Hesc Hhost Hslash Hpath Hun Hq)
    as (u & Hp & Hs & Ho & Hu & Hh & _ & Hf & Hrq & Hfr).
  rewrite (toDownloadableURL_Ok _ u w Hp), String_clear.
  unfold pathlessText, schemeText, hierText, authorityText, userText, queryText, fragmentText,
    hierURL, queryPart.
  rewrite Hs, Ho, Hu, Hh, Hf, Hrq, Hfr, Hesc.
  rewrite (proj2 (isEmpty_false sc) Hne), (proj2 (isEmpty_false host) Hhne).
  cbn [url.isEmpty url.isSome negb andb orb app].
  rewrite !app_nil_r. cbn [list_ascii_of_string app].
  destruct (url.isEmpty q); cbn [negb];
    rewrite <- ?app_assoc; cbn [app]; rewrite ?app_nil_r; reflexivity.
Qed.

Lemma X14_toDownloadableURL_cuts_the_path_out_witness :
  toDownloadableURL "https://media.example:8443/a%2Fb/range/0-1023?id=5&t=/range/0-1"
                    emptyWorld
  = (Ret ("https://media.example:8443?id=5&t=/range/0-1" : list ascii), emptyWorld).
Proof.
  apply (X14_toDownloadableURL_cuts_the_path_out "https" "media.example:8443"
           "/a%2Fb/range/0-1023" "id=5&t=/range/0-1" "/a/b/range/0-1023" emptyWorld).
  - reflexivity.
  - discriminate.
  - discriminate.
  - vm_compute. reflexivity.
  - vm_compute. reflexivity.
  - right. reflexivity.
  - vm_compute. reflexivity.
  - vm_compute. reflexivity.
  - vm_compute. reflexivity.
Defined.

(** ** The names of the files *)

Lemma digit_decimal (d : Z) : (0 <= d < 10)%Z -> decimalByte (strconv.digit d) = true.
Proof.
  intros H.
  assert (Hd : (d = 0 \/ d = 1 \/ d = 2 \/ d = 3 \/ d = 4 \/ d = 5 \/ d = 6 \/ d = 7
                \/ d = 8 \/ d = 9)%Z) by lia.
  repeat (destruct Hd as [->|Hd]; [reflexivity|]). subst d. reflexivity.
Qed.

Lemma formatBits_decimal (fuel : nat) :
  forall (u : Z) (a : list ascii),
    (0 <= u)%Z -> forallb decimalByte a = true ->
    forallb decimalByte (strconv.formatBits fuel u a) = true.
Proof.
  induction fuel as [|fuel IH]; intros u a Hu Ha; [exact Ha|].
  rewrite formatBits_S. destruct (u <? 10)%Z eqn:Hlt.
  - apply Z.ltb_lt in Hlt. cbn [forallb]. rewrite digit_decimal by lia. exact Ha.
  - apply IH; [apply Z.div_pos; lia|].
    cbn [forallb]. rewrite digit_decimal by (apply Z.mod_pos_bound; lia). exact Ha.
Qed.

Lemma Itoa_bytes (n : Z) :
  strconv.Itoa n <> []
  /\ forallb numeralByte (strconv.Itoa n) = true
  /\ ((0 <= n)%Z -> forallb decimalByte (strconv.Itoa n) = true).
Proof.
  assert (Hweak : forall s, forallb decimalByte s = true -> forallb numeralByte s = true).
  { intros s Hs. rewrite forallb_forall in *. intros c Hc. unfold numeralByte.
    rewrite (Hs c Hc). reflexivity. }
  unfold strconv.Itoa. destruct (n <? 0)%Z eqn:Hneg.
  - apply Z.ltb_lt in Hneg. split; [discriminate|]. split; [|lia].
    cbn [list_ascii_of_string app forallb]. apply Hweak.
    apply formatBits_decimal; [lia|reflexivity].
  - apply Z.ltb_ge in Hneg.
    assert (Hd : forallb decimalByte (strconv.FormatUint n) = true)
      by (apply formatBits_decimal; [lia|reflexivity]).
    split; [|split; [apply Hweak; exact Hd | intros _; exact Hd]].
    destruct (FormatUint_read n Hneg) as (d & r & Heq & _). rewrite Heq. discriminate.
Qed.

(** X15: every file the program writes lies in the working directory
    under a name made of DL-, an optional minus sign and decimal digits.
    Each target path the loop of main.go gives a job is DL- followed by the
    non-empty numeral of a value of rand.Int; it holds no slash and no
    dot, whatever rand.Int yields and whatever the URLs received are; for
    a value that is not negative, as those of rand.Int are, the numeral is
    digits only. *)
Theorem X15_target_paths_are_plain_file_names
        (E : Env) (events : list RecvResult) (w : World) (t : list ascii) :
  In t (targetPaths (responseLoop E events w).2) ->
  In t (targetPaths w)
  \/ exists n,
       In n (drawn E w (responseLoop E events w).2)
       /\ t = "DL-" ++ strconv.Itoa n
       /\ strconv.Itoa n <> []
       /\ forallb numeralByte (strconv.Itoa n) = true
       /\ ((0 <= n)%Z -> forallb decimalByte (strconv.Itoa n) = true)
       /\ ~ In "/"%char t /\ ~ In "."%char t.
Proof.
  destruct (responseLoop_targets E events w) as [_ Heq]. rewrite Heq.
  intros Hin. apply in_app_or in Hin. destruct Hin as [Hin|Hin]; [left; exact Hin|].
  right. apply in_map_iff in Hin. destruct Hin as (n & <- & Hn).
  exists n. destruct (Itoa_bytes n) as (Hne & Hnum & Hdec).
  split; [exact Hn|]. split; [reflexivity|]. split; [exact Hne|]. split; [exact Hnum|].
  split; [exact Hdec|].
  rewrite forallb_forall in Hnum. unfold targetPath. cbn [list_ascii_of_string app].
  split; intros [H|[H|[H|H]]]; try discriminate;
    specialize (Hnum _ H); vm_compute in Hnum; discriminate.
Qed.

Lemma X15_target_paths_are_plain_file_names_witness :
  In ("DL-7" : list ascii) (targetPaths (responseLoop envRepeat twoSegments emptyWorld).2)
  /\ ~ In "/"%char ("DL-7" : list ascii).
Proof.
  assert (Hin : In ("DL-7" : list ascii)
                   (targetPaths (responseLoop envRepeat twoSegments emptyWorld).2))
    by (vm_compute; left; reflexivity).
  split; [exact Hin|].
  destruct (X15_target_paths_are_plain_file_names envRepeat twoSegments emptyWorld "DL-7" Hin)
    as [[]|(n & _ & _ & _ & _ & _ & Hslash & _)].
  exact Hslash.
Defined.

(** ** A pool that refuses a task *)

(** X16: in the earlier variant a task the pool refuses ends the
    process.  The goroutine started for a response builds its task from
    its own two arguments and submits it; when QueueTask returns an error,
    it panics with that error: the process ends with status 2, nothing is
    queued and no file or request is made.  When the pool admits the
    task, the goroutine returns and the task is the last in the queue. *)
Theorem X16_earlier_variant_panics_on_refused_task
        (E : Env) (srcUrl tgtPath : list ascii) (w : World) :
  let task := mkTask (length (vars w)) (S (length (vars w))) in
  (queueTaskFails E (submissions w) = true ->
   exists w', narr0.submitTask E srcUrl tgtPath w = (Exit 2, w')
     /\ logs w' = logs w ++ [LogError ErrQueue]
     /\ queued w' = queued w /\ files w' = files w /\ requests w' = requests w
     /\ submissions w' = S (submissions w))
  /\ (queueTaskFails E (submissions w) = false ->
      exists w', narr0.submitTask E srcUrl tgtPath w = (Ret tt, w')
        /\ logs w' = logs w
        /\ queued w' = queued w ++ [task]
        /\ vars w' !! capFromURL task = Some srcUrl
        /\ vars w' !! capToPath task = Some tgtPath
        /\ submissions w' = S (submissions w)).
Proof.
  cbv zeta. unfold narr0.submitTask.
  rewrite (bind_Ret _ _ _ _ _ (newDownloadTask_eq srcUrl tgtPath w)).
  unfold bind, QueueTask, panic, logPrint, modify, exit, ret.
  cbn [submissions setVars]. split; intros Hq; rewrite Hq; cbv beta iota.
  - eexists. split; [reflexivity|]. cbn. auto 10.
  - eexists. split; [reflexivity|].
    cbn [logs queued vars submissions setQueued setSubmissions setVars capFromURL capToPath].
    rewrite lookup_snoc2_fst, lookup_snoc2_snd. auto 10.
Qed.

Lemma X16_earlier_variant_panics_on_refused_task_witness :
  exists w', narr0.submitTask envFull c2_url "DL-7" emptyWorld = (Exit 2, w')
    /\ logs w' = [LogError ErrQueue] /\ queued w' = [].
Proof.
  destruct (proj1 (X16_earlier_variant_panics_on_refused_task envFull c2_url "DL-7" emptyWorld)
              eq_refl) as (w' & Hs & Hl & Hq & _).
  exists w'. split; [exact Hs|]. split; [exact Hl | exact Hq].
Defined.
